(** * Forecasting and supplier-ranking core of the inventory manager

    A shallow embedding of [inventory.py]: the [Product] and [Supplier]
    classes, [get_weather_forecast] and [recommend_best_suppliers]; and of
    the helper functions of [app.py] over the session state.

    Python values are modelled as the interpreter has them:
    - [int] is an unbounded integer, here [Z];
    - [float] is an IEEE 754 binary64 number, here [spec_float] with
      precision 53 and maximal exponent 1024, rounded to nearest even;
    - an exception is an [Raise e] result, a returned value an [Ok v];
    - a list is a [list]; a dict parsed from JSON is an association list. *)

From Stdlib Require Import ZArith List Bool String Ascii Lia DecimalString.
From Stdlib Require Import Floats.SpecFloat.
From Stdlib Require Import Sorting.Permutation Sorting.Sorted.
Import ListNotations.
Local Open Scope Z_scope.

(** ** Exceptions and results *)

Inductive exn : Type :=
| ZeroDivisionError
| OverflowError
| ValueError
| TypeError
| KeyError
| IndexError
| AttributeError
| ConnectionError
| JSONDecodeError.

Inductive result (A : Type) : Type :=
| Ok (a : A)
| Raise (e : exn).
Arguments Ok {A} a.
Arguments Raise {A} e.

Definition bind {A B : Type} (r : result A) (k : A -> result B) : result B :=
  match r with
  | Ok a => k a
  | Raise e => Raise e
  end.

Notation "x <- r ;; k" := (bind r (fun x => k))
  (at level 61, r at next level, right associativity).

(** ** Python floats: IEEE 754 binary64 *)

Module PyFloat.

Definition prec : Z := 53.
Definition emax : Z := 1024.

Definition float : Type := spec_float.

Definition fmul : float -> float -> float := SFmul prec emax.
Definition fadd : float -> float -> float := SFadd prec emax.
Definition fsub : float -> float -> float := SFsub prec emax.

Definition is_zero (f : float) : bool :=
  match f with
  | S754_zero _ => true
  | _ => false
  end.

Definition is_nan (f : float) : bool :=
  match f with
  | S754_nan => true
  | _ => false
  end.

(** [float(z)] for an int [z]: the nearest double, ties to even;
    [OverflowError] when that is out of range. *)
Definition of_int (z : Z) : result float :=
  match binary_normalize prec emax z 0 false with
  | S754_infinity _ => Raise OverflowError
  | f => Ok f
  end.

(** An int as an exact, unrounded operand. *)
Definition exact (z : Z) : float :=
  match z with
  | Z0 => S754_zero false
  | Zpos m => S754_finite false m 0
  | Zneg m => S754_finite true m 0
  end.

(** [a / b] for two ints: the correctly rounded quotient of the exact
    operands; [0 / b] is a zero with the sign of [b]. *)
Definition int_truediv (a b : Z) : result float :=
  if b =? 0 then Raise ZeroDivisionError
  else
    match SFdiv prec emax (exact a) (exact b) with
    | S754_infinity _ => Raise OverflowError
    | f => Ok f
    end.

(** [x / y] for two floats: a zero divisor raises. *)
Definition fdiv (x y : float) : result float :=
  if is_zero y then Raise ZeroDivisionError else Ok (SFdiv prec emax x y).

(** [int(x)]: truncation toward zero. *)
Definition to_int (x : float) : result Z :=
  match x with
  | S754_zero _ => Ok 0
  | S754_infinity _ => Raise OverflowError
  | S754_nan => Raise ValueError
  | S754_finite s m e =>
      let a := if 0 <=? e then Zpos m * 2 ^ e else Zpos m / 2 ^ (- e) in
      Ok (if s then - a else a)
  end.

(** Exact comparison of a float with an int, [None] for a NaN. *)
Definition compare_int (x : float) (z : Z) : option comparison :=
  match x with
  | S754_nan => None
  | S754_infinity s => Some (if s then Lt else Gt)
  | S754_zero _ => Some (0 ?= z)
  | S754_finite s m e =>
      let v := if s then Zneg m else Zpos m in
      Some (if 0 <=? e then (v * 2 ^ e ?= z) else (v ?= z * 2 ^ (- e)))
  end.

(** The literals of the source, each the double nearest to its decimal. *)
Definition f1_1 : float := S754_finite false 4953959590107546 (-52).
Definition f1_2 : float := S754_finite false 5404319552844595 (-52).
Definition f0_5 : float := S754_finite false 4503599627370496 (-53).
Definition f0_3 : float := S754_finite false 5404319552844595 (-54).
Definition f0_2 : float := S754_finite false 7205759403792794 (-55).

End PyFloat.

(** ** Python numbers: [int] or [float] *)

Inductive pynum : Type :=
| PInt (z : Z)
| PFloat (f : PyFloat.float).

Module PyNum.

Definition as_float (x : pynum) : result PyFloat.float :=
  match x with
  | PInt z => PyFloat.of_int z
  | PFloat f => Ok f
  end.

Definition mul (x y : pynum) : result pynum :=
  match x, y with
  | PInt a, PInt b => Ok (PInt (a * b))
  | _, _ =>
      fx <- as_float x ;; fy <- as_float y ;; Ok (PFloat (PyFloat.fmul fx fy))
  end.

Definition add (x y : pynum) : result pynum :=
  match x, y with
  | PInt a, PInt b => Ok (PInt (a + b))
  | _, _ =>
      fx <- as_float x ;; fy <- as_float y ;; Ok (PFloat (PyFloat.fadd fx fy))
  end.

Definition sub (x y : pynum) : result pynum :=
  match x, y with
  | PInt a, PInt b => Ok (PInt (a - b))
  | _, _ =>
      fx <- as_float x ;; fy <- as_float y ;; Ok (PFloat (PyFloat.fsub fx fy))
  end.

Definition truediv (x y : pynum) : result pynum :=
  match x, y with
  | PInt a, PInt b => f <- PyFloat.int_truediv a b ;; Ok (PFloat f)
  | _, _ =>
      fx <- as_float x ;; fy <- as_float y ;;
      f <- PyFloat.fdiv fx fy ;; Ok (PFloat f)
  end.

(** Three-way comparison, exact also between an int and a float. *)
Definition compare (x y : pynum) : option comparison :=
  match x, y with
  | PInt a, PInt b => Some (a ?= b)
  | PFloat f, PInt b => PyFloat.compare_int f b
  | PInt a, PFloat g => option_map CompOpp (PyFloat.compare_int g a)
  | PFloat f, PFloat g => SFcompare f g
  end.

Definition lt (x y : pynum) : bool :=
  match compare x y with Some Lt => true | _ => false end.
Definition gt (x y : pynum) : bool :=
  match compare x y with Some Gt => true | _ => false end.
Definition ge (x y : pynum) : bool :=
  match compare x y with Some (Gt | Eq) => true | _ => false end.

(** [int(x)] *)
Definition to_int (x : pynum) : result Z :=
  match x with
  | PInt z => Ok z
  | PFloat f => PyFloat.to_int f
  end.

(** Truth value of a number: zero is false. *)
Definition truthy (x : pynum) : bool :=
  match x with
  | PInt z => negb (z =? 0)
  | PFloat f => negb (PyFloat.is_zero f)
  end.

(** [min(a, b)] of the builtins: the first argument wins unless the second
    is strictly smaller. *)
Definition min (a b : pynum) : pynum := if lt b a then b else a.

End PyNum.

(** ** Lists: slices, [len] and [sum] over ints *)

Definition len {A : Type} (l : list A) : Z := Z.of_nat (List.length l).

(** Start or stop index of a slice, clamped as Python does. *)
Definition slice_index {A : Type} (i : Z) (l : list A) : nat :=
  if i <? 0 then Z.to_nat (Z.max 0 (len l + i)) else Z.to_nat (Z.min i (len l)).

(** [l[i:]] *)
Definition slice_from {A : Type} (i : Z) (l : list A) : list A :=
  skipn (slice_index i l) l.

(** [l[:j]] *)
Definition slice_to {A : Type} (j : Z) (l : list A) : list A :=
  firstn (slice_index j l) l.

Definition is_empty {A : Type} (l : list A) : bool :=
  match l with
  | [] => true
  | _ :: _ => false
  end.

(** [sum(...)] over ints: exact, starting from 0. *)
Definition sum_ints (l : list Z) : Z := fold_left Z.add l 0.

(** ** Strings *)

Definition lower_ascii (c : ascii) : ascii :=
  let n := nat_of_ascii c in
  if (andb (Nat.leb 65 n) (Nat.leb n 90)) then ascii_of_nat (n + 32) else c.

(** [s.lower()], on the ASCII letters. *)
Fixpoint lower (s : string) : string :=
  match s with
  | EmptyString => EmptyString
  | String c t => String (lower_ascii c) (lower t)
  end.

Definition str_in (s : string) (l : list string) : bool :=
  existsb (String.eqb s) l.

(** ** JSON values and the HTTP collaborator *)

#[warnings="-register-all"]
Inductive json : Type :=
| JNull
| JBool (b : bool)
| JInt (z : Z)
| JFloat (f : PyFloat.float)
| JStr (s : string)
| JList (l : list json)
| JDict (d : list (string * json)).

Definition dict : Type := list (string * json).

Fixpoint dict_lookup (k : string) (d : dict) : option json :=
  match d with
  | [] => None
  | (k', v) :: t => if String.eqb k k' then Some v else dict_lookup k t
  end.

(** [k in d] *)
Definition dict_has (k : string) (d : dict) : bool :=
  match dict_lookup k d with
  | Some _ => true
  | None => false
  end.

(** [v[k]] with a string key. *)
Definition subscript_str (v : json) (k : string) : result json :=
  match v with
  | JDict d =>
      match dict_lookup k d with
      | Some x => Ok x
      | None => Raise KeyError
      end
  | _ => Raise TypeError
  end.

(** [v[0]] *)
Definition subscript_zero (v : json) : result json :=
  match v with
  | JList (x :: _) => Ok x
  | JList [] => Raise IndexError
  | JStr (String c _) => Ok (JStr (String c EmptyString))
  | JStr EmptyString => Raise IndexError
  | JDict _ => Raise KeyError
  | _ => Raise TypeError
  end.

(** [v.get(k, default)] *)
Definition get_method (v : json) (k : string) (default : json) : result json :=
  match v with
  | JDict d =>
      match dict_lookup k d with
      | Some x => Ok x
      | None => Ok default
      end
  | _ => Raise AttributeError
  end.

(** [v > z] for an int literal [z]. *)
Definition json_gt_int (v : json) (z : Z) : result bool :=
  match v with
  | JInt a => Ok (z <? a)
  | JBool b => Ok (z <? (if b then 1 else 0))
  | JFloat f => Ok (PyNum.gt (PFloat f) (PInt z))
  | _ => Raise TypeError
  end.

(** What [requests.get] hands back: a status and a body that
    [response.json()] parses or fails on. *)
Record response : Type := {
  status_code : Z;
  response_json : result json
}.

(** The network: what a GET of a URL yields, and the URLs requested so far. *)
Record net : Type := {
  net_reply : string -> result response;
  net_log : list string
}.

(** Computations that may raise and may use the network. *)
Definition io (A : Type) : Type := net -> result A * net.

Definition ret {A : Type} (a : A) : io A := fun w => (Ok a, w).

Definition lift {A : Type} (r : result A) : io A := fun w => (r, w).

Definition iobind {A B : Type} (m : io A) (k : A -> io B) : io B :=
  fun w =>
    match m w with
    | (Ok a, w') => k a w'
    | (Raise e, w') => (Raise e, w')
    end.

Notation "x <~ m ;; k" := (iobind m (fun x => k))
  (at level 61, m at next level, right associativity).

(** [requests.get(url)] *)
Definition requests_get (url : string) : io response :=
  fun w =>
    (net_reply w url,
     {| net_reply := net_reply w; net_log := net_log w ++ [url] |}).

Definition OPENWEATHERMAP_API_KEY : string := "8898c552b51fb82d17534dcb58d5049b".

Definition weather_url (location : string) : string :=
  ("http://api.openweathermap.org/data/2.5/weather?q=" ++ location
   ++ "&appid=" ++ OPENWEATHERMAP_API_KEY ++ "&units=metric")%string.

Definition get_weather_forecast (location : string) : io dict :=
  let url := weather_url location in
  response <~ requests_get url ;;
  data <~ lift (response_json response) ;;
  if negb (status_code response =? 200) then
    msg <~ lift (get_method data "message" (JStr "Failed to fetch weather")) ;;
    ret [("error"%string, msg)]
  else
    main1 <~ lift (subscript_str data "main") ;;
    temperature <~ lift (subscript_str main1 "temp") ;;
    main2 <~ lift (subscript_str data "main") ;;
    humidity <~ lift (subscript_str main2 "humidity") ;;
    w1 <~ lift (subscript_str data "weather") ;;
    w10 <~ lift (subscript_zero w1) ;;
    weather <~ lift (subscript_str w10 "main") ;;
    w2 <~ lift (subscript_str data "weather") ;;
    w20 <~ lift (subscript_zero w2) ;;
    description <~ lift (subscript_str w20 "description") ;;
    ret [("temperature"%string, temperature); ("humidity"%string, humidity);
         ("weather"%string, weather); ("description"%string, description)].

(** ** Product *)

Record Product : Type := {
  id : string;
  name : string;
  shelf_life_days : Z;
  category : option string;
  inventory : Z;
  (** (timestamp, quantity), oldest first *)
  sales_history : list (Z * Z)
}.

(** [Product(id, name, shelf_life_days, category)] *)
Definition Product_init (id name : string) (shelf_life_days : Z)
    (category : option string) : Product :=
  {| id := id; name := name; shelf_life_days := shelf_life_days;
     category := category; inventory := 0; sales_history := [] |}.

(** [self.add_sale(quantity)], with [now] the reading of the clock. *)
Definition add_sale (now : Z) (self : Product) (quantity : Z) : Product :=
  {| id := id self; name := name self;
     shelf_life_days := shelf_life_days self;
     category := category self;
     inventory := inventory self - quantity;
     sales_history := sales_history self ++ [(now, quantity)] |}.

(** Truth value of the optional [location] argument. *)
Definition location_truthy (location : option string) : option string :=
  match location with
  | None => None
  | Some EmptyString => None
  | Some s => Some s
  end.

(** The daily average of the recent sales, scaled by the trend when there
    are two weeks of data (lines 51 to 61). *)
Definition average_sales (recent_sales : list (Z * Z)) : result pynum :=
  let total_sales := sum_ints (map snd recent_sales) in
  avg_sales <- PyNum.truediv (PInt total_sales) (PInt (len recent_sales)) ;;
  if 14 <=? len recent_sales then
    let first_half :=
      sum_ints (map snd (slice_to (len recent_sales / 2) recent_sales)) in
    let second_half :=
      sum_ints (map snd (slice_from (len recent_sales / 2) recent_sales)) in
    trend_factor <-
      (if 0 <? first_half
       then PyNum.truediv (PInt second_half) (PInt first_half)
       else Ok (PInt 1)) ;;
    PyNum.mul avg_sales trend_factor
  else Ok avg_sales.

(** The buffer chosen from the shelf life (lines 64 to 66). *)
Definition buffer_factor (self : Product) (days : Z) : PyFloat.float :=
  if shelf_life_days self <? days then PyFloat.f1_2 else PyFloat.f1_1.

(** [int(avg_sales * days * buffer_factor)] (line 69). *)
Definition scaled_forecast (avg_sales : pynum) (days : Z)
    (buffer : PyFloat.float) : result Z :=
  x <- PyNum.mul avg_sales (PInt days) ;;
  y <- PyNum.mul x (PFloat buffer) ;;
  PyNum.to_int y.

(** The weather adjustment of a forecast (lines 73 to 78). *)
Definition weather_adjust (self : Product) (forecast : Z) (location : string)
    : io Z :=
  weather <~ get_weather_forecast location ;;
  if dict_has "temperature" weather then
    temp <~ lift (subscript_str (JDict weather) "temperature") ;;
    hot <~ lift (json_gt_int temp 30) ;;
    if hot && str_in (lower (name self)) ["ice cream"%string; "juice"%string]
    then
      x <~ lift (PyNum.mul (PInt forecast) (PFloat PyFloat.f1_2)) ;;
      lift (PyNum.to_int x)
    else ret forecast
  else ret forecast.

(** [self.get_forecast(days, location)] *)
Definition get_forecast (self : Product) (days : Z) (location : option string)
    : io Z :=
  if is_empty (sales_history self) then ret 0
  else
    let recent_sales := slice_from (-30) (sales_history self) in
    if is_empty recent_sales then ret 0
    else
      avg_sales <~ lift (average_sales recent_sales) ;;
      forecast <~
        lift (scaled_forecast avg_sales days (buffer_factor self days)) ;;
      forecast <~
        match location_truthy location with
        | Some loc => weather_adjust self forecast loc
        | None => ret forecast
        end ;;
      ret (Z.max 1 forecast).

(** [self.get_recommended_order(days)] *)
Definition get_recommended_order (self : Product) (days : Z) : io Z :=
  forecast <~ get_forecast self days None ;;
  current_stock_days <~
    lift (if 0 <? forecast
          then
            rate <- PyNum.truediv (PInt forecast) (PInt days) ;;
            PyNum.truediv (PInt (inventory self)) rate
          else Ok (PInt 0)) ;;
  if PyNum.ge current_stock_days (PInt days) then ret 0
  else
    let recommended_order := PInt (forecast - inventory self) in
    ratio <~ lift (PyNum.truediv (PInt (shelf_life_days self)) (PInt days)) ;;
    max_order <~ lift (PyNum.mul (PInt forecast) ratio) ;;
    let recommended_order := PyNum.min recommended_order max_order in
    n <~ lift (PyNum.to_int recommended_order) ;;
    ret (Z.max 0 n).

(** ** The builtin [sorted(l, key=..., reverse=...)]

    The keys are computed once, in list order, and compared with [<] only.
    [list.sort] reverses the list before and after sorting when [reverse]
    is set. In between it takes the run at the start of the list, ascending
    or strictly descending ([count_run]), reverses a descending one, and
    puts each remaining element in its place by binary search
    ([binarysort]). This is CPython's [listobject.c] up to 3.12 for a list
    of fewer than 64 elements; a longer list is cut into such runs, which
    are merged, to the same result when the keys are totally ordered. Keys
    that are not, NaN among them, are compared as they come. *)

Section Sorted.
Context {A : Type}.

Fixpoint decorate (key : A -> result pynum) (l : list A)
    : result (list (pynum * A)) :=
  match l with
  | [] => Ok []
  | x :: t =>
      k <- key x ;; d <- decorate key t ;; Ok ((k, x) :: d)
  end.

(** [x < y] on the keys of two decorated elements. *)
Definition key_lt (x y : pynum * A) : bool := PyNum.lt (fst x) (fst y).

(** How many of the elements of [l] continue a run that ends in [prev]:
    each one smaller than the one before in a descending run, not smaller
    in an ascending one. *)
Fixpoint run_more (descending : bool) (prev : pynum * A)
    (l : list (pynum * A)) : nat :=
  match l with
  | [] => O
  | x :: t =>
      if Bool.eqb (key_lt x prev) descending
      then S (run_more descending x t)
      else O
  end.

(** [count_run]: the length of the run at the start of [l], and whether it
    is descending, which the first two elements decide. *)
Definition count_run (l : list (pynum * A)) : nat * bool :=
  match l with
  | [] => (O, false)
  | x :: [] => (1%nat, false)
  | x :: y :: t =>
      let descending := key_lt y x in
      (S (S (run_more descending y t)), descending)
  end.

(** The binary search of [binarysort] for the place of [pivot] in
    [a[l:r]]: [p = l + ((r - l) >> 1)], then [r = p] if [pivot < a[p]] and
    [l = p + 1] otherwise, while [l < r]. *)
Fixpoint bisect (fuel : nat) (pivot : pynum * A) (a : list (pynum * A))
    (l r : nat) : nat :=
  match fuel with
  | O => l
  | S fuel =>
      if (l <? r)%nat then
        let p := (l + (r - l) / 2)%nat in
        match nth_error a p with
        | Some x =>
            if key_lt pivot x then bisect fuel pivot a l p
            else bisect fuel pivot a (S p) r
        | None => l
        end
      else l
  end.

(** One step of [binarysort]: [pivot], the element after the sorted part
    [a], is moved to the place found. *)
Definition insert_pivot (a : list (pynum * A)) (pivot : pynum * A)
    : list (pynum * A) :=
  let l := bisect (List.length a) pivot a 0 (List.length a) in
  firstn l a ++ pivot :: skipn l a.

(** [binarysort]: the elements after the run are inserted one by one. *)
Definition binarysort (run rest : list (pynum * A)) : list (pynum * A) :=
  fold_left insert_pivot rest run.

(** [list.sort] on the decorated list. *)
Definition list_sort (l : list (pynum * A)) (reverse : bool)
    : list (pynum * A) :=
  let l := if reverse then rev l else l in
  let (n, descending) := count_run l in
  let run := firstn n l in
  let run := if descending then rev run else run in
  let l := binarysort run (skipn n l) in
  if reverse then rev l else l.

Definition sorted (l : list A) (key : A -> result pynum) (reverse : bool)
    : result (list A) :=
  d <- decorate key l ;;
  Ok (map snd (list_sort d reverse)).
End Sorted.

(** ** Supplier *)

Record Supplier : Type := {
  supplier_id : string;
  supplier_name : string;
  delivery_timelines : list pynum;
  costs : list pynum;
  quality_ratings : list pynum
}.

(** [Supplier(id, name)] *)
Definition Supplier_init (id name : string) : Supplier :=
  {| supplier_id := id; supplier_name := name;
     delivery_timelines := []; costs := []; quality_ratings := [] |}.

(** [self.record_delivery(delivery_days, cost, quality_rating)] *)
Definition record_delivery (self : Supplier)
    (delivery_days cost quality_rating : pynum) : Supplier :=
  {| supplier_id := supplier_id self; supplier_name := supplier_name self;
     delivery_timelines := delivery_timelines self ++ [delivery_days];
     costs := costs self ++ [cost];
     quality_ratings := quality_ratings self ++ [quality_rating] |}.

(** [sum(l)] adding left to right from the int 0, as CPython does up to
    3.11 (later versions compensate the float additions). *)
Definition sum_left (l : list pynum) : result pynum :=
  fold_left (fun acc x => a <- acc ;; PyNum.add a x) l (Ok (PInt 0)).

Section SupplierRanker.
(** The builtin [sum] over numbers; the ranking is independent of how it
    accumulates floats. *)
Variable builtin_sum : list pynum -> result pynum.

(** The body shared by the three averages: [None] on no data. *)
Definition average (l : list pynum) : result (option pynum) :=
  if is_empty l then Ok None
  else
    s <- builtin_sum l ;;
    r <- PyNum.truediv s (PInt (len l)) ;;
    Ok (Some r).

Definition average_delivery_time (self : Supplier) : result (option pynum) :=
  average (delivery_timelines self).

Definition average_cost (self : Supplier) : result (option pynum) :=
  average (costs self).

Definition average_quality (self : Supplier) : result (option pynum) :=
  average (quality_ratings self).

(** [x or 0]: [None] and a zero number both give the int 0. *)
Definition or_zero (x : option pynum) : pynum :=
  match x with
  | None => PInt 0
  | Some v => if PyNum.truthy v then v else PInt 0
  end.

Definition score (supplier : Supplier) : result pynum :=
  d <- average_delivery_time supplier ;;
  let delivery := or_zero d in
  c <- average_cost supplier ;;
  let cost := or_zero c in
  q <- average_quality supplier ;;
  let quality := or_zero q in
  a <- PyNum.mul quality (PFloat PyFloat.f0_5) ;;
  b <- PyNum.mul delivery (PFloat PyFloat.f0_3) ;;
  ab <- PyNum.sub a b ;;
  c' <- PyNum.mul cost (PFloat PyFloat.f0_2) ;;
  PyNum.sub ab c'.

Definition recommend_best_suppliers (suppliers : list Supplier)
    : result (list Supplier) :=
  sorted suppliers score true.
End SupplierRanker.

(** ** The application: session state and helper functions of [app.py]

    [st.session_state] holds two dicts, [products] and [suppliers]; a dict
    keeps its keys in insertion order. What [st.error], [st.success] and
    [st.warning] display is collected in order. *)

Module App.

(** A dict with string keys: the entries in insertion order. *)
Definition pydict (V : Type) : Type := list (string * V).

Section Dict.
Context {V : Type}.

Fixpoint lookup (k : string) (d : pydict V) : option V :=
  match d with
  | [] => None
  | (k', v) :: t => if String.eqb k k' then Some v else lookup k t
  end.

(** [k in d] *)
Definition contains (k : string) (d : pydict V) : bool :=
  match lookup k d with
  | Some _ => true
  | None => false
  end.

(** [d[k] = v]: the value of an existing key is replaced in place, a new
    key goes last. *)
Fixpoint setitem (k : string) (v : V) (d : pydict V) : pydict V :=
  match d with
  | [] => [(k, v)]
  | (k', v') :: t =>
      if String.eqb k k' then (k', v) :: t else (k', v') :: setitem k v t
  end.

(** [d.keys()] and [d.values()] *)
Definition keys (d : pydict V) : list string := map fst d.
Definition values (d : pydict V) : list V := map snd d.
End Dict.

Inductive message : Type :=
| st_error (text : string)
| st_success (text : string)
| st_warning (text : string).

Record streamlit : Type := {
  products : pydict Product;
  suppliers : pydict Supplier;
  shown : list message
}.

(** The session when the script first runs (lines 15 to 19). *)
Definition start : streamlit :=
  {| products := []; suppliers := []; shown := [] |}.

Definition show (m : message) (st : streamlit) : streamlit :=
  {| products := products st; suppliers := suppliers st;
     shown := shown st ++ [m] |}.

Definition set_products (d : pydict Product) (st : streamlit) : streamlit :=
  {| products := d; suppliers := suppliers st; shown := shown st |}.

Definition set_suppliers (d : pydict Supplier) (st : streamlit) : streamlit :=
  {| products := products st; suppliers := d; shown := shown st |}.

(** An int inside an f-string: its decimal digits. *)
Definition str (z : Z) : string := NilZero.string_of_int (Z.to_int z).

Definition add_product (product_id name : string) (shelf_life : Z)
    (category : string) (st : streamlit) : bool * streamlit :=
  if contains product_id (products st) then
    (false,
     show (st_error ("Product with ID " ++ product_id ++ " already exists!")) st)
  else
    let st :=
      set_products
        (setitem product_id
           (Product_init product_id name shelf_life (Some category))
           (products st)) st in
    (true, show (st_success ("Product " ++ name ++ " added successfully!")) st).

(** [record_sale(product_id, quantity)], with [now] the reading of the
    clock in [add_sale]. *)
Definition record_sale (now : Z) (product_id : string) (quantity : Z)
    (st : streamlit) : bool * streamlit :=
  match lookup product_id (products st) with
  | None =>
      (false, show (st_error ("Product " ++ product_id ++ " not found!")) st)
  | Some product =>
      let product := add_sale now product quantity in
      let st := set_products (setitem product_id product (products st)) st in
      (true,
       show (st_success ("Sale recorded for " ++ str quantity ++ " units of "
                         ++ name product)) st)
  end.

(** [get_forecast(product_id, days, location)]: [None] for an unknown
    product, else the dict of the four figures. An exception of the
    product's methods leaves the session as it was. *)
Definition get_forecast (product_id : string) (days : Z)
    (location : option string) (st : streamlit) (w : net)
    : result (option (pydict Z)) * streamlit * net :=
  match lookup product_id (products st) with
  | None =>
      (Ok None,
       show (st_error ("Product " ++ product_id ++ " not found!")) st, w)
  | Some product =>
      match get_forecast product days location w with
      | (Raise e, w) => (Raise e, st, w)
      | (Ok forecast, w) =>
          match get_recommended_order product days w with
          | (Raise e, w) => (Raise e, st, w)
          | (Ok recommended_order, w) =>
              (Ok (Some [("forecast", forecast);
                         ("recommended_order", recommended_order);
                         ("current_inventory", inventory product);
                         ("shelf_life", shelf_life_days product)]),
               st, w)
          end
      end
  end%string.

Definition get_sales_history (product_id : string) (st : streamlit)
    : list (Z * Z) :=
  match lookup product_id (products st) with
  | None => []
  | Some product => sales_history product
  end.

Definition add_supplier (supplier_id name : string) (st : streamlit)
    : bool * streamlit :=
  if contains supplier_id (suppliers st) then
    (false,
     show (st_error ("Supplier with ID " ++ supplier_id ++ " already exists!"))
       st)
  else
    let st :=
      set_suppliers
        (setitem supplier_id (Supplier_init supplier_id name) (suppliers st))
        st in
    (true, show (st_success ("Supplier " ++ name ++ " added successfully!")) st).

Definition record_supplier_performance (supplier_id : string)
    (delivery_days cost quality_rating : pynum) (st : streamlit)
    : bool * streamlit :=
  match lookup supplier_id (suppliers st) with
  | None =>
      (false, show (st_error ("Supplier " ++ supplier_id ++ " not found!")) st)
  | Some supplier =>
      let supplier :=
        record_delivery supplier delivery_days cost quality_rating in
      let st :=
        set_suppliers (setitem supplier_id supplier (suppliers st)) st in
      (true,
       show (st_success ("Recorded performance for supplier "
                         ++ supplier_name supplier)) st)
  end.

Definition removed_feature : string :=
  "Auto-Replenishment System feature has been removed as per user request.".

Definition generate_purchase_orders (st : streamlit) : streamlit :=
  show (st_warning removed_feature) st.

Definition mark_order_received (index : Z) (st : streamlit) : streamlit :=
  show (st_warning removed_feature) st.

End App.

(** * Definitions for the statements *)

(** ** Products as the constructor and [add_sale] make them *)

Inductive reachable : Product -> Prop :=
| reach_init : forall i n s c, reachable (Product_init i n s c)
| reach_sale : forall p now q, reachable p -> reachable (add_sale now p q).

(** The forecast without a location, as a value: what [get_forecast]
    computes before and after the weather block when that block is skipped. *)
Definition forecast_no_weather (self : Product) (days : Z) : result Z :=
  if is_empty (sales_history self) then Ok 0
  else
    let recent_sales := slice_from (-30) (sales_history self) in
    if is_empty recent_sales then Ok 0
    else
      avg_sales <- average_sales recent_sales ;;
      forecast <- scaled_forecast avg_sales days (buffer_factor self days) ;;
      Ok (Z.max 1 forecast).

(** What [get_forecast] does with the forecast of line 69: the weather
    step when a location is given, then [max(1, forecast)] (lines 71 to
    81). *)
Definition finish_forecast (self : Product) (location : option string)
    (forecast : result Z) : io Z :=
  forecast <~ lift forecast ;;
  forecast <~
    match location_truthy location with
    | Some loc => weather_adjust self forecast loc
    | None => ret forecast
    end ;;
  ret (Z.max 1 forecast).

(** ** The forecast in the words of the specification *)

(** The last [min(k, n)] entries of a sequence of [n]. *)
Definition last_entries {A : Type} (k : nat) (l : list A) : list A :=
  skipn (List.length l - Nat.min k (List.length l)) l.

(** [avgSales]: the sum of the quantities over their count. *)
Definition plain_average (recent : list (Z * Z)) : result pynum :=
  PyNum.truediv (PInt (sum_ints (map snd recent))) (PInt (len recent)).

(** [trendFactor]: second-half sum over first-half sum, the halves split at
    index [floor(n / 2)], or 1 when the first-half sum is not positive. *)
Definition trendFactor (recent : list (Z * Z)) : result pynum :=
  let n := List.length recent in
  let firstHalf := firstn (n / 2)%nat recent in
  let secondHalf := skipn (n / 2)%nat recent in
  if 0 <? sum_ints (map snd firstHalf)
  then PyNum.truediv (PInt (sum_ints (map snd secondHalf)))
                     (PInt (sum_ints (map snd firstHalf)))
  else Ok (PInt 1).

(** A product with the given quantities sold, one per tick, shelf life 7. *)
Definition product_with_sales (quantities : list Z) : Product :=
  fold_left (fun p q => add_sale (len (sales_history p)) p q) quantities
    (Product_init "P1" "Pear" 7 None).

(** The same sales for a product named "Juice". *)
Definition juice_with_sales (quantities : list Z) : Product :=
  fold_left (fun p q => add_sale (len (sales_history p)) p q) quantities
    (Product_init "J1" "Juice" 7 None).

(** ** Sample data *)

(** The product of the module's example: three sales, shelf life 7. *)
Definition apple : Product :=
  add_sale 3 (add_sale 2 (add_sale 1 (Product_init "A1" "Apple" 7 None) 10) 15) 12.

(** A network on which every request fails to connect. *)
Definition net_down : net :=
  {| net_reply := fun _ => Raise ConnectionError; net_log := [] |}.

(** A network whose service answers 401 with a JSON error body. *)
Definition net_unauthorized : net :=
  {| net_reply := fun _ =>
       Ok {| status_code := 401;
             response_json :=
               Ok (JDict [("cod"%string, JInt 401);
                          ("message"%string, JStr "Invalid API key")]) |};
     net_log := [] |}.

(** A network whose service answers 200 with a body that has no [main]. *)
Definition net_no_reading : net :=
  {| net_reply := fun _ =>
       Ok {| status_code := 200;
             response_json := Ok (JDict [("cod"%string, JInt 200)]) |};
     net_log := [] |}.

(** A network whose service answers 200 with a temperature that is a
    string. *)
Definition net_text_reading : net :=
  {| net_reply := fun _ =>
       Ok {| status_code := 200;
             response_json :=
               Ok (JDict
                     [("main"%string,
                       JDict [("temp"%string, JStr "hot");
                              ("humidity"%string, JInt 40)]);
                      ("weather"%string,
                       JList [JDict [("main"%string, JStr "Clear");
                                     ("description"%string,
                                      JStr "clear sky")]])]) |};
     net_log := [] |}.

(** ** Order of floats as a lexicographic key

    A float that is not a NaN is ranked by class (negative infinity,
    negative, zero, positive, positive infinity), then exponent, then
    mantissa, the last two negated for a negative float. *)
Definition float_key (f : PyFloat.float) : Z * Z * Z :=
  match f with
  | S754_nan => (0, 0, 0)
  | S754_zero _ => (0, 0, 0)
  | S754_infinity s => (if s then -2 else 2, 0, 0)
  | S754_finite s m e => if s then (-1, - e, Zneg m) else (1, e, Zpos m)
  end.

Definition lex3 (a b : Z * Z * Z) : comparison :=
  match a, b with
  | (a1, a2, a3), (b1, b2, b3) =>
      match a1 ?= b1 with
      | Eq => match a2 ?= b2 with
              | Eq => a3 ?= b3
              | c => c
              end
      | c => c
      end
  end.

(** [a == b] on numbers. *)
Definition num_eqb (a b : pynum) : bool :=
  match PyNum.compare a b with
  | Some Eq => true
  | _ => false
  end.

Definition is_float (a : pynum) : bool :=
  match a with
  | PFloat _ => true
  | PInt _ => false
  end.

(** A key that sorts in a total order: a float other than NaN. *)
Definition ordered_key (a : pynum) : bool :=
  match a with
  | PFloat f => negb (PyFloat.is_nan f)
  | PInt _ => false
  end.

(** Ascending order of decorated elements: the second key is not smaller. *)
Definition key_le {A : Type} (x y : pynum * A) : Prop :=
  PyNum.lt (fst y) (fst x) = false.

(** ** Supplier scores: the words of the specification *)

(** No data counts as 0 in the score. *)
Definition no_data_as_zero (x : option pynum) : pynum :=
  match x with
  | None => PInt 0
  | Some v => v
  end.

(** [0.5 * avgQuality - 0.3 * avgDeliveryTime - 0.2 * avgCost] *)
Definition weighted_score (avgQuality avgDeliveryTime avgCost : pynum)
    : result pynum :=
  a <- PyNum.mul (PFloat PyFloat.f0_5) avgQuality ;;
  b <- PyNum.mul (PFloat PyFloat.f0_3) avgDeliveryTime ;;
  ab <- PyNum.sub a b ;;
  c <- PyNum.mul (PFloat PyFloat.f0_2) avgCost ;;
  PyNum.sub ab c.

(** Two numbers that differ at most in the sign or the type of a zero. *)
Definition same_number (a b : pynum) : Prop :=
  a = b \/ (PyNum.truthy a = false /\ PyNum.truthy b = false).

(** Floats equal up to the sign of a zero. *)
Definition feq0 (x y : PyFloat.float) : Prop :=
  x = y \/ (PyFloat.is_zero x = true /\ PyFloat.is_zero y = true).

(** The sum of a sequence of integers. *)
Fixpoint total (zs : list Z) : Z :=
  match zs with
  | [] => 0
  | z :: t => z + total t
  end.

(** The elements of a sequence of numbers added to [acc] one after the
    other, in Python arithmetic. *)
Fixpoint add_up (acc : pynum) (l : list pynum) : result pynum :=
  match l with
  | [] => Ok acc
  | x :: t => s <- PyNum.add acc x ;; add_up s t
  end.

(** The arithmetic mean of a sequence of numbers: the sum of its elements
    over their count. *)
Definition arithmetic_mean (l : list pynum) : result pynum :=
  s <- add_up (PInt 0) l ;; PyNum.truediv s (PInt (Z.of_nat (List.length l))).

(** The order of two neighbours of a run, neither key a NaN: the second is
    smaller in a descending run and not smaller in an ascending one. *)
Definition run_order {A : Type} (descending : bool) (x y : pynum * A)
    : Prop :=
  ordered_key (fst x) = true /\ ordered_key (fst y) = true /\
  key_lt y x = descending.

Section Ranking.
Variable builtin_sum : list pynum -> result pynum.

(** [score(a) < score(b)]; false when a score is missing. *)
Definition score_lt (a b : Supplier) : bool :=
  match score builtin_sum a, score builtin_sum b with
  | Ok x, Ok y => PyNum.lt x y
  | _, _ => false
  end.

(** [score(s) == k] *)
Definition score_is (k : pynum) (s : Supplier) : bool :=
  match score builtin_sum s with
  | Ok v => num_eqb v k
  | Raise _ => false
  end.

(** No supplier is followed by one with a larger score. *)
Definition descending_by_score (l : list Supplier) : Prop :=
  StronglySorted (fun a b => score_lt a b = false) l.
End Ranking.

(** Supplier A of the design notes and three more. *)
Definition supplier_A : Supplier :=
  record_delivery
    (record_delivery (Supplier_init "S1" "A") (PInt 2) (PInt 100) (PInt 5))
    (PInt 3) (PInt 120) (PInt 4).

Definition supplier_B : Supplier :=
  record_delivery (Supplier_init "S2" "B") (PInt 2) (PInt 100) (PInt 5).

Definition supplier_C : Supplier := Supplier_init "S3" "C".
Definition supplier_D : Supplier := Supplier_init "S4" "D".

(** A supplier with one delivery on record: no delay, the given quality
    and cost. *)
Definition rated (id : string) (quality cost : pynum) : Supplier :=
  record_delivery (Supplier_init id id) (PInt 0) cost quality.

(** Seven suppliers: quality 2 scores 1.0 and quality 4 scores 2.0; the
    cost of the third is a NaN and so is its score. *)
Definition nan_ranking : list Supplier :=
  [rated "S0" (PInt 2) (PInt 0);
   rated "S1" (PInt 2) (PInt 0);
   rated "S2" (PInt 2) (PFloat S754_nan);
   rated "S3" (PInt 2) (PInt 0);
   rated "S4" (PInt 2) (PInt 0);
   rated "S5" (PInt 4) (PInt 0);
   rated "S6" (PInt 2) (PInt 0)].

(** ** Magnitude of floats *)

(** A zero, or a finite float below [2 ^ K] whose exponent is at most
    [K - 53], as every rounded result has it. *)
Definition fbound (K : Z) (f : PyFloat.float) : Prop :=
  match f with
  | S754_zero _ => True
  | S754_finite _ m e => Zdigits2 (Zpos m) + e <= K /\ e <= K - 53
  | _ => False
  end.

(** A finite float, not zero, of at least [2 ^ (L - 1)]. *)
Definition flow (L : Z) (f : PyFloat.float) : Prop :=
  match f with
  | S754_finite _ m e => L <= Zdigits2 (Zpos m) + e
  | _ => False
  end.

(** Neither an infinity nor a NaN. *)
Definition is_finite (f : PyFloat.float) : bool :=
  match f with
  | S754_zero _ | S754_finite _ _ _ => true
  | _ => false
  end.

(** The sign bit; a NaN has none. *)
Definition fsign (f : PyFloat.float) : option bool :=
  match f with
  | S754_zero s | S754_infinity s | S754_finite s _ _ => Some s
  | S754_nan => None
  end.

(** ** Inputs far inside the range of a double *)

Definition small (z : Z) : Prop := Z.abs z < 2 ^ 256.

Definition small_sales (self : Product) : Prop :=
  Forall (fun sale => small (snd sale)) (sales_history self).

(** [a <= b] on numbers. *)
Definition num_leb (a b : pynum) : bool :=
  match PyNum.compare a b with
  | Some (Lt | Eq) => true
  | _ => false
  end.

(** [max_order] of [get_recommended_order] (line 97). *)
Definition max_order_of (self : Product) (forecast days : Z) : result pynum :=
  ratio <- PyNum.truediv (PInt (shelf_life_days self)) (PInt days) ;;
  PyNum.mul (PInt forecast) ratio.

(** One sale of 8208096721331 units, shelf life 26 days. *)
Definition bulk_product : Product :=
  add_sale 1 (Product_init "B1" "Bulk" 26 None) 8208096721331.

(** ** Rounding to nearest even, on integers

    The value of a float that is not negative is counted in units of
    [2 ^ -2148], small enough for the exact product of two doubles. *)

Definition scale : Z := 2148.

(** The value of a zero or of a finite float, sign dropped, in units. *)
Definition sval (f : PyFloat.float) : Z :=
  match f with
  | S754_finite _ m e => Zpos m * 2 ^ (e + scale)
  | _ => 0
  end.

(** [n / d] rounded to the nearest integer, ties to the even one. *)
Definition rne_div (n d : Z) : Z :=
  let q := n / d in
  let r := n mod d in
  if 2 * r <? d then q
  else if 2 * r =? d then (if Z.even q then q else q + 1)
  else q + 1.

(** The spacing of the doubles around a value of [V] units, in units. *)
Definition spacing (V : Z) : Z :=
  2 ^ (fexp PyFloat.prec PyFloat.emax (Zdigits2 V - scale) + scale).

(** A value of [V] units rounded to the nearest double, in units. *)
Definition round_units (V : Z) : Z := spacing V * rne_div V (spacing V).

(** The exact product of two values, in units. *)
Definition mul_units (a b : Z) : Z := a * b / 2 ^ scale.

(** A finite float as the operations return it: positive sign, exponent
    not below that of the subnormals. *)
Definition fgood (f : PyFloat.float) : Prop :=
  match f with
  | S754_finite s _ e => s = false /\ -1074 <= e
  | _ => True
  end.

(** ** Suppliers and sessions as the code makes them *)

(** A supplier as made by the constructor and [record_delivery]. *)
Inductive supplier_reachable : Supplier -> Prop :=
| sreach_init : forall i n, supplier_reachable (Supplier_init i n)
| sreach_delivery : forall s d c q,
    supplier_reachable s -> supplier_reachable (record_delivery s d c q).

(** The sessions that calls of the four helper functions produce from the
    first run of the script, with quantities sold of 1 at least, as the
    sale form requires ([min_value=1]). *)
Inductive session_reachable : App.streamlit -> Prop :=
| session_start : session_reachable App.start
| session_add_product : forall st product_id name shelf_life category,
    session_reachable st ->
    session_reachable
      (snd (App.add_product product_id name shelf_life category st))
| session_record_sale : forall st now product_id quantity,
    session_reachable st -> 1 <= quantity ->
    session_reachable (snd (App.record_sale now product_id quantity st))
| session_add_supplier : forall st supplier_id name,
    session_reachable st ->
    session_reachable (snd (App.add_supplier supplier_id name st))
| session_record_performance : forall st supplier_id d c q,
    session_reachable st ->
    session_reachable
      (snd (App.record_supplier_performance supplier_id d c q st)).

(** The three record lists of a supplier have one length. *)
Definition aligned (s : Supplier) : Prop :=
  List.length (delivery_timelines s) = List.length (costs s) /\
  List.length (costs s) = List.length (quality_ratings s).

(** A product with the sales history replaced. *)
Definition with_sales_history (self : Product) (h : list (Z * Z)) : Product :=
  {| id := id self; name := name self;
     shelf_life_days := shelf_life_days self; category := category self;
     inventory := inventory self; sales_history := h |}.

(** The names the hot-weather adjustment applies to. *)
Definition weather_sensitive (self : Product) : bool :=
  str_in (lower (name self)) ["ice cream"%string; "juice"%string].

(** ** Use of the network *)

(** The network after one more request, of [url]. *)
Definition logged (url : string) (w : net) : net :=
  {| net_reply := net_reply w; net_log := net_log w ++ [url] |}.

(** A computation that makes no request and does not look at the
    network. *)
Definition offline {A : Type} (m : io A) : Prop :=
  exists r, forall w, m w = (r, w).

(** The network after [get_forecast]: one request when a location is given,
    the product has sales and the forecast is computed up to the weather
    step. *)
Definition net_after_forecast (self : Product) (days : Z)
    (location : option string) (w : net) : net :=
  match location_truthy location, sales_history self,
        forecast_no_weather self days with
  | Some loc, _ :: _, Ok _ => logged (weather_url loc) w
  | _, _, _ => w
  end.

(** A network whose service reports 35 degrees. *)
Definition net_hot : net :=
  {| net_reply := fun _ =>
       Ok {| status_code := 200;
             response_json :=
               Ok (JDict
                     [("main"%string,
                       JDict [("temp"%string, JInt 35);
                              ("humidity"%string, JInt 40)]);
                      ("weather"%string,
                       JList [JDict [("main"%string, JStr "Clear");
                                     ("description"%string,
                                      JStr "clear sky")]])]) |};
     net_log := [] |}.

(** Ice cream with the sales of the module's example. *)
Definition ice_cream : Product :=
  add_sale 3
    (add_sale 2 (add_sale 1 (Product_init "I1" "Ice Cream" 7 None) 10) 15) 12.

(** ** Invariants of a session *)

(** What holds of the products of a session: distinct IDs, each product
    under its own ID, the stock the negated sum of the quantities sold,
    each of them 1 at least. *)
Definition products_ok (d : App.pydict Product) : Prop :=
  NoDup (App.keys d) /\
  forall k p, App.lookup k d = Some p ->
    id p = k /\
    inventory p = - sum_ints (map snd (sales_history p)) /\
    Forall (fun sale => 1 <= snd sale) (sales_history p).

(** What holds of the suppliers of a session. *)
Definition suppliers_ok (d : App.pydict Supplier) : Prop :=
  NoDup (App.keys d) /\
  forall k s, App.lookup k d = Some s ->
    supplier_id s = k /\ supplier_reachable s.

(** A session after one product, one sale, one supplier and one delivery. *)
Definition sample_session : App.streamlit :=
  snd (App.record_supplier_performance "S1" (PInt 3)
         (PFloat (PyFloat.exact 100)) (PInt 4)
         (snd (App.add_supplier "S1" "Supplier A"
                 (snd (App.record_sale 5 "P1" 3
                         (snd (App.add_product "P1" "Ice Cream" 7 "dairy"
                                 App.start))))))).

(** * Binary64 arithmetic: what rounding does to a mantissa *)

(** ** Powers of two and the number of digits *)

Lemma pow2_pos (k : Z) : 0 <= k -> 0 < 2 ^ k.
Proof. intros; apply Z.pow_pos_nonneg; lia. Qed.

Lemma pow2_succ (k : Z) : 0 <= k -> 2 ^ (k + 1) = 2 * 2 ^ k.
Proof. intros. rewrite Z.pow_add_r by lia. lia. Qed.

Lemma pow2_le (a b : Z) : 0 <= a <= b -> 2 ^ a <= 2 ^ b.
Proof. intros. apply Z.pow_le_mono_r; lia. Qed.

Lemma pow2_lt_inv (a b : Z) : 0 <= b -> 2 ^ a < 2 ^ b -> a < b.
Proof.
  intros Hb H. destruct (Z_lt_le_dec a b) as [|Hle]; [assumption|].
  pose proof (pow2_le b a). lia.
Qed.

Lemma digits2_pos_bounds (p : positive) :
  2 ^ (Zpos (digits2_pos p) - 1) <= Zpos p < 2 ^ Zpos (digits2_pos p).
Proof.
  induction p as [p IH|p IH|]; cbn [digits2_pos].
  - rewrite Pos2Z.inj_succ. unfold Z.succ.
    replace (Z.pos (digits2_pos p) + 1 - 1) with (Z.pos (digits2_pos p) - 1 + 1)
      by lia.
    rewrite !pow2_succ by lia. lia.
  - rewrite Pos2Z.inj_succ. unfold Z.succ.
    replace (Z.pos (digits2_pos p) + 1 - 1) with (Z.pos (digits2_pos p) - 1 + 1)
      by lia.
    rewrite !pow2_succ by lia. lia.
  - simpl. lia.
Qed.

Lemma Zdigits2_bounds (m : Z) :
  0 < m -> 2 ^ (Zdigits2 m - 1) <= m < 2 ^ Zdigits2 m.
Proof.
  destruct m as [|p|p]; try lia. intros _. apply digits2_pos_bounds.
Qed.

Lemma Zdigits2_pos (m : Z) : 0 < m -> 0 < Zdigits2 m.
Proof. destruct m; simpl; lia. Qed.

Lemma Zdigits2_nonneg (m : Z) : 0 <= Zdigits2 m.
Proof. destruct m; simpl; lia. Qed.

(** The number of digits is the position of the enclosing powers of two. *)
Lemma Zdigits2_unique (m k : Z) :
  0 < m -> 2 ^ (k - 1) <= m < 2 ^ k -> Zdigits2 m = k.
Proof.
  intros Hm [Hlo Hhi].
  pose proof (Zdigits2_bounds m Hm) as [Dlo Dhi].
  pose proof (Zdigits2_pos m Hm) as Dpos.
  assert (Hk : 0 < k).
  { destruct (Z_lt_le_dec 0 k) as [|Hk]; [assumption|].
    destruct (Z.eq_dec k 0) as [->|]; [simpl in Hhi; lia|].
    rewrite Z.pow_neg_r in Hhi by lia. lia. }
  assert (Zdigits2 m - 1 < k) by (apply pow2_lt_inv; lia).
  assert (k - 1 < Zdigits2 m) by (apply pow2_lt_inv; lia).
  lia.
Qed.

Lemma Zdigits2_le (m k : Z) : 0 <= m -> 0 <= k -> m < 2 ^ k -> Zdigits2 m <= k.
Proof.
  intros Hm0 Hk H. destruct (Z.eq_dec m 0) as [->|Hm]; [simpl; lia|].
  pose proof (Zdigits2_bounds m ltac:(lia)) as [Dlo _].
  assert (Zdigits2 m - 1 < k) by (apply pow2_lt_inv; lia). lia.
Qed.

Lemma Zdigits2_ge (m k : Z) : 0 <= k -> 2 ^ k <= m -> k < Zdigits2 m.
Proof.
  intros Hk H. pose proof (pow2_pos k Hk).
  pose proof (Zdigits2_bounds m ltac:(lia)) as [_ Dhi].
  pose proof (Zdigits2_nonneg m).
  apply pow2_lt_inv; lia.
Qed.

Lemma Zdigits2_mono (a b : Z) : 0 <= a <= b -> Zdigits2 a <= Zdigits2 b.
Proof.
  intros [Ha Hab]. destruct (Z.eq_dec a 0) as [->|Hne].
  - apply Zdigits2_nonneg.
  - pose proof (Zdigits2_bounds a ltac:(lia)) as [Alo _].
    pose proof (Zdigits2_pos a ltac:(lia)).
    assert (Zdigits2 a - 1 < Zdigits2 b) by (apply Zdigits2_ge; lia). lia.
Qed.

Lemma Zdigits2_mul_pow2 (m k : Z) :
  0 < m -> 0 <= k -> Zdigits2 (m * 2 ^ k) = Zdigits2 m + k.
Proof.
  intros Hm Hk. pose proof (pow2_pos k Hk).
  pose proof (Zdigits2_bounds m Hm) as [Dlo Dhi].
  pose proof (Zdigits2_pos m Hm).
  apply Zdigits2_unique; [nia|].
  replace (Zdigits2 m + k - 1) with (Zdigits2 m - 1 + k) by lia.
  rewrite !Z.pow_add_r by lia. nia.
Qed.

Lemma Zdigits2_div_pow2 (m k : Z) :
  0 <= m -> 0 <= k -> Zdigits2 (m / 2 ^ k) = Z.max 0 (Zdigits2 m - k).
Proof.
  intros Hm Hk. pose proof (pow2_pos k Hk) as Hp.
  destruct (Z.eq_dec m 0) as [->|Hne].
  { rewrite Z.div_0_l by lia. simpl. lia. }
  pose proof (Zdigits2_bounds m ltac:(lia)) as [Dlo Dhi].
  pose proof (Zdigits2_pos m ltac:(lia)).
  destruct (Z_lt_le_dec k (Zdigits2 m)) as [Hlt|Hge].
  - rewrite Z.max_r by lia.
    assert (E1 : 2 ^ (Zdigits2 m - 1) = 2 ^ (Zdigits2 m - k - 1) * 2 ^ k).
    { rewrite <- Z.pow_add_r by lia. f_equal. lia. }
    assert (E2 : 2 ^ Zdigits2 m = 2 ^ (Zdigits2 m - k) * 2 ^ k).
    { rewrite <- Z.pow_add_r by lia. f_equal. lia. }
    assert (Hq : 2 ^ (Zdigits2 m - k - 1) <= m / 2 ^ k).
    { apply Z.div_le_lower_bound; lia. }
    assert (Hq' : m / 2 ^ k < 2 ^ (Zdigits2 m - k)).
    { apply Z.div_lt_upper_bound; lia. }
    pose proof (pow2_pos (Zdigits2 m - k - 1) ltac:(lia)).
    apply Zdigits2_unique; [lia|].
    replace (Zdigits2 m - k - 1) with (Zdigits2 m - k - 1) in * by lia. lia.
  - rewrite Z.max_l by lia.
    assert (m < 2 ^ k).
    { pose proof (pow2_le (Zdigits2 m) k). lia. }
    rewrite Z.div_small by lia. reflexivity.
Qed.

Lemma Zdigits2_mul (a b : Z) :
  0 < a -> 0 < b ->
  Zdigits2 a + Zdigits2 b - 1 <= Zdigits2 (a * b) <= Zdigits2 a + Zdigits2 b.
Proof.
  intros Ha Hb.
  pose proof (Zdigits2_bounds a Ha) as [Alo Ahi].
  pose proof (Zdigits2_bounds b Hb) as [Blo Bhi].
  pose proof (Zdigits2_pos a Ha). pose proof (Zdigits2_pos b Hb).
  pose proof (pow2_pos (Zdigits2 a - 1) ltac:(lia)).
  pose proof (pow2_pos (Zdigits2 b - 1) ltac:(lia)).
  split.
  - assert (Zdigits2 a - 1 + (Zdigits2 b - 1) < Zdigits2 (a * b)); [|lia].
    apply Zdigits2_ge; [lia|]. rewrite Z.pow_add_r by lia. nia.
  - apply Zdigits2_le; [nia|lia|]. rewrite Z.pow_add_r by lia. nia.
Qed.

Lemma Zdigits2_succ (m : Z) : 0 <= m -> Zdigits2 (m + 1) <= Zdigits2 m + 1.
Proof.
  intros Hm. destruct (Z.eq_dec m 0) as [->|Hne]; [simpl; lia|].
  pose proof (Zdigits2_bounds m ltac:(lia)) as [_ Dhi].
  pose proof (Zdigits2_pos m ltac:(lia)).
  apply Zdigits2_le; [lia|lia|]. rewrite pow2_succ by lia. lia.
Qed.

(** ** Shifting a mantissa right *)

Lemma iter_pos_nat {A : Type} (f : A -> A) (p : positive) (x : A) :
  iter_pos f p x = Nat.iter (Pos.to_nat p) f x.
Proof.
  revert x. induction p as [p IH|p IH|]; intros x; cbn [iter_pos].
  - rewrite !IH, Pos2Nat.inj_xI.
    replace (S (2 * Pos.to_nat p)) with (Pos.to_nat p + (Pos.to_nat p + 1))%nat
      by lia.
    rewrite !Nat.iter_add. reflexivity.
  - rewrite !IH, Pos2Nat.inj_xO.
    replace (2 * Pos.to_nat p)%nat with (Pos.to_nat p + Pos.to_nat p)%nat by lia.
    rewrite Nat.iter_add. reflexivity.
  - reflexivity.
Qed.

Lemma shr_1_m (r : shr_record) :
  0 <= shr_m r -> shr_m (shr_1 r) = shr_m r / 2.
Proof.
  destruct r as [m r s]. cbn [shr_m]. intros Hm.
  destruct m as [|[p|p|]|p]; cbn [shr_1 shr_m]; try lia; try reflexivity.
  - change (Z.pos p~1) with (2 * Z.pos p + 1).
    apply Z.div_unique with 1; lia.
  - change (Z.pos p~0) with (2 * Z.pos p).
    apply Z.div_unique with 0; lia.
Qed.

Lemma iter_shr_1_m (n : nat) (r : shr_record) :
  0 <= shr_m r ->
  shr_m (Nat.iter n shr_1 r) = shr_m r / 2 ^ Z.of_nat n.
Proof.
  intros Hm. induction n as [|n IH].
  - simpl. now rewrite Z.div_1_r.
  - rewrite Nat.iter_succ, shr_1_m.
    + rewrite IH, Nat2Z.inj_succ. unfold Z.succ.
      rewrite pow2_succ by lia.
      rewrite Z.div_div by (try apply pow2_pos; lia).
      f_equal. lia.
    + rewrite IH. apply Z.div_pos; [lia|apply pow2_pos; lia].
Qed.

(** [shr] divides the mantissa by [2 ^ n] and adds [n] to the exponent,
    or does nothing when [n] is not positive. *)
Lemma shr_m_spec (r : shr_record) (e n : Z) :
  0 <= shr_m r ->
  shr_m (fst (shr r e n)) = shr_m r / 2 ^ Z.max 0 n /\
  snd (shr r e n) = e + Z.max 0 n.
Proof.
  intros Hm. destruct n as [|p|p]; cbn [shr fst snd].
  - simpl. rewrite Z.div_1_r. lia.
  - rewrite iter_pos_nat, iter_shr_1_m by assumption.
    rewrite positive_nat_Z. rewrite Z.max_r by lia. lia.
  - rewrite Z.max_l by lia. simpl. rewrite Z.div_1_r. lia.
Qed.

Lemma shr_record_of_loc_m (m : Z) (l : location) :
  shr_m (shr_record_of_loc m l) = m.
Proof. destruct l as [|[| |]]; reflexivity. Qed.

Lemma round_nearest_even_range (m : Z) (l : location) :
  m <= round_nearest_even m l <= m + 1.
Proof.
  destruct l as [|[| |]]; cbn [round_nearest_even]; try lia.
  destruct (Z.even m); lia.
Qed.

(** ** The shape of a rounded result *)

(** What [binary_round_aux] returns, from the mantissa after each of its
    three steps: shift to the target exponent, round, renormalise. *)
Lemma binary_round_aux_cases (s : bool) (m e : Z) (l : location) :
  0 <= m ->
  exists m1 m2 m3 e1 e3 : Z,
    e1 = Z.max e (fexp PyFloat.prec PyFloat.emax (Zdigits2 m + e)) /\
    m1 = m / 2 ^ (e1 - e) /\
    m1 <= m2 <= m1 + 1 /\
    e3 = Z.max e1 (fexp PyFloat.prec PyFloat.emax (Zdigits2 m2 + e1)) /\
    m3 = m2 / 2 ^ (e3 - e1) /\
    binary_round_aux PyFloat.prec PyFloat.emax s m e l
    = (if m3 =? 0 then S754_zero s
       else if e3 <=? 971 then S754_finite s (Z.to_pos m3) e3
            else S754_infinity s).
Proof.
  intros Hm. unfold binary_round_aux, shr_fexp.
  pose proof (shr_m_spec (shr_record_of_loc m l) e
                (fexp PyFloat.prec PyFloat.emax (Zdigits2 m + e) - e)) as S1.
  rewrite shr_record_of_loc_m in S1. specialize (S1 Hm).
  destruct (shr (shr_record_of_loc m l) e
              (fexp PyFloat.prec PyFloat.emax (Zdigits2 m + e) - e))
    as [r1 e1].
  cbn [fst snd] in S1. destruct S1 as [M1 E1].
  set (m2 := round_nearest_even (shr_m r1) (loc_of_shr_record r1)).
  pose proof (round_nearest_even_range (shr_m r1) (loc_of_shr_record r1)) as R.
  fold m2 in R.
  assert (Hm1 : 0 <= shr_m r1).
  { rewrite M1. apply Z.div_pos; [lia|apply pow2_pos; lia]. }
  pose proof (shr_m_spec (shr_record_of_loc m2 loc_Exact) e1
                (fexp PyFloat.prec PyFloat.emax (Zdigits2 m2 + e1) - e1)) as S2.
  rewrite shr_record_of_loc_m in S2. specialize (S2 ltac:(lia)).
  destruct (shr (shr_record_of_loc m2 loc_Exact) e1
              (fexp PyFloat.prec PyFloat.emax (Zdigits2 m2 + e1) - e1))
    as [r3 e3].
  cbn [fst snd] in S2. destruct S2 as [M3 E3].
  exists (shr_m r1), m2, (shr_m r3), e1, e3.
  assert (A1 : e1 = Z.max e (fexp PyFloat.prec PyFloat.emax (Zdigits2 m + e)))
    by lia.
  assert (A3 : e3 = Z.max e1 (fexp PyFloat.prec PyFloat.emax (Zdigits2 m2 + e1)))
    by lia.
  repeat split; try assumption; try lia.
  - rewrite M1. do 2 f_equal. lia.
  - rewrite M3. do 2 f_equal. lia.
  - assert (Hm3 : 0 <= shr_m r3).
    { rewrite M3. apply Z.div_pos; [lia|apply pow2_pos; lia]. }
    change (PyFloat.emax - PyFloat.prec) with 971.
    destruct (shr_m r3) as [|p|p]; try lia; reflexivity.
Qed.

Lemma binary_round_aux_sign (s : bool) (m e : Z) (l : location) :
  0 <= m -> fsign (binary_round_aux PyFloat.prec PyFloat.emax s m e l) = Some s.
Proof.
  intros Hm.
  destruct (binary_round_aux_cases s m e l Hm)
    as (m1 & m2 & m3 & e1 & e3 & _ & _ & _ & _ & _ & ->).
  destruct (m3 =? 0); [reflexivity|]. destruct (e3 <=? 971); reflexivity.
Qed.

Ltac unfold_fexp :=
  unfold fexp, emin, PyFloat.prec, PyFloat.emax in *;
  change (3 - 1024 - 53) with (-1074) in *.

(** Rounding raises the magnitude by at most one binade. *)
Lemma binary_round_aux_fbound (s : bool) (m e : Z) (l : location) (K K' : Z) :
  0 <= m -> Zdigits2 m + e <= K -> e <= K - 53 ->
  K + 1 <= K' -> -1021 <= K' <= 1024 ->
  fbound K' (binary_round_aux PyFloat.prec PyFloat.emax s m e l).
Proof.
  intros Hm HK He HK' Hr.
  destruct (binary_round_aux_cases s m e l Hm)
    as (m1 & m2 & m3 & e1 & e3 & E1 & M1 & R & E3 & M3 & ->).
  unfold_fexp.
  assert (H1 : 0 <= m1) by (subst m1; apply Z.div_pos; [lia|apply pow2_pos; lia]).
  assert (D1 : Zdigits2 m1 = Z.max 0 (Zdigits2 m - (e1 - e))).
  { subst m1. apply Zdigits2_div_pow2; lia. }
  assert (D2 : Zdigits2 m2 <= Zdigits2 m1 + 1).
  { etransitivity; [apply (Zdigits2_mono m2 (m1 + 1)); lia|].
    apply Zdigits2_succ; lia. }
  assert (D3 : Zdigits2 m3 = Z.max 0 (Zdigits2 m2 - (e3 - e1))).
  { subst m3. apply Zdigits2_div_pow2; lia. }
  assert (H3 : 0 <= m3) by (subst m3; apply Z.div_pos; [lia|apply pow2_pos; lia]).
  pose proof (Zdigits2_nonneg m).
  destruct (Z.eqb_spec m3 0) as [|Hne]; [exact I|].
  assert (P3 : 0 < Zdigits2 m3) by (apply Zdigits2_pos; lia).
  destruct (Z.leb_spec e3 971) as [|Hbig]; [|lia].
  cbn [fbound]. rewrite Z2Pos.id by lia. lia.
Qed.

(** A mantissa that is not zero and not below the subnormal range rounds
    to a finite float of about its magnitude. *)
Lemma binary_round_aux_finite (s : bool) (m e : Z) (l : location) (L K K' : Z) :
  1 <= m -> L <= Zdigits2 m + e <= K -> e <= K - 53 -> -1073 <= L ->
  K + 1 <= K' -> -1021 <= K' <= 1024 ->
  exists m3 e3,
    binary_round_aux PyFloat.prec PyFloat.emax s m e l = S754_finite s m3 e3 /\
    L <= Zdigits2 (Zpos m3) + e3 <= K' /\ e3 <= K' - 53 /\ -1074 <= e3.
Proof.
  intros Hm HK He HL HK' Hr.
  destruct (binary_round_aux_cases s m e l ltac:(lia))
    as (m1 & m2 & m3 & e1 & e3 & E1 & M1 & R & E3 & M3 & ->).
  unfold_fexp.
  assert (H1 : 0 <= m1) by (subst m1; apply Z.div_pos; [lia|apply pow2_pos; lia]).
  assert (D1 : Zdigits2 m1 = Z.max 0 (Zdigits2 m - (e1 - e))).
  { subst m1. apply Zdigits2_div_pow2; lia. }
  assert (D2 : Zdigits2 m2 <= Zdigits2 m1 + 1).
  { etransitivity; [apply (Zdigits2_mono m2 (m1 + 1)); lia|].
    apply Zdigits2_succ; lia. }
  assert (D2' : Zdigits2 m1 <= Zdigits2 m2) by (apply Zdigits2_mono; lia).
  assert (D3 : Zdigits2 m3 = Z.max 0 (Zdigits2 m2 - (e3 - e1))).
  { subst m3. apply Zdigits2_div_pow2; lia. }
  assert (H3 : 0 <= m3) by (subst m3; apply Z.div_pos; [lia|apply pow2_pos; lia]).
  pose proof (Zdigits2_pos m ltac:(lia)).
  assert (P3 : 0 < Zdigits2 m3) by lia.
  assert (N3 : m3 <> 0) by (intros ->; simpl in P3; lia).
  destruct (Z.eqb_spec m3 0) as [|_]; [contradiction|].
  destruct (Z.leb_spec e3 971) as [|Hbig]; [|lia].
  exists (Z.to_pos m3), e3. rewrite Z2Pos.id by lia.
  split; [reflexivity|]. lia.
Qed.

Lemma fbound_mono (K K' : Z) (f : PyFloat.float) :
  fbound K f -> K <= K' -> fbound K' f.
Proof. destruct f; simpl; auto. lia. Qed.

(** ** Conversion of an int *)

Lemma shl_align_spec (mx : positive) (ex ex' : Z) :
  snd (shl_align mx ex ex') = Z.min ex ex' /\
  Zpos (fst (shl_align mx ex ex')) = Zpos mx * 2 ^ (ex - Z.min ex ex').
Proof.
  unfold shl_align. destruct (ex' - ex) as [|d|d] eqn:E; cbn [fst snd].
  - replace (Z.min ex ex') with ex by lia. rewrite Z.sub_diag. simpl. lia.
  - replace (Z.min ex ex') with ex by lia. rewrite Z.sub_diag. simpl. lia.
  - replace (Z.min ex ex') with ex' by lia.
    replace (ex - ex') with (Zpos d) by lia.
    change (Pos.iter xO mx d) with (shift_pos d mx).
    rewrite shift_pos_correct. change (Z.pow_pos 2 d) with (2 ^ Z.pos d). lia.
Qed.

Lemma binary_round_finite (s : bool) (p : positive) (e L K K' : Z) :
  L <= Zdigits2 (Zpos p) + e <= K -> -1073 <= L -> -1021 <= K ->
  K + 1 <= K' -> K' <= 1024 ->
  exists m3 e3,
    binary_round PyFloat.prec PyFloat.emax s p e = S754_finite s m3 e3 /\
    L <= Zdigits2 (Zpos m3) + e3 <= K' /\ e3 <= K' - 53 /\ -1074 <= e3.
Proof.
  intros HK HL HK0 HK' Hr. unfold binary_round.
  pose proof (shl_align_spec p e
                (fexp PyFloat.prec PyFloat.emax (Zpos (digits2_pos p) + e)))
    as [Ez Mz].
  destruct (shl_align p e _) as [mz ez]. cbn [fst snd] in Ez, Mz.
  change (Zpos (digits2_pos p)) with (Zdigits2 (Zpos p)) in *.
  assert (Hd : Zdigits2 (Zpos mz) + ez = Zdigits2 (Zpos p) + e).
  { rewrite Mz, Zdigits2_mul_pow2 by lia. lia. }
  apply binary_round_aux_finite with (L := L) (K := K); try lia.
  subst ez. unfold_fexp. lia.
Qed.

Lemma of_int_spec (z K : Z) :
  Z.abs z < 2 ^ K -> 0 <= K <= 1023 ->
  exists f,
    PyFloat.of_int z = Ok f /\ fbound (K + 1) f /\
    fsign f = Some (z <? 0) /\ (z <> 0 -> flow 1 f).
Proof.
  intros Hz HK. unfold PyFloat.of_int, binary_normalize.
  destruct z as [|p|p].
  - eexists. repeat split. intros; congruence.
  - assert (D : Zdigits2 (Zpos p) <= K) by (apply Zdigits2_le; lia).
    pose proof (Zdigits2_pos (Zpos p) eq_refl).
    destruct (binary_round_finite false p 0 1 K (K + 1))
      as (m3 & e3 & -> & ? & ? & ?); try lia.
    eexists. split; [reflexivity|]. cbn [fbound fsign flow].
    repeat split; try reflexivity; lia.
  - assert (D : Zdigits2 (Zpos p) <= K) by (apply Zdigits2_le; lia).
    pose proof (Zdigits2_pos (Zpos p) eq_refl).
    destruct (binary_round_finite true p 0 1 K (K + 1))
      as (m3 & e3 & -> & ? & ? & ?); try lia.
    eexists. split; [reflexivity|]. cbn [fbound fsign flow].
    repeat split; try reflexivity; lia.
Qed.

(** ** Products *)

Lemma fmul_fbound (x y : PyFloat.float) (Kx Ky K' : Z) :
  fbound Kx x -> fbound Ky y -> Kx + Ky + 1 <= K' -> -1021 <= K' <= 1024 ->
  fbound K' (PyFloat.fmul x y).
Proof.
  intros Hx Hy HK Hr. unfold PyFloat.fmul.
  destruct x as [sx|sx| |sx mx ex], y as [sy|sy| |sy my ey];
    cbn [fbound] in Hx, Hy; try contradiction; try exact I.
  cbn [SFmul].
  apply binary_round_aux_fbound with (K := Kx + Ky); try lia.
  pose proof (Zdigits2_mul (Zpos mx) (Zpos my) eq_refl eq_refl).
  rewrite Pos2Z.inj_mul. lia.
Qed.

(** ** Quotients *)

Lemma SFdiv_core_bounds (m1 m2 : positive) (e1 e2 : Z) :
  let D := Zdigits2 (Zpos m1) + e1 - (Zdigits2 (Zpos m2) + e2) in
  exists q e' l,
    SFdiv_core_binary PyFloat.prec PyFloat.emax (Zpos m1) e1 (Zpos m2) e2
    = (q, e', l) /\
    0 <= q /\ e' <= fexp PyFloat.prec PyFloat.emax D /\
    (q = 0 \/ Zdigits2 q + e' <= D + 1) /\
    (-1073 <= D -> 1 <= q /\ D <= Zdigits2 q + e').
Proof.
  intros D. unfold SFdiv_core_binary.
  fold D.
  set (e' := Z.min (fexp PyFloat.prec PyFloat.emax D) (e1 - e2)).
  set (s := e1 - e2 - e').
  assert (Hs : 0 <= s) by (unfold s, e'; lia).
  set (m' := match s with
             | 0 => Z.pos m1
             | Z.pos _ => Z.shiftl (Z.pos m1) s
             | Z.neg _ => 0
             end).
  assert (Hm' : m' = Zpos m1 * 2 ^ s).
  { unfold m'. destruct s as [|p|p] eqn:Es.
    - change (2 ^ 0) with 1. lia.
    - apply Z.shiftl_mul_pow2. lia.
    - lia. }
  assert (Hq : Z.div_eucl m' (Zpos m2) = (m' / Zpos m2, m' mod Zpos m2)).
  { unfold Z.div, Z.modulo. now destruct (Z.div_eucl m' (Zpos m2)). }
  rewrite Hq.
  exists (m' / Zpos m2), e', (new_location (Zpos m2) (m' mod Zpos m2)).
  pose proof (pow2_pos s Hs) as Ps.
  pose proof (Zdigits2_bounds (Zpos m1) eq_refl) as [A1 B1].
  pose proof (Zdigits2_bounds (Zpos m2) eq_refl) as [A2 B2].
  pose proof (Zdigits2_pos (Zpos m1) eq_refl) as P1.
  pose proof (Zdigits2_pos (Zpos m2) eq_refl) as P2.
  set (d1 := Zdigits2 (Zpos m1)) in *. set (d2 := Zdigits2 (Zpos m2)) in *.
  assert (Q0 : 0 <= m' / Zpos m2) by (apply Z.div_pos; nia).
  split; [reflexivity|]. split; [exact Q0|]. split; [unfold e'; lia|].
  split.
  - (* the quotient is zero or below 2 ^ (d1 + s - d2 + 1) *)
    assert (Hm'lt : m' < 2 ^ (d1 + s)) by (rewrite Hm', Z.pow_add_r by lia; nia).
    destruct (Z_lt_le_dec (d1 + s) (d2 - 1)) as [Hsmall|Hbig].
    + left. apply Z.div_small.
      pose proof (pow2_le (d1 + s) (d2 - 1)). nia.
    + right.
      assert (E : 2 ^ (d1 + s) = 2 ^ (d2 - 1) * 2 ^ (d1 + s - (d2 - 1))).
      { rewrite <- Z.pow_add_r by lia. f_equal. lia. }
      pose proof (pow2_pos (d1 + s - (d2 - 1)) ltac:(lia)).
      assert (Hlt : m' / Zpos m2 < 2 ^ (d1 + s - (d2 - 1))).
      { apply Z.div_lt_upper_bound; [lia|]. nia. }
      assert (Zdigits2 (m' / Zpos m2) <= d1 + s - (d2 - 1))
        by (apply Zdigits2_le; lia).
      unfold s in *. unfold D. lia.
  - intros HD.
    assert (Hge : 0 <= d1 - 1 + s - d2).
    { unfold s, e'. unfold_fexp. unfold D in *. lia. }
    assert (Hlow : 2 ^ (d1 - 1 + s - d2) <= m' / Zpos m2).
    { apply Z.div_le_lower_bound; [lia|].
      assert (E : 2 ^ (d1 - 1 + s) = 2 ^ d2 * 2 ^ (d1 - 1 + s - d2)).
      { rewrite <- Z.pow_add_r by lia. f_equal. lia. }
      assert (2 ^ (d1 - 1 + s) <= m') by (rewrite Hm', Z.pow_add_r by lia; nia).
      pose proof (pow2_pos (d1 - 1 + s - d2) Hge). nia. }
    pose proof (pow2_pos (d1 - 1 + s - d2) Hge).
    split; [lia|].
    assert (d1 - 1 + s - d2 < Zdigits2 (m' / Zpos m2))
      by (apply Zdigits2_ge; lia).
    unfold s in *. unfold D. lia.
Qed.

Lemma SFdiv_finite_fbound (sx sy : bool) (mx my : positive) (ex ey K' : Z) :
  Zdigits2 (Zpos mx) + ex - (Zdigits2 (Zpos my) + ey) + 2 <= K' ->
  -1020 <= K' <= 1024 ->
  fbound K' (SFdiv PyFloat.prec PyFloat.emax
               (S754_finite sx mx ex) (S754_finite sy my ey)) /\
  fsign (SFdiv PyFloat.prec PyFloat.emax
           (S754_finite sx mx ex) (S754_finite sy my ey))
  = Some (xorb sx sy).
Proof.
  intros HK Hr. cbn [SFdiv].
  destruct (SFdiv_core_bounds mx my ex ey)
    as (q & e' & l & -> & Hq & He & Hd & _).
  split; [|now apply binary_round_aux_sign].
  set (D := Zdigits2 (Zpos mx) + ex - (Zdigits2 (Zpos my) + ey)) in *.
  apply binary_round_aux_fbound with (K := Z.max (D + 1) (-1021));
    try lia; unfold_fexp.
  - destruct Hd as [->|Hd]; simpl; lia.
  - lia.
Qed.

Lemma SFdiv_finite_flow (sx sy : bool) (mx my : positive) (ex ey K' : Z) :
  let D := Zdigits2 (Zpos mx) + ex - (Zdigits2 (Zpos my) + ey) in
  -1073 <= D -> D + 2 <= K' -> -1020 <= K' <= 1024 ->
  flow D (SFdiv PyFloat.prec PyFloat.emax
            (S754_finite sx mx ex) (S754_finite sy my ey)).
Proof.
  intros D HD HK Hr. cbn [SFdiv].
  destruct (SFdiv_core_bounds mx my ex ey)
    as (q & e' & l & -> & Hq & He & Hd & Hlow).
  fold D in He, Hd, Hlow. destruct (Hlow HD) as [Hq1 HDq].
  destruct Hd as [->|Hd]; [lia|].
  destruct (binary_round_aux_finite (xorb sx sy) q e' l D
              (Z.max (D + 1) (-1021)) K')
    as (m3 & e3 & -> & ? & ? & ?); try lia.
  - unfold_fexp. lia.
  - cbn [flow]. lia.
Qed.

Lemma exact_nonzero (a : Z) :
  a <> 0 -> PyFloat.exact a = S754_finite (a <? 0) (Z.to_pos (Z.abs a)) 0.
Proof. destruct a; [congruence|reflexivity|reflexivity]. Qed.

(** The quotient of two ints: finite, of the magnitude of the dividend over
    the divisor, and not zero unless the dividend is. *)
Lemma int_truediv_spec (a b K : Z) :
  b <> 0 -> Z.abs a < 2 ^ K -> 0 <= K <= 1022 ->
  exists f,
    PyFloat.int_truediv a b = Ok f /\ fbound (K + 1) f /\
    fsign f = Some (xorb (a <? 0) (b <? 0)) /\
    (a <> 0 -> Zdigits2 (Z.abs b) <= 1074 ->
     flow (Zdigits2 (Z.abs a) - Zdigits2 (Z.abs b)) f).
Proof.
  intros Hb Ha HK. unfold PyFloat.int_truediv.
  destruct (Z.eqb_spec b 0) as [|_]; [contradiction|].
  rewrite (exact_nonzero b Hb).
  destruct (Z.eq_dec a 0) as [->|Hne].
  { cbn [PyFloat.exact SFdiv]. eexists. split; [reflexivity|].
    repeat split. intros; congruence. }
  rewrite (exact_nonzero a Hne).
  set (ma := Z.to_pos (Z.abs a)). set (mb := Z.to_pos (Z.abs b)).
  assert (Ea : Zpos ma = Z.abs a) by (unfold ma; rewrite Z2Pos.id; lia).
  assert (Eb : Zpos mb = Z.abs b) by (unfold mb; rewrite Z2Pos.id; lia).
  assert (Da : Zdigits2 (Zpos ma) <= K) by (apply Zdigits2_le; lia).
  pose proof (Zdigits2_pos (Zpos ma) eq_refl) as Pa.
  pose proof (Zdigits2_pos (Zpos mb) eq_refl) as Pb.
  destruct (SFdiv_finite_fbound (a <? 0) (b <? 0) ma mb 0 0 (K + 1))
    as [Hbound Hsign]; try lia.
  destruct (SFdiv PyFloat.prec PyFloat.emax _ _) as [s|s| |s m e] eqn:E;
    cbn [fbound] in Hbound; try contradiction.
  - eexists. split; [reflexivity|]. split; [exact Hbound|].
    split; [exact Hsign|].
    intros _ Hdb. rewrite <- Eb in Hdb.
    replace (Zdigits2 (Z.abs a) - Zdigits2 (Z.abs b))
      with (Zdigits2 (Zpos ma) + 0 - (Zdigits2 (Zpos mb) + 0))
      by (rewrite Ea, Eb; lia).
    rewrite <- E. apply SFdiv_finite_flow with (K' := K + 1); lia.
  - eexists. split; [reflexivity|]. split; [exact Hbound|].
    split; [exact Hsign|].
    intros _ Hdb. rewrite <- Eb in Hdb.
    replace (Zdigits2 (Z.abs a) - Zdigits2 (Z.abs b))
      with (Zdigits2 (Zpos ma) + 0 - (Zdigits2 (Zpos mb) + 0))
      by (rewrite Ea, Eb; lia).
    rewrite <- E. apply SFdiv_finite_flow with (K' := K + 1); lia.
Qed.

(** ** Signs, truncation and comparison with an int *)

Lemma of_int_sign (z : Z) (f : PyFloat.float) :
  PyFloat.of_int z = Ok f ->
  fsign f = Some (z <? 0) /\ is_finite f = true.
Proof.
  unfold PyFloat.of_int, binary_normalize.
  assert (G : forall s p,
            fsign (binary_round PyFloat.prec PyFloat.emax s p 0) = Some s).
  { intros s p. unfold binary_round.
    destruct (shl_align p 0 _) as [mz ez].
    apply binary_round_aux_sign. lia. }
  destruct z as [|p|p].
  - intros H. inversion H. split; reflexivity.
  - specialize (G false p).
    destruct (binary_round _ _ false p 0); intros H; inversion H; subst;
      simpl in G; auto; discriminate.
  - specialize (G true p).
    destruct (binary_round _ _ true p 0); intros H; inversion H; subst;
      simpl in G; auto; discriminate.
Qed.

Lemma int_truediv_sign (a b : Z) (f : PyFloat.float) :
  PyFloat.int_truediv a b = Ok f ->
  fsign f = Some (xorb (a <? 0) (b <? 0)) /\ is_finite f = true.
Proof.
  unfold PyFloat.int_truediv.
  destruct (Z.eqb_spec b 0) as [|Hb]; [discriminate|].
  rewrite (exact_nonzero b Hb).
  destruct (Z.eq_dec a 0) as [->|Ha].
  - cbn [PyFloat.exact SFdiv]. intros H. inversion H. split; reflexivity.
  - rewrite (exact_nonzero a Ha). cbn [SFdiv].
    destruct (SFdiv_core_bounds (Z.to_pos (Z.abs a)) (Z.to_pos (Z.abs b)) 0 0)
      as (q & e' & l & -> & Hq & _).
    pose proof (binary_round_aux_sign (xorb (a <? 0) (b <? 0)) q e' l Hq) as G.
    destruct (binary_round_aux _ _ _ q e' l); intros H; inversion H; subst;
      simpl in G; auto; discriminate.
Qed.

(** A product of two floats, each zero or finite, has the sign of the
    signs and is not a NaN. *)
Lemma fmul_sign_finite (x y : PyFloat.float) (sx sy : bool) :
  is_finite x = true -> is_finite y = true ->
  fsign x = Some sx -> fsign y = Some sy ->
  fsign (PyFloat.fmul x y) = Some (xorb sx sy).
Proof.
  intros Fx Fy Sx Sy. unfold PyFloat.fmul.
  destruct x as [s1|s1| |s1 mx ex], y as [s2|s2| |s2 my ey];
    try discriminate;
    simpl in Sx, Sy; inversion Sx; inversion Sy; subst; cbn [SFmul];
    try reflexivity.
  apply binary_round_aux_sign. lia.
Qed.

Lemma to_int_bound (f : PyFloat.float) (K : Z) :
  fbound K f -> 0 <= K ->
  exists t, PyFloat.to_int f = Ok t /\ Z.abs t < 2 ^ K.
Proof.
  intros Hf HK. pose proof (pow2_pos K HK).
  destruct f as [s|s| |s m e]; cbn [fbound] in Hf; try contradiction.
  - exists 0. split; [reflexivity|]. simpl. lia.
  - cbn [PyFloat.to_int].
    set (a := if 0 <=? e then Z.pos m * 2 ^ e else Z.pos m / 2 ^ (- e)).
    assert (Ha : 0 <= a < 2 ^ K).
    { unfold a. destruct (Z.leb_spec 0 e).
      - pose proof (pow2_pos e ltac:(lia)).
        assert (D : Zdigits2 (Zpos m * 2 ^ e) <= K)
          by (rewrite Zdigits2_mul_pow2; lia).
        pose proof (Zdigits2_bounds (Zpos m * 2 ^ e) ltac:(nia)) as [_ B].
        pose proof (pow2_le (Zdigits2 (Z.pos m * 2 ^ e)) K
                      ltac:(pose proof (Zdigits2_nonneg (Zpos m * 2 ^ e)); lia)).
        lia.
      - pose proof (pow2_pos (- e) ltac:(lia)).
        assert (Q : 0 <= Zpos m / 2 ^ (- e)) by (apply Z.div_pos; lia).
        split; [exact Q|].
        destruct (Z.eq_dec (Zpos m / 2 ^ (- e)) 0) as [->|Hne]; [lia|].
        pose proof (Zdigits2_div_pow2 (Zpos m) (- e) ltac:(lia) ltac:(lia)) as D.
        pose proof (Zdigits2_bounds (Zpos m / 2 ^ (- e)) ltac:(lia)) as [_ B].
        pose proof (Zdigits2_nonneg (Zpos m / 2 ^ (- e))).
        pose proof (pow2_le (Zdigits2 (Z.pos m / 2 ^ (- e))) K ltac:(lia)).
        lia. }
    exists (if s then - a else a). split; [reflexivity|].
    destruct s; lia.
Qed.

(** A float with a positive sign is not below 0 and not below its own
    truncation. *)
Lemma compare_int_nonneg (f : PyFloat.float) :
  fsign f = Some false ->
  PyFloat.compare_int f 0 = Some Eq \/ PyFloat.compare_int f 0 = Some Gt.
Proof.
  destruct f as [s|s| |s m e]; cbn [fsign PyFloat.compare_int];
    intros H; inversion H; subst; auto.
  right. destruct (0 <=? e) eqn:He.
  - apply Z.leb_le in He. pose proof (pow2_pos e He).
    f_equal. apply Z.compare_gt_iff. nia.
  - reflexivity.
Qed.

Lemma to_int_below (f : PyFloat.float) (t : Z) :
  fsign f = Some false -> PyFloat.to_int f = Ok t ->
  0 <= t /\
  (PyFloat.compare_int f t = Some Eq \/ PyFloat.compare_int f t = Some Gt).
Proof.
  destruct f as [s|s| |s m e];
    cbn [fsign PyFloat.to_int PyFloat.compare_int];
    intros H Ht; try discriminate.
  - injection Ht as <-. split; [lia|auto].
  - injection H as ->.
    assert (Et : t = if 0 <=? e then Z.pos m * 2 ^ e else Z.pos m / 2 ^ (- e))
      by congruence.
    clear Ht. subst t.
    destruct (Z.leb_spec 0 e) as [He|He].
    + pose proof (pow2_pos e He). split; [nia|].
      left. f_equal. apply Z.compare_refl.
    + pose proof (pow2_pos (- e) ltac:(lia)) as P.
      pose proof (Z.mul_div_le (Zpos m) (2 ^ (- e)) P).
      split; [apply Z.div_pos; lia|].
      destruct (Z.compare_spec (Zpos m) (Z.pos m / 2 ^ (- e) * 2 ^ (- e)));
        auto. lia.
Qed.

(** * Rounding is to the nearest double, and monotone *)

(** ** Rounding a quotient to the nearest even integer *)

Lemma rne_div_range (n d : Z) :
  0 < d -> n / d <= rne_div n d <= n / d + 1.
Proof.
  intros Hd. unfold rne_div.
  destruct (2 * (n mod d) <? d); [lia|].
  destruct (2 * (n mod d) =? d); [destruct (Z.even (n / d)); lia|lia].
Qed.

Lemma rne_div_exact (n d : Z) : 0 < d -> n mod d = 0 -> rne_div n d = n / d.
Proof.
  intros Hd Hr. unfold rne_div. rewrite Hr.
  destruct (Z.ltb_spec (2 * 0) d); [reflexivity|lia].
Qed.

Lemma rne_div_small (n d : Z) : 0 <= n -> 2 * n < d -> rne_div n d = 0.
Proof.
  intros Hn Hd. unfold rne_div.
  rewrite Z.mod_small, Z.div_small by lia.
  destruct (Z.ltb_spec (2 * n) d); [reflexivity|lia].
Qed.

(** Rounding is monotone in the numerator. *)
Lemma rne_div_mono (n1 n2 d : Z) :
  0 < d -> n1 <= n2 -> rne_div n1 d <= rne_div n2 d.
Proof.
  intros Hd Hn.
  pose proof (Z.div_le_mono n1 n2 d Hd Hn) as Hq.
  destruct (Z.eq_dec (n1 / d) (n2 / d)) as [E|Hne].
  - pose proof (Z.div_mod n1 d ltac:(lia)) as D1.
    pose proof (Z.div_mod n2 d ltac:(lia)) as D2.
    assert (Hr : n1 mod d <= n2 mod d) by nia.
    unfold rne_div. rewrite <- E.
    destruct (Z.ltb_spec (2 * (n1 mod d)) d),
             (Z.ltb_spec (2 * (n2 mod d)) d); try lia;
      destruct (Z.eqb_spec (2 * (n1 mod d)) d),
               (Z.eqb_spec (2 * (n2 mod d)) d); try lia;
      destruct (Z.even (n1 / d)); lia.
  - pose proof (rne_div_range n1 d Hd). pose proof (rne_div_range n2 d Hd). lia.
Qed.

(** Scaling numerator and denominator does not change the rounding. *)
Lemma rne_div_scale (n d t : Z) :
  0 < d -> 0 < t -> rne_div (n * t) (d * t) = rne_div n d.
Proof.
  intros Hd Ht. unfold rne_div.
  rewrite Z.div_mul_cancel_r by lia.
  rewrite Z.mul_mod_distr_r by lia.
  destruct (Z.ltb_spec (2 * (n mod d * t)) (d * t)),
           (Z.ltb_spec (2 * (n mod d)) d); try nia; try reflexivity.
  destruct (Z.eqb_spec (2 * (n mod d * t)) (d * t)),
           (Z.eqb_spec (2 * (n mod d)) d); try nia; reflexivity.
Qed.

(** ** The bits that [shr] keeps *)

Lemma shr_1_bits (r : shr_record) :
  0 <= shr_m r ->
  shr_r (shr_1 r) = Z.odd (shr_m r) /\
  shr_s (shr_1 r) = shr_r r || shr_s r.
Proof.
  destruct r as [m r s]. cbn [shr_m shr_r shr_s]. intros Hm.
  destruct m as [|[p|p|]|p]; cbn [shr_1 shr_r shr_s]; try lia;
    split; reflexivity.
Qed.

Lemma mod_pow2_split (m j : Z) :
  0 <= j ->
  m mod 2 ^ (j + 1) = (m / 2 ^ j) mod 2 * 2 ^ j + m mod 2 ^ j.
Proof.
  intros Hj. pose proof (pow2_pos j Hj) as P.
  rewrite pow2_succ by lia.
  pose proof (Z.div_mod m (2 ^ j) ltac:(lia)) as D1.
  pose proof (Z.div_mod (m / 2 ^ j) 2 ltac:(lia)) as D2.
  pose proof (Z.mod_pos_bound m (2 ^ j) P) as B1.
  pose proof (Z.mod_pos_bound (m / 2 ^ j) 2 ltac:(lia)) as B2.
  symmetry. apply Z.mod_unique with (q := m / 2 ^ j / 2); [left; nia|nia].
Qed.

(** After [j + 1] shifts of an exact mantissa the round bit is bit [j] and
    the sticky bit tells whether a lower bit was set. *)
Lemma iter_shr_1_bits (j : nat) (m : Z) :
  0 <= m ->
  let r := Nat.iter (S j) shr_1 (Build_shr_record m false false) in
  shr_r r = Z.odd (m / 2 ^ Z.of_nat j) /\
  shr_s r = negb (m mod 2 ^ Z.of_nat j =? 0).
Proof.
  intros Hm. induction j as [|j IH].
  - cbn zeta. rewrite Nat.iter_succ. cbn [Nat.iter nat_rect].
    destruct (shr_1_bits (Build_shr_record m false false) Hm) as [-> ->].
    cbn [shr_m shr_r shr_s]. change (2 ^ Z.of_nat 0) with 1.
    rewrite Z.div_1_r, Z.mod_1_r. split; reflexivity.
  - cbn zeta in *. rewrite Nat.iter_succ.
    set (r := Nat.iter (S j) shr_1 (Build_shr_record m false false)) in *.
    assert (Mr : shr_m r = m / 2 ^ Z.of_nat (S j)).
    { unfold r. now rewrite iter_shr_1_m. }
    assert (Pr : 0 <= shr_m r).
    { rewrite Mr. apply Z.div_pos; [lia|apply pow2_pos; lia]. }
    destruct (shr_1_bits r Pr) as [-> ->]. destruct IH as [-> ->].
    rewrite Mr. split; [reflexivity|].
    rewrite Nat2Z.inj_succ. unfold Z.succ.
    rewrite (mod_pow2_split m (Z.of_nat j)) by lia.
    pose proof (pow2_pos (Z.of_nat j) ltac:(lia)) as P.
    pose proof (Z.mod_pos_bound m (2 ^ Z.of_nat j) P) as B.
    rewrite Zodd_mod.
    pose proof (Z.mod_pos_bound (m / 2 ^ Z.of_nat j) 2 ltac:(lia)) as B2.
    destruct (Z.eqb_spec ((m / 2 ^ Z.of_nat j) mod 2) 1) as [E|E].
    + rewrite E. cbn [orb].
      destruct (Z.eqb_spec (1 * 2 ^ Z.of_nat j + m mod 2 ^ Z.of_nat j) 0);
        [lia|reflexivity].
    + assert (E0 : (m / 2 ^ Z.of_nat j) mod 2 = 0) by lia.
      rewrite E0. cbn [orb]. rewrite Z.mul_0_l, Z.add_0_l. reflexivity.
Qed.

(** Shifting an exact mantissa right by [k] bits and rounding gives the
    quotient by [2 ^ k] rounded to the nearest even. *)
Lemma shr_round_exact (m e k : Z) :
  0 <= m -> 0 < k ->
  let r := fst (shr (shr_record_of_loc m loc_Exact) e k) in
  round_nearest_even (shr_m r) (loc_of_shr_record r) = rne_div m (2 ^ k).
Proof.
  intros Hm Hk. destruct k as [|p|p]; try lia. cbn [shr fst shr_record_of_loc].
  rewrite iter_pos_nat.
  destruct (Pos.to_nat p) as [|j] eqn:Ej; [lia|].
  assert (Ek : Z.pos p = Z.of_nat j + 1) by lia.
  pose proof (iter_shr_1_bits j m Hm) as B. cbv zeta in B.
  pose proof (iter_shr_1_m (S j) (Build_shr_record m false false) Hm) as M.
  cbn [shr_m] in M.
  set (r := Nat.iter (S j) shr_1 (Build_shr_record m false false)) in *.
  destruct B as [Br Bs].
  replace (Z.of_nat (S j)) with (Z.of_nat j + 1) in M by lia.
  rewrite Ek. set (i := Z.of_nat j) in *.
  assert (Hi : 0 <= i) by (unfold i; lia).
  pose proof (pow2_pos i Hi) as P.
  pose proof (mod_pow2_split m i Hi) as S.
  pose proof (Z.mod_pos_bound m (2 ^ i) P) as Blow.
  pose proof (Z.mod_pos_bound (m / 2 ^ i) 2 ltac:(lia)) as Bbit.
  unfold rne_div. rewrite <- M, S, pow2_succ by lia.
  destruct r as [mr rr sr]. cbn [shr_m shr_r shr_s] in *.
  rewrite Zodd_mod in Br.
  destruct (Z.eqb_spec ((m / 2 ^ i) mod 2) 1) as [E1|E1];
    destruct (Z.eqb_spec (m mod 2 ^ i) 0) as [E0|E0];
    subst rr sr; cbn [negb loc_of_shr_record round_nearest_even].
  - rewrite E1, E0.
    destruct (Z.ltb_spec (2 * (1 * 2 ^ i + 0)) (2 * 2 ^ i)); [lia|].
    destruct (Z.eqb_spec (2 * (1 * 2 ^ i + 0)) (2 * 2 ^ i)); [|lia].
    reflexivity.
  - rewrite E1.
    destruct (Z.ltb_spec (2 * (1 * 2 ^ i + m mod 2 ^ i)) (2 * 2 ^ i)); [lia|].
    destruct (Z.eqb_spec (2 * (1 * 2 ^ i + m mod 2 ^ i)) (2 * 2 ^ i)); [lia|].
    reflexivity.
  - assert (Eb : (m / 2 ^ i) mod 2 = 0) by lia. rewrite Eb, E0.
    destruct (Z.ltb_spec (2 * (0 * 2 ^ i + 0)) (2 * 2 ^ i)); [|lia].
    reflexivity.
  - assert (Eb : (m / 2 ^ i) mod 2 = 0) by lia. rewrite Eb.
    destruct (Z.ltb_spec (2 * (0 * 2 ^ i + m mod 2 ^ i)) (2 * 2 ^ i)); [|lia].
    reflexivity.
Qed.

(** ** An exact mantissa is rounded to the nearest double *)

(** [binary_round_aux] on an exact mantissa, step by step. *)
Lemma binary_round_aux_exact_cases (s : bool) (m e : Z) :
  0 <= m ->
  exists m2 m3 e1 e3 : Z,
    e1 = Z.max e (fexp PyFloat.prec PyFloat.emax (Zdigits2 m + e)) /\
    m2 = (if e <? e1 then rne_div m (2 ^ (e1 - e)) else m) /\
    e3 = Z.max e1 (fexp PyFloat.prec PyFloat.emax (Zdigits2 m2 + e1)) /\
    m3 = m2 / 2 ^ (e3 - e1) /\
    binary_round_aux PyFloat.prec PyFloat.emax s m e loc_Exact
    = (if m3 =? 0 then S754_zero s
       else if e3 <=? 971 then S754_finite s (Z.to_pos m3) e3
            else S754_infinity s).
Proof.
  intros Hm. unfold binary_round_aux, shr_fexp.
  set (k := fexp PyFloat.prec PyFloat.emax (Zdigits2 m + e) - e).
  pose proof (shr_m_spec (shr_record_of_loc m loc_Exact) e k) as S1.
  rewrite shr_record_of_loc_m in S1. specialize (S1 Hm).
  assert (R1 : round_nearest_even
                 (shr_m (fst (shr (shr_record_of_loc m loc_Exact) e k)))
                 (loc_of_shr_record
                    (fst (shr (shr_record_of_loc m loc_Exact) e k)))
               = if 0 <? k then rne_div m (2 ^ k) else m).
  { destruct (Z.ltb_spec 0 k) as [Hk|Hk].
    - now apply shr_round_exact.
    - destruct k as [|p|p]; try lia; reflexivity. }
  destruct (shr (shr_record_of_loc m loc_Exact) e k) as [r1 e1].
  cbn [fst snd] in S1, R1. destruct S1 as [M1 E1].
  set (m2 := round_nearest_even (shr_m r1) (loc_of_shr_record r1)) in *.
  assert (H2 : 0 <= m2).
  { rewrite R1. destruct (Z.ltb_spec 0 k); [|exact Hm].
    pose proof (rne_div_range m (2 ^ k) ltac:(apply pow2_pos; lia)).
    assert (0 <= m / 2 ^ k); [|lia].
    apply Z.div_pos; [lia|apply pow2_pos; lia]. }
  pose proof (shr_m_spec (shr_record_of_loc m2 loc_Exact) e1
                (fexp PyFloat.prec PyFloat.emax (Zdigits2 m2 + e1) - e1)) as S2.
  rewrite shr_record_of_loc_m in S2. specialize (S2 H2).
  destruct (shr (shr_record_of_loc m2 loc_Exact) e1
              (fexp PyFloat.prec PyFloat.emax (Zdigits2 m2 + e1) - e1))
    as [r3 e3].
  cbn [fst snd] in S2. destruct S2 as [M3 E3].
  exists m2, (shr_m r3), e1, e3.
  assert (A1 : e1 = Z.max e (fexp PyFloat.prec PyFloat.emax (Zdigits2 m + e)))
    by (unfold k in E1; lia).
  split; [exact A1|]. split.
  { rewrite R1. unfold k.
    destruct (Z.ltb_spec 0 (fexp PyFloat.prec PyFloat.emax (Zdigits2 m + e) - e)),
             (Z.ltb_spec e e1); try lia.
    do 2 f_equal. lia. }
  split; [lia|]. split.
  { rewrite M3. do 2 f_equal. lia. }
  assert (Hm3 : 0 <= shr_m r3).
  { rewrite M3. apply Z.div_pos; [lia|apply pow2_pos; lia]. }
  change (PyFloat.emax - PyFloat.prec) with 971.
  destruct (shr_m r3) as [|p|p]; try lia; reflexivity.
Qed.

Lemma spacing_units (m e : Z) :
  0 < m -> - scale <= e ->
  spacing (m * 2 ^ (e + scale))
  = 2 ^ (fexp PyFloat.prec PyFloat.emax (Zdigits2 m + e) + scale).
Proof.
  intros Hm He. unfold spacing.
  rewrite Zdigits2_mul_pow2 by lia.
  replace (Zdigits2 m + (e + scale) - scale) with (Zdigits2 m + e) by lia.
  reflexivity.
Qed.

(** A finite or zero result of rounding an exact mantissa is the nearest
    double, in units; its exponent is not below [-1074]. *)
Lemma binary_round_aux_exact (s : bool) (m e : Z) :
  0 < m -> - scale <= e ->
  is_finite (binary_round_aux PyFloat.prec PyFloat.emax s m e loc_Exact) = true ->
  sval (binary_round_aux PyFloat.prec PyFloat.emax s m e loc_Exact)
  = round_units (m * 2 ^ (e + scale)).
Proof.
  intros Hm He.
  destruct (binary_round_aux_exact_cases s m e ltac:(lia))
    as (m2 & m3 & e1 & e3 & E1 & M2 & E3 & M3 & ->).
  unfold round_units. rewrite (spacing_units m e Hm He).
  unfold scale in *. unfold_fexp.
  set (d := Zdigits2 m) in *.
  pose proof (Zdigits2_pos m Hm) as Pd. fold d in Pd.
  pose proof (Zdigits2_bounds m Hm) as [Dlo Dhi]. fold d in Dlo, Dhi.
  set (c := Z.max (d + e - 53) (-1074)) in *.
  assert (Pc : 0 < 2 ^ (c + 2148)) by (apply pow2_pos; lia).
  (* the rounded mantissa at exponent [e1], in units *)
  assert (V2 : 2 ^ (c + 2148) * rne_div (m * 2 ^ (e + 2148)) (2 ^ (c + 2148))
               = m2 * 2 ^ (e1 + 2148)).
  { destruct (Z.ltb_spec e e1) as [Hlt|Hge].
    - assert (Ec : e1 = c) by lia. rewrite Ec in *.
      replace (2 ^ (c + 2148)) with (2 ^ (c - e) * 2 ^ (e + 2148))
        by (rewrite <- Z.pow_add_r by lia; f_equal; lia).
      rewrite rne_div_scale by (apply pow2_pos; lia).
      rewrite M2. lia.
    - assert (Ee : e1 = e) by lia. rewrite Ee in *.
      assert (Em : m * 2 ^ (e + 2148) = m * 2 ^ (e - c) * 2 ^ (c + 2148)).
      { rewrite <- Z.mul_assoc, <- Z.pow_add_r by lia. do 2 f_equal. lia. }
      rewrite rne_div_exact; [|lia|].
      + rewrite Em at 1. rewrite Z.div_mul by lia. rewrite M2, Em. lia.
      + rewrite Em. apply Z.mod_mul. lia. }
  rewrite V2.
  (* renormalising does not change the value *)
  assert (H2 : 0 <= m2).
  { rewrite M2. destruct (Z.ltb_spec e e1); [|lia].
    pose proof (rne_div_range m (2 ^ (e1 - e)) ltac:(apply pow2_pos; lia)).
    assert (0 <= m / 2 ^ (e1 - e)); [|lia].
    apply Z.div_pos; [lia|apply pow2_pos; lia]. }
  assert (V3 : m3 * 2 ^ (e3 + 2148) = m2 * 2 ^ (e1 + 2148)).
  { destruct (Z.eq_dec e3 e1) as [->|Hne].
    - rewrite M3, Z.sub_diag. change (2 ^ 0) with 1. now rewrite Z.div_1_r.
    - (* a carry to [2 ^ 53]: one more shift, exact *)
      assert (D2 : 54 <= Zdigits2 m2) by lia.
      assert (Hlt : e < e1).
      { destruct (Z.ltb_spec e e1); [assumption|].
        exfalso. rewrite M2 in D2. fold d in D2. lia. }
      destruct (Z.ltb_spec e e1); [|lia].
      assert (Ec : e1 = c) by lia.
      pose proof (rne_div_range m (2 ^ (e1 - e))
                    ltac:(apply pow2_pos; lia)) as R.
      rewrite <- M2 in R.
      assert (D1 : Zdigits2 (m / 2 ^ (e1 - e)) <= 53).
      { rewrite Zdigits2_div_pow2 by lia. fold d. lia. }
      assert (B1 : m / 2 ^ (e1 - e) < 2 ^ 53).
      { destruct (Z.eq_dec (m / 2 ^ (e1 - e)) 0) as [->|N0]; [reflexivity|].
        assert (P1 : 0 <= m / 2 ^ (e1 - e))
          by (apply Z.div_pos; [lia|apply pow2_pos; lia]).
        pose proof (Zdigits2_bounds (m / 2 ^ (e1 - e)) ltac:(lia)) as [_ B].
        pose proof (pow2_le (Zdigits2 (m / 2 ^ (e1 - e))) 53
                      ltac:(pose proof (Zdigits2_nonneg (m / 2 ^ (e1 - e)));
                            lia)).
        lia. }
      assert (B2 : 2 ^ 53 <= m2).
      { pose proof (Zdigits2_le m2 53 H2 ltac:(lia)).
        destruct (Z_lt_le_dec m2 (2 ^ 53)); [lia|assumption]. }
      assert (Em2 : m2 = 2 ^ 53) by lia.
      assert (Ed2 : Zdigits2 m2 = 54) by (rewrite Em2; reflexivity).
      assert (Ee3 : e3 = e1 + 1) by lia.
      rewrite M3, Ee3, Em2.
      replace (e1 + 1 - e1) with 1 by lia.
      replace (e1 + 1 + 2148) with (e1 + 2148 + 1) by lia.
      rewrite pow2_succ by lia.
      change (2 ^ 53 / 2 ^ 1) with (2 ^ 52). change (2 ^ 53) with (2 * 2 ^ 52).
      lia. }
  destruct (Z.eqb_spec m3 0) as [E0|N0].
  - intros _. cbn [sval]. rewrite <- V3, E0. lia.
  - assert (P3 : 0 <= m3).
    { rewrite M3. apply Z.div_pos; [lia|apply pow2_pos; lia]. }
    destruct (e3 <=? 971); [|discriminate].
    intros _. cbn [sval]. rewrite Z2Pos.id by lia. exact V3.
Qed.

Lemma binary_round_aux_fgood (s : bool) (m e : Z) (l : location) :
  0 <= m ->
  match binary_round_aux PyFloat.prec PyFloat.emax s m e l with
  | S754_finite s' _ e' => s' = s /\ -1074 <= e'
  | _ => True
  end.
Proof.
  intros Hm.
  destruct (binary_round_aux_cases s m e l Hm)
    as (m1 & m2 & m3 & e1 & e3 & E1 & _ & _ & E3 & _ & ->).
  destruct (m3 =? 0); [exact I|].
  destruct (e3 <=? 971); [|exact I].
  split; [reflexivity|]. unfold_fexp. lia.
Qed.

(** ** Rounding to the nearest double is monotone *)

Lemma spacing_pow (V : Z) :
  spacing V = 2 ^ Z.max (Zdigits2 V - 53) 1074.
Proof.
  unfold spacing, scale. unfold_fexp. f_equal. lia.
Qed.

Lemma round_units_mono (V1 V2 : Z) :
  0 < V1 <= V2 -> round_units V1 <= round_units V2.
Proof.
  intros [H1 H12]. unfold round_units. rewrite !spacing_pow.
  pose proof (Zdigits2_mono V1 V2 ltac:(lia)) as Hd.
  pose proof (Zdigits2_bounds V1 H1) as [L1 U1].
  pose proof (Zdigits2_bounds V2 ltac:(lia)) as [L2 U2].
  pose proof (Zdigits2_pos V1 H1) as P1.
  set (d1 := Zdigits2 V1) in *. set (d2 := Zdigits2 V2) in *.
  set (c1 := Z.max (d1 - 53) 1074). set (c2 := Z.max (d2 - 53) 1074).
  assert (G1 : 0 < 2 ^ c1) by (apply pow2_pos; lia).
  assert (G2 : 0 < 2 ^ c2) by (apply pow2_pos; lia).
  destruct (Z.eq_dec c1 c2) as [E|Hne].
  - rewrite <- E. apply Z.mul_le_mono_nonneg_l; [lia|].
    apply rne_div_mono; lia.
  - assert (Hc : c2 = d2 - 53 /\ 1074 < c2 /\ d1 < d2) by lia.
    destruct Hc as (Ec2 & Hc2 & Hd12).
    (* below: at most 2 ^ d1 *)
    assert (A : 2 ^ c1 * rne_div V1 (2 ^ c1) <= 2 ^ d1).
    { destruct (Z_lt_le_dec d1 c1) as [Hlt|Hge].
      - rewrite rne_div_small; [pose proof (pow2_pos d1); lia|lia|].
        assert (2 ^ (d1 + 1) <= 2 ^ c1) by (apply pow2_le; lia).
        rewrite pow2_succ in * by lia. lia.
      - assert (E : 2 ^ d1 = 2 ^ c1 * 2 ^ (d1 - c1)).
        { rewrite <- Z.pow_add_r by lia. f_equal. lia. }
        pose proof (rne_div_range V1 (2 ^ c1) G1) as R.
        assert (V1 / 2 ^ c1 < 2 ^ (d1 - c1)).
        { apply Z.div_lt_upper_bound; lia. }
        rewrite E. apply Z.mul_le_mono_nonneg_l; lia. }
    (* above: at least 2 ^ (d2 - 1) *)
    assert (B : 2 ^ (d2 - 1) <= 2 ^ c2 * rne_div V2 (2 ^ c2)).
    { assert (E : 2 ^ (d2 - 1) = 2 ^ c2 * 2 ^ 52).
      { rewrite <- Z.pow_add_r by lia. f_equal. lia. }
      pose proof (rne_div_range V2 (2 ^ c2) G2) as R.
      assert (2 ^ 52 <= V2 / 2 ^ c2).
      { apply Z.div_le_lower_bound; lia. }
      rewrite E. apply Z.mul_le_mono_nonneg_l; lia. }
    assert (C : 2 ^ d1 <= 2 ^ (d2 - 1)) by (apply pow2_le; lia).
    lia.
Qed.

Lemma round_units_nonneg (V : Z) : 0 <= V -> 0 <= round_units V.
Proof.
  intros HV. unfold round_units. rewrite spacing_pow.
  set (c := Z.max (Zdigits2 V - 53) 1074).
  assert (G : 0 < 2 ^ c) by (apply pow2_pos; lia).
  pose proof (rne_div_range V (2 ^ c) G).
  assert (0 <= V / 2 ^ c) by (apply Z.div_pos; lia).
  apply Z.mul_nonneg_nonneg; lia.
Qed.

Lemma round_units_0 : round_units 0 = 0.
Proof. reflexivity. Qed.

Lemma sval_nonneg (f : PyFloat.float) : fgood f -> 0 <= sval f.
Proof.
  destruct f as [s|s| |s m e]; cbn [sval fgood]; lia.
Qed.

(** ** Products, conversions and truncations in units *)

Lemma mul_units_finite (mx my : positive) (ex ey : Z) :
  -1074 <= ex -> -1074 <= ey ->
  mul_units (Zpos mx * 2 ^ (ex + scale)) (Zpos my * 2 ^ (ey + scale))
  = Zpos (mx * my) * 2 ^ (ex + ey + scale).
Proof.
  intros Hx Hy. unfold mul_units, scale in *.
  replace (Z.pos mx * 2 ^ (ex + 2148) * (Z.pos my * 2 ^ (ey + 2148)))
    with (Zpos (mx * my) * 2 ^ (ex + ey + 2148) * 2 ^ 2148).
  - apply Z.div_mul. pose proof (pow2_pos 2148). lia.
  - rewrite Pos2Z.inj_mul.
    replace (2 ^ 2148) with (2 ^ 1074 * 2 ^ 1074)
      by (rewrite <- Z.pow_add_r by lia; reflexivity).
    replace (ex + 2148) with ((ex + 1074) + 1074) by lia.
    replace (ey + 2148) with ((ey + 1074) + 1074) by lia.
    replace (ex + ey + 2148) with ((ex + 1074) + (ey + 1074)) by lia.
    rewrite (Z.pow_add_r 2 (ex + 1074) (ey + 1074)) by lia.
    rewrite (Z.pow_add_r 2 (ex + 1074) 1074) by lia.
    rewrite (Z.pow_add_r 2 (ey + 1074) 1074) by lia.
    generalize (2 ^ (ex + 1074)) (2 ^ (ey + 1074)) (2 ^ 1074).
    intros; ring.
Qed.

(** A finite product of two good floats is their exact product rounded to
    the nearest double. *)
Lemma fmul_units (x y : PyFloat.float) :
  fgood x -> fgood y -> is_finite x = true -> is_finite y = true ->
  is_finite (PyFloat.fmul x y) = true ->
  sval (PyFloat.fmul x y) = round_units (mul_units (sval x) (sval y)) /\
  fgood (PyFloat.fmul x y).
Proof.
  intros Gx Gy Fx Fy. unfold PyFloat.fmul.
  destruct x as [sx|sx| |sx mx ex], y as [sy|sy| |sy my ey];
    try discriminate; cbn [SFmul sval]; intros Fxy;
    try (split; [|exact I]; unfold mul_units;
         rewrite ?Z.mul_0_l, ?Z.mul_0_r, Zdiv_0_l; reflexivity).
  cbn [fgood] in Gx, Gy. destruct Gx as [-> Hx], Gy as [-> Hy].
  rewrite mul_units_finite by assumption. split.
  - apply binary_round_aux_exact; [lia|unfold scale; lia|exact Fxy].
  - pose proof (binary_round_aux_fgood (xorb false false)
                  (Zpos (mx * my)) (ex + ey) loc_Exact ltac:(lia)) as G.
    destruct (binary_round_aux _ _ _ _ _ _); try exact I. exact G.
Qed.

Lemma mul_units_mono (a b1 b2 : Z) :
  0 <= a -> b1 <= b2 -> mul_units a b1 <= mul_units a b2.
Proof.
  intros Ha Hb. unfold mul_units.
  apply Z.div_le_mono; [apply pow2_pos; unfold scale; lia|nia].
Qed.

Lemma round_units_mono0 (V1 V2 : Z) :
  0 <= V1 <= V2 -> round_units V1 <= round_units V2.
Proof.
  intros [H1 H12]. destruct (Z.eq_dec V1 0) as [->|Hne].
  - rewrite round_units_0. apply round_units_nonneg. lia.
  - apply round_units_mono. lia.
Qed.

(** Multiplying by one and the same float keeps the order of values. *)
Lemma fmul_mono_r (a x1 x2 : PyFloat.float) :
  fgood a -> fgood x1 -> fgood x2 ->
  is_finite a = true -> is_finite x1 = true -> is_finite x2 = true ->
  is_finite (PyFloat.fmul a x1) = true ->
  is_finite (PyFloat.fmul a x2) = true ->
  sval x1 <= sval x2 ->
  sval (PyFloat.fmul a x1) <= sval (PyFloat.fmul a x2).
Proof.
  intros Ga G1 G2 Fa F1 F2 P1 P2 Hle.
  destruct (fmul_units a x1 Ga G1 Fa F1 P1) as [-> _].
  destruct (fmul_units a x2 Ga G2 Fa F2 P2) as [-> _].
  pose proof (sval_nonneg a Ga). pose proof (sval_nonneg x1 G1).
  apply round_units_mono0. split.
  - unfold mul_units. apply Z.div_pos; [nia|apply pow2_pos; unfold scale; lia].
  - now apply mul_units_mono.
Qed.

Lemma fmul_mono_l (b x1 x2 : PyFloat.float) :
  fgood b -> fgood x1 -> fgood x2 ->
  is_finite b = true -> is_finite x1 = true -> is_finite x2 = true ->
  is_finite (PyFloat.fmul x1 b) = true ->
  is_finite (PyFloat.fmul x2 b) = true ->
  sval x1 <= sval x2 ->
  sval (PyFloat.fmul x1 b) <= sval (PyFloat.fmul x2 b).
Proof.
  intros Gb G1 G2 Fb F1 F2 P1 P2 Hle.
  destruct (fmul_units x1 b G1 Gb F1 Fb P1) as [-> _].
  destruct (fmul_units x2 b G2 Gb F2 Fb P2) as [-> _].
  pose proof (sval_nonneg b Gb). pose proof (sval_nonneg x1 G1).
  unfold mul_units. rewrite (Z.mul_comm (sval x1)), (Z.mul_comm (sval x2)).
  apply round_units_mono0. split.
  - apply Z.div_pos; [nia|apply pow2_pos; unfold scale; lia].
  - now apply mul_units_mono.
Qed.

(** The float of a positive int is that int rounded to the nearest
    double. *)
Lemma of_int_units (h : Z) (f : PyFloat.float) :
  1 <= h -> PyFloat.of_int h = Ok f ->
  sval f = round_units (h * 2 ^ scale) /\ fgood f /\ is_finite f = true /\
  PyFloat.is_zero f = false.
Proof.
  intros Hh. destruct h as [|p|p]; try lia.
  unfold PyFloat.of_int, binary_normalize, binary_round.
  pose proof (shl_align_spec p 0
                (fexp PyFloat.prec PyFloat.emax (Zpos (digits2_pos p) + 0)))
    as [Ez Mz].
  destruct (shl_align p 0 _) as [mz ez]. cbn [fst snd] in Ez, Mz.
  assert (He : -1074 <= ez <= 0) by (subst ez; unfold_fexp; lia).
  assert (EV : Zpos mz * 2 ^ (ez + scale) = Zpos p * 2 ^ scale).
  { rewrite Mz, <- Ez. unfold scale.
    rewrite <- Z.mul_assoc, <- Z.pow_add_r by lia. do 2 f_equal. lia. }
  pose proof (binary_round_aux_exact false (Zpos mz) ez ltac:(lia)
                ltac:(unfold scale; lia)) as X.
  pose proof (binary_round_aux_fgood false (Zpos mz) ez loc_Exact ltac:(lia))
    as G.
  destruct (binary_round_aux_cases false (Zpos mz) ez loc_Exact ltac:(lia))
    as (m1 & m2 & m3 & e1 & e3 & E1 & M1 & R & E3 & M3 & Eq).
  assert (N3 : m3 <> 0).
  { (* the mantissa has 53 digits at most before rounding and is not lost *)
    pose proof (Zdigits2_pos (Zpos mz) eq_refl) as Pd.
    assert (Dz : Zdigits2 (Zpos mz) + ez = Zdigits2 (Zpos p)).
    { rewrite Mz, Zdigits2_mul_pow2 by lia. lia. }
    pose proof (Zdigits2_pos (Zpos p) eq_refl) as Pp.
    unfold_fexp.
    assert (H1 : 0 <= m1)
      by (subst m1; apply Z.div_pos; [lia|apply pow2_pos; lia]).
    assert (D1 : Zdigits2 m1 = Z.max 0 (Zdigits2 (Zpos mz) - (e1 - ez))).
    { subst m1. apply Zdigits2_div_pow2; lia. }
    assert (D2 : Zdigits2 m1 <= Zdigits2 m2) by (apply Zdigits2_mono; lia).
    assert (D3 : Zdigits2 m3 = Z.max 0 (Zdigits2 m2 - (e3 - e1))).
    { subst m3. apply Zdigits2_div_pow2; lia. }
    assert (D2' : Zdigits2 m2 <= Zdigits2 m1 + 1).
    { etransitivity; [apply (Zdigits2_mono m2 (m1 + 1)); lia|].
      apply Zdigits2_succ; lia. }
    intros E0. rewrite E0 in D3. simpl in D3. lia. }
  rewrite Eq in *. destruct (Z.eqb_spec m3 0) as [|_]; [contradiction|].
  destruct (e3 <=? 971); [|discriminate].
  intros H. injection H as <-.
  rewrite <- EV. split; [now apply X|]. split; [exact G|]. split; reflexivity.
Qed.

(** Truncation of a good float is the quotient of its value by the unit. *)
Lemma to_int_units (f : PyFloat.float) (n : Z) :
  fgood f -> PyFloat.to_int f = Ok n -> n = sval f / 2 ^ scale.
Proof.
  destruct f as [s|s| |s m e]; cbn [PyFloat.to_int sval fgood];
    intros G H; try discriminate.
  - injection H as <-. reflexivity.
  - destruct G as [-> He].
    assert (E : n = if 0 <=? e then Z.pos m * 2 ^ e else Z.pos m / 2 ^ (- e))
      by congruence.
    clear H. subst n. unfold scale.
    pose proof (pow2_pos 2148 ltac:(lia)) as P.
    destruct (Z.leb_spec 0 e) as [H0|H0].
    + rewrite Z.pow_add_r, Z.mul_assoc by lia. now rewrite Z.div_mul by lia.
    + replace (2 ^ 2148) with (2 ^ (- e) * 2 ^ (e + 2148))
        by (rewrite <- Z.pow_add_r by lia; f_equal; lia).
      rewrite Z.div_mul_cancel_r; [reflexivity|apply Z.pow_nonzero; lia|].
      apply Z.pow_nonzero; lia.
Qed.

(** * Properties of the forecasting engine *)

(** ** Basic facts about the model *)

Lemma sum_ints_shift (l : list Z) (a : Z) :
  fold_left Z.add l a = a + sum_ints l.
Proof.
  unfold sum_ints. revert a.
  induction l as [|x l IH]; intros a; simpl.
  - lia.
  - rewrite (IH (a + x)), (IH x). lia.
Qed.

Lemma sum_ints_cons (x : Z) (l : list Z) : sum_ints (x :: l) = x + sum_ints l.
Proof. unfold sum_ints at 1. simpl. apply sum_ints_shift. Qed.

Lemma sum_ints_app (l1 l2 : list Z) :
  sum_ints (l1 ++ l2) = sum_ints l1 + sum_ints l2.
Proof.
  unfold sum_ints at 1. rewrite fold_left_app.
  fold (sum_ints l1). apply sum_ints_shift.
Qed.

Lemma get_forecast_no_location (self : Product) (days : Z) (w : net) :
  get_forecast self days None w = (forecast_no_weather self days, w).
Proof.
  unfold get_forecast, forecast_no_weather.
  destruct (is_empty (sales_history self)); [reflexivity|].
  destruct (is_empty (slice_from (-30) (sales_history self))); [reflexivity|].
  unfold iobind, lift, ret; simpl.
  destruct (average_sales _) as [avg|e]; simpl; [|reflexivity].
  destruct (scaled_forecast _ _ _) as [f|e]; reflexivity.
Qed.

(** ** Sales and inventory *)

(** C9: a product built by the constructor and changed only by [add_sale]
    has an inventory equal to minus the sum of the quantities in its sales
    history; with an empty history the inventory is 0. *)
Theorem inventory_mirrors_sales (p : Product) :
  reachable p ->
  inventory p = - sum_ints (map snd (sales_history p)) /\
  (sales_history p = [] -> inventory p = 0).
Proof.
  intros H.
  assert (E : inventory p = - sum_ints (map snd (sales_history p))).
  { induction H as [i n s c|p now q _ IH]; simpl.
    - reflexivity.
    - rewrite map_app, sum_ints_app. simpl map.
      rewrite sum_ints_cons. unfold sum_ints at 2. simpl fold_left. lia. }
  split; [exact E|].
  intros Hnil. rewrite E, Hnil. reflexivity.
Qed.

Lemma inventory_mirrors_sales_witness :
  reachable apple /\
  inventory apple = - sum_ints (map snd (sales_history apple)) /\
  (sales_history apple = [] -> inventory apple = 0).
Proof.
  assert (R : reachable apple) by (unfold apple; repeat constructor).
  split; [exact R | exact (inventory_mirrors_sales apple R)].
Defined.

(** ** The location argument *)

(** C10: an empty-string location requests nothing from the network and
    gives the result of a call without location. *)
Theorem empty_location_is_no_location (self : Product) (days : Z) (w : net) :
  get_forecast self days (Some ""%string) w = get_forecast self days None w /\
  snd (get_forecast self days (Some ""%string) w) = w.
Proof.
  assert (E : get_forecast self days (Some ""%string) w
              = get_forecast self days None w) by reflexivity.
  split; [exact E|].
  rewrite E, get_forecast_no_location. reflexivity.
Qed.

(** ** Failure of the weather lookup *)

(** When the service answers with a status other than 200 and a JSON object,
    the lookup yields an error dict and the forecast is the one computed
    without location. *)
Lemma error_response_degrades (self : Product) (days : Z) (loc : string)
    (w : net) (resp : response) (body : dict) :
  loc <> ""%string ->
  net_reply w (weather_url loc) = Ok resp ->
  status_code resp <> 200 ->
  response_json resp = Ok (JDict body) ->
  fst (get_forecast self days (Some loc) w)
  = fst (get_forecast self days None w).
Proof.
  intros Hloc Hreply Hstatus Hbody.
  rewrite get_forecast_no_location.
  assert (Ht : location_truthy (Some loc) = Some loc).
  { destruct loc; [contradiction|reflexivity]. }
  unfold get_forecast, forecast_no_weather. rewrite Ht.
  destruct (is_empty (sales_history self)); [reflexivity|].
  set (recent := slice_from (-30) (sales_history self)).
  destruct (is_empty recent); [reflexivity|].
  cbv zeta. unfold iobind at 1. unfold lift at 1.
  destruct (average_sales recent) as [avg|e]; [|reflexivity].
  unfold iobind at 1. unfold lift at 1. unfold bind at 1.
  destruct (scaled_forecast avg days (buffer_factor self days)) as [f|e];
    [|reflexivity].
  unfold iobind, weather_adjust, get_weather_forecast, iobind, requests_get,
    lift, ret.
  rewrite Hreply, Hbody.
  apply Z.eqb_neq in Hstatus. rewrite Hstatus. cbn.
  destruct (dict_lookup "message" body); reflexivity.
Qed.

(** C1: with the network down the lookup raises [ConnectionError] and the
    error leaves [get_forecast], where the call without location returns
    94; a 200 answer without a reading raises [KeyError] and one whose
    temperature is a string raises [TypeError]; only an answer with an
    error status degrades to the forecast without location. *)
Theorem weather_failure_propagates :
  fst (get_forecast apple 7 (Some "London"%string) net_down)
    = Raise ConnectionError /\
  fst (get_forecast apple 7 (Some "London"%string) net_no_reading)
    = Raise KeyError /\
  fst (get_forecast apple 7 (Some "London"%string) net_text_reading)
    = Raise TypeError /\
  fst (get_forecast apple 7 (Some "London"%string) net_unauthorized) = Ok 94 /\
  fst (get_forecast apple 7 None net_down) = Ok 94.
Proof. repeat split; vm_compute; reflexivity. Qed.

(** ** The recent window and the trend *)

Lemma slice_from_last (A : Type) (l : list A) :
  slice_from (-30) l = last_entries 30 l.
Proof.
  unfold slice_from, last_entries, slice_index, len.
  change (-30 <? 0) with true. cbv iota. f_equal. lia.
Qed.

Lemma slice_to_half (A : Type) (l : list A) :
  slice_to (len l / 2) l = firstn (List.length l / 2)%nat l.
Proof.
  unfold slice_to, slice_index, len.
  assert (H : 0 <= Z.of_nat (List.length l) / 2) by (apply Z.div_pos; lia).
  destruct (Z.ltb_spec (Z.of_nat (List.length l) / 2) 0); [lia|].
  f_equal. change 2 with (Z.of_nat 2). rewrite <- Nat2Z.inj_div.
  pose proof (Nat.Div0.div_le_upper_bound (List.length l) 2 (List.length l)).
  lia.
Qed.

Lemma slice_from_half (A : Type) (l : list A) :
  slice_from (len l / 2) l = skipn (List.length l / 2)%nat l.
Proof.
  unfold slice_from, slice_index, len.
  assert (H : 0 <= Z.of_nat (List.length l) / 2) by (apply Z.div_pos; lia).
  destruct (Z.ltb_spec (Z.of_nat (List.length l) / 2) 0); [lia|].
  f_equal. change 2 with (Z.of_nat 2). rewrite <- Nat2Z.inj_div.
  pose proof (Nat.Div0.div_le_upper_bound (List.length l) 2 (List.length l)).
  lia.
Qed.

Lemma recent_nonempty (A : Type) (l : list A) :
  l <> [] -> is_empty (last_entries 30 l) = false.
Proof.
  intros Hl. unfold last_entries.
  destruct (skipn _ l) eqn:E; [|reflexivity].
  apply (f_equal (@List.length A)) in E. rewrite length_skipn in E.
  destruct l; [congruence|]. simpl List.length in E. lia.
Qed.

Lemma is_empty_false (A : Type) (l : list A) : l <> [] -> is_empty l = false.
Proof. destruct l; [congruence|reflexivity]. Qed.

(** [average_sales], the code, against the words of the specification. *)
Lemma average_sales_spec (recent : list (Z * Z)) :
  average_sales recent
  = (avg <- plain_average recent ;;
     if 14 <=? len recent
     then t <- trendFactor recent ;; PyNum.mul avg t
     else Ok avg).
Proof.
  unfold average_sales, plain_average, trendFactor.
  rewrite slice_to_half, slice_from_half. reflexivity.
Qed.

(** With sales on record [get_forecast] is the forecast of line 69 followed
    by the weather step and the clamp, for every location. *)
Lemma get_forecast_finish (self : Product) (days : Z)
    (location : option string) (w : net) :
  sales_history self <> [] ->
  get_forecast self days location w
  = finish_forecast self location
      (avg <- average_sales (last_entries 30 (sales_history self)) ;;
       scaled_forecast avg days (buffer_factor self days)) w.
Proof.
  intros Hne. unfold get_forecast, finish_forecast.
  rewrite (is_empty_false _ _ Hne), slice_from_last.
  rewrite (recent_nonempty _ _ Hne).
  unfold iobind at 1 3. unfold lift at 1 3.
  destruct (average_sales _) as [avg|e]; cbn [bind]; reflexivity.
Qed.

(** C3: for every location, with 14 or more records in the recent window
    (the last [min(30, n)] sales) the forecast is computed from the average
    times the trend factor, the halves split at [floor(n / 2)]; with 13 or
    fewer it is computed from the plain average. *)
Theorem trend_applies_from_14 (self : Product) (days : Z)
    (location : option string) (w : net) :
  sales_history self <> [] ->
  let recent := last_entries 30 (sales_history self) in
  ((14 <= List.length recent)%nat ->
   get_forecast self days location w
   = finish_forecast self location
       (avg <- plain_average recent ;;
        t <- trendFactor recent ;;
        adjusted <- PyNum.mul avg t ;;
        scaled_forecast adjusted days (buffer_factor self days)) w) /\
  ((List.length recent <= 13)%nat ->
   get_forecast self days location w
   = finish_forecast self location
       (avg <- plain_average recent ;;
        scaled_forecast avg days (buffer_factor self days)) w).
Proof.
  intros Hne. cbv zeta.
  rewrite (get_forecast_finish _ _ _ _ Hne), average_sales_spec.
  set (recent := last_entries 30 (sales_history self)).
  split; intros Hlen; f_equal.
  - destruct (Z.leb_spec 14 (len recent)); [|unfold len in *; lia].
    destruct (plain_average recent); simpl; [|reflexivity].
    destruct (trendFactor recent); reflexivity.
  - destruct (Z.leb_spec 14 (len recent)); [unfold len in *; lia|].
    destruct (plain_average recent); reflexivity.
Qed.

(** Fourteen records with a location meet the first half, thirteen the
    second. *)
Lemma trend_applies_from_14_witness :
  let p14 := juice_with_sales [10;10;10;10;10;10;10;20;20;20;20;20;20;20] in
  let p13 := juice_with_sales [10;10;10;10;10;10;20;20;20;20;20;20;20] in
  get_forecast p14 1 (Some "London"%string) net_hot
  = finish_forecast p14 (Some "London"%string)
      (avg <- plain_average (last_entries 30 (sales_history p14)) ;;
       t <- trendFactor (last_entries 30 (sales_history p14)) ;;
       adjusted <- PyNum.mul avg t ;;
       scaled_forecast adjusted 1 (buffer_factor p14 1)) net_hot /\
  get_forecast p13 1 (Some "London"%string) net_hot
  = finish_forecast p13 (Some "London"%string)
      (avg <- plain_average (last_entries 30 (sales_history p13)) ;;
       scaled_forecast avg 1 (buffer_factor p13 1)) net_hot.
Proof.
  cbv zeta. split.
  - apply (proj1 (trend_applies_from_14
                    (juice_with_sales
                       [10;10;10;10;10;10;10;20;20;20;20;20;20;20])
                    1 (Some "London"%string) net_hot
                    ltac:(simpl; discriminate))).
    simpl; lia.
  - apply (proj2 (trend_applies_from_14
                    (juice_with_sales
                       [10;10;10;10;10;10;20;20;20;20;20;20;20])
                    1 (Some "London"%string) net_hot
                    ltac:(simpl; discriminate))).
    simpl; lia.
Defined.

(** Thirteen records, six of 10 then seven of 20: the average 200/13 gives
    16 for one day. Fourteen records, seven of 10 then seven of 20: the
    average 15 doubled by the trend gives 33, where the plain average would
    give 16. *)
Example trend_13_vs_14 :
  fst (get_forecast
         (product_with_sales [10;10;10;10;10;10;20;20;20;20;20;20;20])
         1 None net_down) = Ok 16 /\
  fst (get_forecast
         (product_with_sales [10;10;10;10;10;10;10;20;20;20;20;20;20;20])
         1 None net_down) = Ok 33 /\
  (avg <- plain_average
            (sales_history
               (product_with_sales
                  [10;10;10;10;10;10;10;20;20;20;20;20;20;20])) ;;
   scaled_forecast avg 1 PyFloat.f1_1) = Ok 16.
Proof. repeat split; vm_compute; reflexivity. Qed.

(** The same records for juice in London at 35 degrees: 16 becomes 19 with
    thirteen records, and with fourteen the trend gives 33, which becomes
    39; one request is made. *)
Example trend_13_vs_14_with_location :
  get_forecast
    (juice_with_sales [10;10;10;10;10;10;20;20;20;20;20;20;20])
    1 (Some "London"%string) net_hot
  = (Ok 19, logged (weather_url "London") net_hot) /\
  get_forecast
    (juice_with_sales [10;10;10;10;10;10;10;20;20;20;20;20;20;20])
    1 (Some "London"%string) net_hot
  = (Ok 39, logged (weather_url "London") net_hot).
Proof. split; vm_compute; reflexivity. Qed.

(** ** The buffer *)

Lemma literals_nearest :
  PyFloat.int_truediv 11 10 = Ok PyFloat.f1_1 /\
  PyFloat.int_truediv 12 10 = Ok PyFloat.f1_2 /\
  PyFloat.int_truediv 5 10 = Ok PyFloat.f0_5 /\
  PyFloat.int_truediv 3 10 = Ok PyFloat.f0_3 /\
  PyFloat.int_truediv 2 10 = Ok PyFloat.f0_2.
Proof. repeat split; vm_compute; reflexivity. Qed.

(** C4: for every location, [get_forecast] multiplies by its buffer
    factor last, and that factor is 1.1 exactly when the horizon is at most
    the shelf life and 1.2 exactly when it is longer; so the forecast is
    computed with 1.1 at the shelf life and with 1.2 one day later. The two
    factors are the doubles nearest to 11/10 and 12/10. *)
Theorem buffer_by_shelf_life (self : Product) (days : Z)
    (location : option string) (w : net) :
  sales_history self <> [] ->
  let forecast_with (horizon : Z) (buffer : PyFloat.float) :=
    finish_forecast self location
      (avg <- average_sales (last_entries 30 (sales_history self)) ;;
       x <- PyNum.mul avg (PInt horizon) ;;
       y <- PyNum.mul x (PFloat buffer) ;;
       PyNum.to_int y) w in
  get_forecast self days location w
  = forecast_with days (buffer_factor self days) /\
  (buffer_factor self days = PyFloat.f1_1 <-> days <= shelf_life_days self) /\
  (buffer_factor self days = PyFloat.f1_2 <-> shelf_life_days self < days) /\
  (days <= shelf_life_days self ->
   get_forecast self days location w = forecast_with days PyFloat.f1_1) /\
  (shelf_life_days self < days ->
   get_forecast self days location w = forecast_with days PyFloat.f1_2) /\
  get_forecast self (shelf_life_days self) location w
  = forecast_with (shelf_life_days self) PyFloat.f1_1 /\
  get_forecast self (shelf_life_days self + 1) location w
  = forecast_with (shelf_life_days self + 1) PyFloat.f1_2 /\
  PyFloat.int_truediv 11 10 = Ok PyFloat.f1_1 /\
  PyFloat.int_truediv 12 10 = Ok PyFloat.f1_2.
Proof.
  intros Hne. cbv zeta.
  assert (H : forall d,
            get_forecast self d location w
            = finish_forecast self location
                (avg <- average_sales
                          (last_entries 30 (sales_history self)) ;;
                 x <- PyNum.mul avg (PInt d) ;;
                 y <- PyNum.mul x
                        (PFloat (if shelf_life_days self <? d
                                 then PyFloat.f1_2 else PyFloat.f1_1)) ;;
                 PyNum.to_int y) w).
  { intros d. rewrite (get_forecast_finish _ _ _ _ Hne). reflexivity. }
  split; [exact (get_forecast_finish _ _ _ _ Hne)|].
  unfold buffer_factor. repeat split.
  - destruct (Z.ltb_spec (shelf_life_days self) days); [discriminate|lia].
  - destruct (Z.ltb_spec (shelf_life_days self) days); [lia|reflexivity].
  - destruct (Z.ltb_spec (shelf_life_days self) days); [lia|discriminate].
  - destruct (Z.ltb_spec (shelf_life_days self) days); [reflexivity|lia].
  - intros Hd. rewrite H.
    destruct (Z.ltb_spec (shelf_life_days self) days); [lia|reflexivity].
  - intros Hd. rewrite H.
    destruct (Z.ltb_spec (shelf_life_days self) days); [reflexivity|lia].
  - rewrite H, Z.ltb_irrefl. reflexivity.
  - rewrite H.
    destruct (Z.ltb_spec (shelf_life_days self) (shelf_life_days self + 1));
      [reflexivity|lia].
Qed.

(** The apple at the boundary of its shelf life of 7 days, with a
    location. *)
Lemma buffer_by_shelf_life_witness :
  let forecast_with (horizon : Z) (buffer : PyFloat.float) :=
    finish_forecast apple (Some "London"%string)
      (avg <- average_sales (last_entries 30 (sales_history apple)) ;;
       x <- PyNum.mul avg (PInt horizon) ;;
       y <- PyNum.mul x (PFloat buffer) ;;
       PyNum.to_int y) net_hot in
  buffer_factor apple 7 = PyFloat.f1_1 /\
  buffer_factor apple 8 = PyFloat.f1_2 /\
  get_forecast apple 7 (Some "London"%string) net_hot
  = forecast_with 7 PyFloat.f1_1 /\
  get_forecast apple 8 (Some "London"%string) net_hot
  = forecast_with 8 PyFloat.f1_2.
Proof.
  assert (Hne : sales_history apple <> []) by (simpl; discriminate).
  destruct (buffer_by_shelf_life apple 7 (Some "London"%string) net_hot Hne)
    as (_ & B7 & _ & F7 & _).
  destruct (buffer_by_shelf_life apple 8 (Some "London"%string) net_hot Hne)
    as (_ & _ & B8 & _ & F8 & _).
  cbv zeta in *.
  split; [apply B7; simpl; lia|].
  split; [apply B8; simpl; lia|].
  split; [apply F7; simpl; lia|apply F8; simpl; lia].
Defined.

(** The example at the boundary: 94 for 7 days (buffer 1.1), 118 for 8
    days (buffer 1.2), without a location and with one; for ice cream at
    35 degrees the two become 112 and 141. *)
Example buffer_boundary_sample :
  fst (get_forecast apple 7 None net_down) = Ok 94 /\
  fst (get_forecast apple 8 None net_down) = Ok 118.
Proof. split; vm_compute; reflexivity. Qed.

Example buffer_boundary_with_location :
  fst (get_forecast apple 7 (Some "London"%string) net_hot) = Ok 94 /\
  fst (get_forecast apple 8 (Some "London"%string) net_hot) = Ok 118 /\
  fst (get_forecast ice_cream 7 (Some "London"%string) net_hot) = Ok 112 /\
  fst (get_forecast ice_cream 8 (Some "London"%string) net_hot) = Ok 141.
Proof. repeat split; vm_compute; reflexivity. Qed.

(** * Properties of the supplier ranker *)

(** ** Comparison of floats *)

Lemma lex3_spec (a b : Z * Z * Z) :
  match lex3 a b with
  | Lt => fst (fst a) < fst (fst b) \/
          (fst (fst a) = fst (fst b) /\
           (snd (fst a) < snd (fst b) \/
            (snd (fst a) = snd (fst b) /\ snd a < snd b)))
  | Eq => a = b
  | Gt => fst (fst b) < fst (fst a) \/
          (fst (fst a) = fst (fst b) /\
           (snd (fst b) < snd (fst a) \/
            (snd (fst a) = snd (fst b) /\ snd b < snd a)))
  end.
Proof.
  destruct a as [[a1 a2] a3], b as [[b1 b2] b3]. simpl.
  destruct (Z.compare_spec a1 b1); [|lia|lia].
  destruct (Z.compare_spec a2 b2); [|lia|lia].
  destruct (Z.compare_spec a3 b3); [congruence|lia|lia].
Qed.

Lemma SFcompare_key (f g : PyFloat.float) :
  PyFloat.is_nan f = false -> PyFloat.is_nan g = false ->
  SFcompare f g = Some (lex3 (float_key f) (float_key g)).
Proof.
  destruct f as [s|s| |s m e], g as [t|t| |t n d]; simpl;
    try discriminate; intros _ _;
    try (destruct s; reflexivity); try (destruct t; reflexivity);
    try (destruct s, t; reflexivity).
  destruct s, t; simpl; try reflexivity.
  rewrite Z.compare_opp, (Z.compare_antisym e d).
  destruct (e ?= d); reflexivity.
Qed.

Lemma SFcompare_nan_l (f g : PyFloat.float) :
  PyFloat.is_nan f = true -> SFcompare f g = None.
Proof. destruct f; simpl; try discriminate. reflexivity. Qed.

Lemma SFcompare_nan_r (f g : PyFloat.float) :
  PyFloat.is_nan g = true -> SFcompare f g = None.
Proof. destruct g; simpl; try discriminate. destruct f; reflexivity. Qed.

(** [<] is asymmetric on floats. *)
Lemma float_lt_asym (f g : PyFloat.float) :
  PyNum.lt (PFloat f) (PFloat g) = true ->
  PyNum.lt (PFloat g) (PFloat f) = false.
Proof.
  unfold PyNum.lt. simpl.
  destruct (PyFloat.is_nan f) eqn:Hf.
  { rewrite (SFcompare_nan_l f g Hf). discriminate. }
  destruct (PyFloat.is_nan g) eqn:Hg.
  { rewrite (SFcompare_nan_r f g Hg). discriminate. }
  rewrite (SFcompare_key f g Hf Hg), (SFcompare_key g f Hg Hf).
  pose proof (lex3_spec (float_key f) (float_key g)) as H1.
  pose proof (lex3_spec (float_key g) (float_key f)) as H2.
  destruct (lex3 (float_key f) (float_key g)); try discriminate.
  destruct (lex3 (float_key g) (float_key f)); try reflexivity.
  intros _. exfalso. lia.
Qed.

(** Two floats equal to a third are not strictly ordered. *)
Lemma float_eq_not_lt (f g k : PyFloat.float) :
  num_eqb (PFloat f) (PFloat k) = true ->
  num_eqb (PFloat g) (PFloat k) = true ->
  PyNum.lt (PFloat f) (PFloat g) = false.
Proof.
  unfold num_eqb, PyNum.lt. simpl.
  destruct (PyFloat.is_nan f) eqn:Hf.
  { rewrite (SFcompare_nan_l f k Hf). discriminate. }
  destruct (PyFloat.is_nan g) eqn:Hg.
  { rewrite (SFcompare_nan_l g k Hg). discriminate. }
  destruct (PyFloat.is_nan k) eqn:Hk.
  { rewrite (SFcompare_nan_r f k Hk). discriminate. }
  rewrite (SFcompare_key f k Hf Hk), (SFcompare_key g k Hg Hk),
    (SFcompare_key f g Hf Hg).
  pose proof (lex3_spec (float_key f) (float_key k)) as H1.
  pose proof (lex3_spec (float_key g) (float_key k)) as H2.
  destruct (lex3 (float_key f) (float_key k)); try discriminate.
  destruct (lex3 (float_key g) (float_key k)); try discriminate.
  intros _ _. rewrite H1, <- H2.
  pose proof (lex3_spec (float_key g) (float_key g)) as H3.
  destruct (lex3 (float_key g) (float_key g)); try reflexivity.
  exfalso. lia.
Qed.

(** On floats other than NaN, "not greater" is transitive. *)
Lemma float_not_gt_trans (a b c : pynum) :
  ordered_key a = true -> ordered_key b = true -> ordered_key c = true ->
  PyNum.lt b a = false -> PyNum.lt c b = false -> PyNum.lt c a = false.
Proof.
  destruct a as [|a], b as [|b], c as [|c]; try discriminate. simpl.
  intros Ha Hb Hc. apply negb_true_iff in Ha, Hb, Hc.
  unfold PyNum.lt. simpl.
  rewrite (SFcompare_key b a Hb Ha), (SFcompare_key c b Hc Hb),
    (SFcompare_key c a Hc Ha).
  pose proof (lex3_spec (float_key b) (float_key a)) as H1.
  pose proof (lex3_spec (float_key c) (float_key b)) as H2.
  pose proof (lex3_spec (float_key c) (float_key a)) as H3.
  destruct (lex3 (float_key b) (float_key a)); try discriminate;
    destruct (lex3 (float_key c) (float_key b)); try discriminate;
    destruct (lex3 (float_key c) (float_key a)); try reflexivity;
    intros _ _; exfalso;
    try (rewrite H1 in *); try (rewrite H2 in *); try lia.
Qed.

(** ** The builtin [sorted] *)

Lemma StronglySorted_snoc {A : Type} (R : A -> A -> Prop) (l : list A) (x : A) :
  StronglySorted R l -> Forall (fun y => R y x) l ->
  StronglySorted R (l ++ [x]).
Proof.
  induction 1 as [|a l Hs IH Ha]; intros Hx; simpl.
  - repeat constructor.
  - inversion Hx; subst. constructor; [now apply IH|].
    apply Forall_app. split; [assumption|now constructor].
Qed.

Lemma StronglySorted_rev {A : Type} (R : A -> A -> Prop) (l : list A) :
  StronglySorted R l -> StronglySorted (fun a b => R b a) (rev l).
Proof.
  induction 1 as [|a l Hs IH Ha]; simpl.
  - constructor.
  - apply StronglySorted_snoc; [exact IH|].
    apply Forall_rev. exact Ha.
Qed.

Lemma StronglySorted_map {A B : Type} (f : A -> B) (R : B -> B -> Prop)
    (l : list A) :
  StronglySorted (fun a b => R (f a) (f b)) l -> StronglySorted R (map f l).
Proof.
  induction 1 as [|a l Hs IH Ha]; simpl; constructor; auto.
  apply Forall_map. exact Ha.
Qed.

Lemma StronglySorted_weaken {A : Type} (R S : A -> A -> Prop) (l : list A) :
  (forall a b, In a l -> In b l -> R a b -> S a b) ->
  StronglySorted R l -> StronglySorted S l.
Proof.
  intros H Hs. induction Hs as [|a l Hs IH Ha]; constructor.
  - apply IH. intros; apply H; simpl; auto.
  - rewrite Forall_forall in *. intros b Hb. apply H; simpl; auto.
Qed.

Lemma filter_map_comm {A B : Type} (f : A -> B) (p : B -> bool) (l : list A) :
  filter p (map f l) = map f (filter (fun a => p (f a)) l).
Proof.
  induction l as [|a l IH]; simpl; [reflexivity|].
  destruct (p (f a)); simpl; now rewrite IH.
Qed.

Lemma filter_rev_comm {A : Type} (p : A -> bool) (l : list A) :
  filter p (rev l) = rev (filter p l).
Proof.
  induction l as [|a l IH]; simpl; [reflexivity|].
  rewrite filter_app, IH. simpl. destruct (p a); simpl.
  - reflexivity.
  - now rewrite app_nil_r.
Qed.

Lemma StronglySorted_middle {A : Type} (R : A -> A -> Prop)
    (a1 a2 : list A) (p : A) :
  StronglySorted R (a1 ++ a2) ->
  Forall (fun x => R x p) a1 -> Forall (R p) a2 ->
  StronglySorted R (a1 ++ p :: a2).
Proof.
  induction a1 as [|y t IH]; simpl; intros Hs H1 H2.
  - now constructor.
  - inversion Hs as [|? ? Hs' Hy]; subst. inversion H1; subst.
    constructor; [now apply IH|].
    apply Forall_app in Hy as [Hy1 Hy2].
    apply Forall_app. split; [exact Hy1|]. now constructor.
Qed.

Section SortedFacts.
Context {A : Type}.

Lemma decorate_ok (key : A -> result pynum) (l : list A) d :
  decorate key l = Ok d ->
  map snd d = l /\ Forall (fun p => key (snd p) = Ok (fst p)) d.
Proof.
  revert d. induction l as [|a l IH]; simpl; intros d H.
  - inversion H. split; constructor.
  - destruct (key a) as [k|e] eqn:Hk; simpl in H; [|discriminate].
    destruct (decorate key l) as [d'|e]; simpl in H; [|discriminate].
    inversion H; subst d. destruct (IH d' eq_refl) as [IH1 IH2].
    split; simpl; [now rewrite IH1 | constructor; assumption].
Qed.

Lemma decorate_total (key : A -> result pynum) (l : list A) :
  Forall (fun a => exists k, key a = Ok k) l ->
  exists d, decorate key l = Ok d.
Proof.
  induction 1 as [|a l [k Hk] _ [d Hd]]; simpl.
  - now exists [].
  - rewrite Hk, Hd. simpl. now eexists.
Qed.

Implicit Types (x y z pivot prev : pynum * A).
Implicit Types (l a run rest t : list (pynum * A)).

Lemma insert_pivot_perm a pivot :
  Permutation (a ++ [pivot]) (insert_pivot a pivot).
Proof.
  unfold insert_pivot.
  generalize (bisect (List.length a) pivot a 0 (List.length a)). intros k.
  transitivity ((firstn k a ++ skipn k a) ++ [pivot]).
  - now rewrite firstn_skipn.
  - rewrite <- app_assoc. apply Permutation_app_head.
    symmetry. apply Permutation_cons_append.
Qed.

Lemma binarysort_perm run rest :
  Permutation (run ++ rest) (binarysort run rest).
Proof.
  unfold binarysort. revert run.
  induction rest as [|p t IH]; intros run; simpl.
  - now rewrite app_nil_r.
  - rewrite <- IH. change (p :: t) with ([p] ++ t). rewrite app_assoc.
    apply Permutation_app_tail, insert_pivot_perm.
Qed.

(** The sort returns the elements it was given, whatever their keys. *)
Lemma list_sort_perm l (reverse : bool) :
  Permutation l (list_sort l reverse).
Proof.
  unfold list_sort.
  set (l' := if reverse then rev l else l).
  assert (H : Permutation l l')
    by (destruct reverse; [apply Permutation_rev|reflexivity]).
  destruct (count_run l') as [n d].
  assert (H' : Permutation l'
                 (binarysort (if d then rev (firstn n l') else firstn n l')
                    (skipn n l'))).
  { rewrite <- binarysort_perm.
    transitivity (firstn n l' ++ skipn n l'); [now rewrite firstn_skipn|].
    apply Permutation_app_tail.
    destruct d; [apply Permutation_rev|reflexivity]. }
  destruct reverse; [rewrite <- Permutation_rev|]; now transitivity l'.
Qed.

Lemma list_sort_reverse l :
  list_sort l true = rev (list_sort (rev l) false).
Proof. unfold list_sort. now destruct (count_run (rev l)). Qed.

(** *** The binary search *)

(** When the elements that [pivot] is smaller than are exactly those of
    the second part of [a], the search finds the boundary. *)
Lemma bisect_partition (fuel : nat) pivot a1 a2 (l r : nat) :
  Forall (fun x => key_lt pivot x = false) a1 ->
  Forall (fun x => key_lt pivot x = true) a2 ->
  (l <= List.length a1)%nat -> (List.length a1 <= r)%nat ->
  (r <= List.length (a1 ++ a2))%nat -> (r - l <= fuel)%nat ->
  bisect fuel pivot (a1 ++ a2) l r = List.length a1.
Proof.
  intros H1 H2. rewrite Forall_forall in H1, H2.
  revert l r.
  induction fuel as [|fuel IH]; intros l r Hl Hr Hn Hf; cbn [bisect].
  - lia.
  - destruct (Nat.ltb_spec l r) as [Hlt|Hge]; [|lia].
    assert (Hq : ((r - l) / 2 < r - l)%nat) by (apply Nat.div_lt; lia).
    revert Hq. generalize ((r - l) / 2)%nat. intros q Hq.
    destruct (nth_error (a1 ++ a2) (l + q)) as [x|] eqn:E.
    + destruct (Nat.lt_ge_cases (l + q) (List.length a1)) as [Hp|Hp].
      * rewrite nth_error_app1 in E by exact Hp.
        apply nth_error_In in E. rewrite (H1 x E). apply IH; lia.
      * rewrite nth_error_app2 in E by exact Hp.
        apply nth_error_In in E. rewrite (H2 x E). apply IH; lia.
    + apply nth_error_None in E. lia.
Qed.

Lemma insert_pivot_partition pivot a1 a2 :
  Forall (fun x => key_lt pivot x = false) a1 ->
  Forall (fun x => key_lt pivot x = true) a2 ->
  insert_pivot (a1 ++ a2) pivot = a1 ++ pivot :: a2.
Proof.
  intros H1 H2. unfold insert_pivot.
  rewrite (bisect_partition _ pivot a1 a2 0 _ H1 H2);
    try lia; [|rewrite length_app; lia].
  rewrite firstn_app, Nat.sub_diag, firstn_all. simpl. rewrite app_nil_r.
  rewrite skipn_app, Nat.sub_diag, skipn_all. reflexivity.
Qed.

(** *** Keys other than NaN *)

Lemma key_lt_asym x y :
  ordered_key (fst x) = true -> ordered_key (fst y) = true ->
  key_lt x y = true -> key_lt y x = false.
Proof.
  unfold key_lt. destruct (fst x) as [|fx], (fst y) as [|fy];
    try discriminate. intros _ _. apply float_lt_asym.
Qed.

Lemma key_lt_le_trans x y z :
  ordered_key (fst x) = true -> ordered_key (fst y) = true ->
  ordered_key (fst z) = true ->
  key_lt x y = true -> key_lt z y = false -> key_lt x z = true.
Proof.
  intros Hx Hy Hz Hxy Hzy.
  destruct (key_lt x z) eqn:E; [reflexivity|].
  unfold key_lt in *.
  rewrite (float_not_gt_trans (fst y) (fst z) (fst x) Hy Hz Hx Hzy E) in Hxy.
  discriminate.
Qed.

Lemma run_order_trans (d : bool) x y z :
  run_order d x y -> run_order d y z -> run_order d x z.
Proof.
  intros (Hx & Hy & Hxy) (_ & Hz & Hyz).
  repeat split; try assumption.
  destruct d.
  - apply (key_lt_le_trans z y x); auto. now apply key_lt_asym.
  - unfold key_lt in *.
    apply (float_not_gt_trans (fst x) (fst y) (fst z)); assumption.
Qed.

(** A sorted list splits into the elements not above [pivot] and those
    above it. *)
Lemma sorted_partition pivot a :
  ordered_key (fst pivot) = true ->
  Forall (fun x => ordered_key (fst x) = true) a ->
  StronglySorted key_le a ->
  exists a1 a2,
    a = a1 ++ a2 /\
    Forall (fun x => key_lt pivot x = false) a1 /\
    Forall (fun x => key_lt pivot x = true) a2.
Proof.
  intros Hp Ha Hs. induction Hs as [|y t Hs IH Hy].
  - exists [], []. repeat split; constructor.
  - inversion Ha as [|? ? Oy Ot]; subst.
    destruct (key_lt pivot y) eqn:E.
    + exists [], (y :: t). repeat split; [constructor|].
      constructor; [exact E|].
      rewrite Forall_forall in *. intros z Hz.
      apply (key_lt_le_trans pivot y z); auto. exact (Hy z Hz).
    + destruct (IH Ot) as (a1 & a2 & -> & H1 & H2).
      exists (y :: a1), a2. repeat split; auto.
Qed.

Lemma filter_none (P : pynum * A -> bool) l :
  (forall z, In z l -> P z = false) -> filter P l = [].
Proof.
  induction l as [|y t IH]; intros H; simpl; [reflexivity|].
  rewrite (H y (or_introl eq_refl)). apply IH. intros z Hz. apply H. now right.
Qed.

(** Inserting into a sorted list gives a sorted list, and the elements of
    a class of keys no two of which are strictly ordered stay in their
    order, the new one last. *)
Lemma insert_pivot_sorted pivot a :
  ordered_key (fst pivot) = true ->
  Forall (fun x => ordered_key (fst x) = true) a ->
  StronglySorted key_le a ->
  StronglySorted key_le (insert_pivot a pivot) /\
  forall P : pynum -> bool,
    (forall u v, ordered_key u = true -> ordered_key v = true ->
                 P u = true -> P v = true -> PyNum.lt u v = false) ->
    filter (fun p => P (fst p)) (insert_pivot a pivot)
    = filter (fun p => P (fst p)) (a ++ [pivot]).
Proof.
  intros Hp Ha Hs.
  destruct (sorted_partition pivot a Hp Ha Hs) as (a1 & a2 & -> & H1 & H2).
  rewrite (insert_pivot_partition pivot a1 a2 H1 H2).
  apply Forall_app in Ha as [Ha1 Ha2].
  split.
  - apply StronglySorted_middle; [exact Hs|exact H1|].
    rewrite Forall_forall in *. intros z Hz.
    apply (key_lt_asym pivot z); auto.
  - intros P HP. rewrite !filter_app. simpl.
    destruct (P (fst pivot)) eqn:Pp.
    + rewrite (filter_none _ a2), app_nil_r; [reflexivity|].
      intros z Hz. rewrite Forall_forall in H2, Ha2.
      destruct (P (fst z)) eqn:Pz; [|reflexivity].
      pose proof (HP _ _ Hp (Ha2 z Hz) Pp Pz) as E.
      pose proof (H2 z Hz) as E'. unfold key_lt in E'. congruence.
    + now rewrite !app_nil_r.
Qed.

Lemma binarysort_sorted run rest :
  Forall (fun x => ordered_key (fst x) = true) (run ++ rest) ->
  StronglySorted key_le run ->
  StronglySorted key_le (binarysort run rest) /\
  forall P : pynum -> bool,
    (forall u v, ordered_key u = true -> ordered_key v = true ->
                 P u = true -> P v = true -> PyNum.lt u v = false) ->
    filter (fun p => P (fst p)) (binarysort run rest)
    = filter (fun p => P (fst p)) (run ++ rest).
Proof.
  unfold binarysort. revert run.
  induction rest as [|p t IH]; intros run Ho Hs; simpl.
  - rewrite app_nil_r. split; [exact Hs|reflexivity].
  - assert (Ho' := Ho). apply Forall_app in Ho' as [Hrun Hpt].
    inversion Hpt as [|? ? Op Ot]; subst.
    destruct (insert_pivot_sorted p run Op Hrun Hs) as [Hs' Hf'].
    assert (Ho2 : Forall (fun x => ordered_key (fst x) = true)
                    (insert_pivot run p ++ t)).
    { apply Forall_app. split; [|exact Ot].
      eapply Permutation_Forall; [apply insert_pivot_perm|].
      apply Forall_app. split; [exact Hrun|]. now constructor. }
    destruct (IH _ Ho2 Hs') as [Hs2 Hf2].
    split; [exact Hs2|].
    intros P HP. rewrite (Hf2 P HP), filter_app, (Hf' P HP).
    rewrite <- filter_app, <- app_assoc. reflexivity.
Qed.

(** *** The run at the start *)

Lemma run_more_sorted (d : bool) prev t :
  Forall (fun x => ordered_key (fst x) = true) (prev :: t) ->
  Sorted (run_order d) (prev :: firstn (run_more d prev t) t).
Proof.
  revert prev. induction t as [|x t IH]; intros prev Ho; simpl.
  - repeat constructor.
  - inversion Ho as [|? ? Oprev Ot]; subst.
    destruct (Bool.eqb (key_lt x prev) d) eqn:E; simpl.
    + constructor; [now apply IH|].
      constructor. inversion Ot; subst.
      repeat split; try assumption. now apply eqb_prop.
    + repeat constructor.
Qed.

Lemma count_run_sorted l (n : nat) (d : bool) :
  count_run l = (n, d) ->
  Forall (fun x => ordered_key (fst x) = true) l ->
  StronglySorted (run_order d) (firstn n l).
Proof.
  intros Hc Ho.
  apply Sorted_StronglySorted.
  { intros x y z. apply run_order_trans. }
  destruct l as [|x [|y t]]; simpl in Hc; inversion Hc; subst; simpl.
  - constructor.
  - repeat constructor.
  - inversion Ho as [|? ? Ox Oyt]; subst.
    constructor; [now apply run_more_sorted|].
    constructor. inversion Oyt; subst. repeat split; assumption.
Qed.

(** A strictly descending run has at most one element of a class. *)
Lemma descending_run_filter (P : pynum -> bool) run :
  (forall u v, ordered_key u = true -> ordered_key v = true ->
               P u = true -> P v = true -> PyNum.lt u v = false) ->
  StronglySorted (run_order true) run ->
  filter (fun p => P (fst p)) (rev run) = filter (fun p => P (fst p)) run.
Proof.
  intros HP Hs. rewrite filter_rev_comm.
  induction Hs as [|y t Hs IH Hy]; [reflexivity|].
  simpl. destruct (P (fst y)) eqn:Py; [|exact IH].
  rewrite (filter_none _ t); [reflexivity|].
  intros z Hz. rewrite Forall_forall in Hy.
  destruct (Hy z Hz) as (Oy & Oz & Hlt).
  destruct (P (fst z)) eqn:Pz; [|reflexivity].
  unfold key_lt in Hlt. rewrite (HP _ _ Oz Oy Pz Py) in Hlt. discriminate.
Qed.

(** On keys other than NaN the sort is ascending and stable. *)
Lemma list_sort_sorted l :
  Forall (fun x => ordered_key (fst x) = true) l ->
  StronglySorted key_le (list_sort l false) /\
  forall P : pynum -> bool,
    (forall u v, ordered_key u = true -> ordered_key v = true ->
                 P u = true -> P v = true -> PyNum.lt u v = false) ->
    filter (fun p => P (fst p)) (list_sort l false)
    = filter (fun p => P (fst p)) l.
Proof.
  intros Ho. unfold list_sort.
  destruct (count_run l) as [n d] eqn:Hc.
  pose proof (count_run_sorted l n d Hc Ho) as Hrun.
  assert (Ho' : Forall (fun x => ordered_key (fst x) = true)
                  (firstn n l ++ skipn n l)) by now rewrite firstn_skipn.
  apply Forall_app in Ho' as [Hf Hk].
  destruct d.
  - assert (Hs : StronglySorted key_le (rev (firstn n l))).
    { apply StronglySorted_weaken
        with (R := fun u v => run_order true v u).
      - intros u v Hu Hv (Ov & Ou & Hlt). now apply (key_lt_asym u v).
      - now apply StronglySorted_rev. }
    assert (Ho2 : Forall (fun x => ordered_key (fst x) = true)
                    (rev (firstn n l) ++ skipn n l)).
    { apply Forall_app. split; [now apply Forall_rev|exact Hk]. }
    destruct (binarysort_sorted _ _ Ho2 Hs) as [Hs2 Hf2].
    split; [exact Hs2|].
    intros P HP. rewrite (Hf2 P HP), filter_app.
    rewrite (descending_run_filter P _ HP Hrun), <- filter_app.
    now rewrite firstn_skipn.
  - assert (Hs : StronglySorted key_le (firstn n l)).
    { apply StronglySorted_weaken with (R := run_order false);
        [|exact Hrun].
      intros u v _ _ (_ & _ & Hlt). exact Hlt. }
    assert (Ho2 : Forall (fun x => ordered_key (fst x) = true)
                    (firstn n l ++ skipn n l)).
    { apply Forall_app. now split. }
    destruct (binarysort_sorted _ _ Ho2 Hs) as [Hs2 Hf2].
    split; [exact Hs2|].
    intros P HP. rewrite (Hf2 P HP). now rewrite firstn_skipn.
Qed.
End SortedFacts.

(** ** The builtin [sum], added left to right *)

Lemma sum_left_add_up (l : list pynum) : sum_left l = add_up (PInt 0) l.
Proof.
  unfold sum_left. generalize (PInt 0).
  induction l as [|x t IH]; intros a; simpl; [reflexivity|].
  destruct (PyNum.add a x) as [s|e]; simpl; [apply IH|].
  clear. induction t as [|y t IH]; simpl; [reflexivity|exact IH].
Qed.

Lemma average_sum_left (l : list pynum) :
  l <> [] ->
  average sum_left l = (m <- arithmetic_mean l ;; Ok (Some m)).
Proof.
  unfold average, arithmetic_mean. rewrite sum_left_add_up.
  destruct l as [|x l]; [congruence|]. intros _. cbn [is_empty].
  destruct (add_up (PInt 0) (x :: l)); reflexivity.
Qed.

(** ** Averages and score of a supplier *)

Section RankingFacts.
Variable builtin_sum : list pynum -> result pynum.

Lemma average_none_iff (l : list pynum) :
  average builtin_sum l = Ok None <-> l = [].
Proof.
  unfold average. destruct l as [|x l]; simpl.
  - split; reflexivity.
  - split; [|discriminate].
    destruct (builtin_sum (x :: l)) as [s|e]; simpl; [|discriminate].
    destruct (PyNum.truediv s (PInt (len (x :: l)))); simpl; discriminate.
Qed.

(** With a sum that is exact on integers, the average of integers is the
    double nearest to their sum over their count. *)
Lemma average_ints (zs : list Z) :
  (forall l, builtin_sum (map PInt l) = Ok (PInt (total l))) ->
  zs <> [] ->
  average builtin_sum (map PInt zs)
  = (q <- PyFloat.int_truediv (total zs) (Z.of_nat (List.length zs)) ;;
     Ok (Some (PFloat q))).
Proof.
  intros Hsum Hne. unfold average. rewrite Hsum.
  destruct zs as [|z t]; [congruence|].
  cbn [map is_empty bind PyNum.truediv].
  unfold len. rewrite <- (length_map PInt (z :: t)). cbn [map].
  destruct (PyFloat.int_truediv _ _); reflexivity.
Qed.

Lemma truediv_is_float (a b v : pynum) :
  PyNum.truediv a b = Ok v -> is_float v = true.
Proof.
  unfold PyNum.truediv.
  destruct a as [a|a], b as [b|b]; simpl;
    repeat match goal with
    | |- context [bind ?r _] => destruct r; simpl
    end; intros H; inversion H; reflexivity.
Qed.

Lemma average_is_float (l : list pynum) (v : pynum) :
  average builtin_sum l = Ok (Some v) -> is_float v = true.
Proof.
  unfold average. destruct (is_empty l); [discriminate|].
  destruct (builtin_sum l) as [s|e]; simpl; [|discriminate].
  destruct (PyNum.truediv s (PInt (len l))) as [r|e] eqn:E; simpl;
    [|discriminate].
  intros H; inversion H; subst. eapply truediv_is_float; eauto.
Qed.

Lemma score_is_float (s : Supplier) (v : pynum) :
  score builtin_sum s = Ok v -> is_float v = true.
Proof.
  unfold score.
  destruct (average_delivery_time builtin_sum s) as [d|e]; simpl; [|discriminate].
  destruct (average_cost builtin_sum s) as [c|e]; simpl; [|discriminate].
  destruct (average_quality builtin_sum s) as [q|e]; simpl; [|discriminate].
  destruct (PyNum.mul (or_zero q) _) as [a|e] eqn:Ea; simpl; [|discriminate].
  destruct (PyNum.mul (or_zero d) _) as [b|e] eqn:Eb; simpl; [|discriminate].
  destruct (PyNum.sub a b) as [ab|e] eqn:Eab; simpl; [|discriminate].
  destruct (PyNum.mul (or_zero c) _) as [c'|e] eqn:Ec; simpl; [|discriminate].
  assert (Ha : is_float a = true).
  { unfold PyNum.mul in Ea. destruct (or_zero q); simpl in Ea.
    - destruct (PyFloat.of_int z); simpl in Ea; inversion Ea; reflexivity.
    - inversion Ea; reflexivity. }
  assert (Hab : is_float ab = true).
  { destruct a as [|a]; [discriminate|]. unfold PyNum.sub in Eab.
    destruct b; simpl in Eab.
    - destruct (PyFloat.of_int z); simpl in Eab; inversion Eab; reflexivity.
    - inversion Eab; reflexivity. }
  destruct ab as [|ab]; [discriminate|]. unfold PyNum.sub.
  destruct c'; simpl.
  - destruct (PyFloat.of_int z); simpl; intros H; inversion H; reflexivity.
  - intros H; inversion H; reflexivity.
Qed.

Lemma fmul_comm (x y : PyFloat.float) : PyFloat.fmul x y = PyFloat.fmul y x.
Proof.
  unfold PyFloat.fmul.
  destruct x as [s|s| |s m e], y as [t|t| |t n d]; simpl;
    try reflexivity; try (now rewrite xorb_comm).
  now rewrite xorb_comm, Pos.mul_comm, Z.add_comm.
Qed.

Lemma fsub_feq0 (a a' b b' : PyFloat.float) :
  feq0 a a' -> feq0 b b' -> feq0 (PyFloat.fsub a b) (PyFloat.fsub a' b').
Proof.
  unfold feq0, PyFloat.fsub.
  intros [->|[Ha Ha']] [->|[Hb Hb']].
  - now left.
  - destruct b as [sb| | |]; try discriminate.
    destruct b' as [sb'| | |]; try discriminate.
    destruct a' as [sa|sa| |sa ma ea]; simpl; auto.
    right. destruct sa, sb, sb'; simpl; auto.
  - destruct a as [sa| | |]; try discriminate.
    destruct a' as [sa'| | |]; try discriminate.
    destruct b' as [sb|sb| |sb mb eb]; simpl; auto.
    right. destruct sa, sa', sb; simpl; auto.
  - destruct a as [sa| | |]; try discriminate.
    destruct a' as [sa'| | |]; try discriminate.
    destruct b as [sb| | |]; try discriminate.
    destruct b' as [sb'| | |]; try discriminate.
    right. destruct sa, sa', sb, sb'; simpl; auto.
Qed.

(** One term of the score: the code's [(x or 0) * w] against the
    specification's [w * x] with no data read as 0. *)
Lemma score_term (o : option pynum) (w : PyFloat.float) :
  (forall v, o = Some v -> is_float v = true) ->
  (exists s m e, w = S754_finite s m e) ->
  exists t t',
    PyNum.mul (or_zero o) (PFloat w) = Ok (PFloat t) /\
    PyNum.mul (PFloat w) (no_data_as_zero o) = Ok (PFloat t') /\
    feq0 t t'.
Proof.
  intros Hf (s & m & e & ->).
  destruct o as [[z|f]|].
  - specialize (Hf _ eq_refl). discriminate.
  - simpl. destruct (PyFloat.is_zero f) eqn:Hz; simpl.
    + destruct f as [sf| | |]; try discriminate.
      do 2 eexists. repeat split. right. split; reflexivity.
    + do 2 eexists. repeat split. left. apply fmul_comm.
  - simpl. do 2 eexists. repeat split. right. split; reflexivity.
Qed.



(** ** Ranking *)

End RankingFacts.

Lemma sum_left_ints (zs : list Z) :
  sum_left (map PInt zs) = Ok (PInt (total zs)).
Proof.
  rewrite sum_left_add_up.
  replace (total zs) with (0 + total zs) by lia.
  generalize 0. induction zs as [|z t IH]; intros a; simpl.
  - now rewrite Z.add_0_r.
  - rewrite IH. now rewrite Z.add_assoc.
Qed.


(** The averages of supplier A are 5/2, 110 and 9/2. *)
Example average_sample :
  average_delivery_time sum_left supplier_A
  = (q <- PyFloat.int_truediv 5 2 ;; Ok (Some (PFloat q))) /\
  average_cost sum_left supplier_A
  = (q <- PyFloat.of_int 110 ;; Ok (Some (PFloat q))) /\
  average_quality sum_left supplier_A
  = (q <- PyFloat.int_truediv 9 2 ;; Ok (Some (PFloat q))).
Proof. repeat split; vm_compute; reflexivity. Qed.



(** The ranking of the four sample suppliers: the two without data tie at
    score 0 and stay in input order, ahead of the negative scores. *)
Example ranking_sample :
  recommend_best_suppliers sum_left
    [supplier_A; supplier_C; supplier_B; supplier_D]
  = Ok [supplier_C; supplier_D; supplier_B; supplier_A].
Proof. vm_compute. reflexivity. Qed.

(** With the scores 1, 1, NaN, 1, 1, 1, 2 the best supplier comes third,
    and the first one after it. *)
Example ranking_nan_sample :
  (out <- recommend_best_suppliers sum_left
            [rated "S0" (PInt 2) (PInt 0);
             rated "S1" (PInt 2) (PInt 0);
             rated "S2" (PInt 2) (PFloat S754_nan);
             rated "S3" (PInt 2) (PInt 0);
             rated "S4" (PInt 2) (PInt 0);
             rated "S5" (PInt 2) (PInt 0);
             rated "S6" (PInt 4) (PInt 0)] ;;
   Ok (map supplier_id out))
  = Ok ["S1"; "S2"; "S6"; "S0"; "S3"; "S4"; "S5"]%string.
Proof. vm_compute. reflexivity. Qed.

(** Supplier A of the design notes scores -20.5, that is -41/2. *)
Example score_sample :
  score sum_left supplier_A = (f <- PyFloat.int_truediv (-41) 2 ;; Ok (PFloat f)).
Proof. vm_compute. reflexivity. Qed.

(** ** The forecast returns on inputs of moderate size *)

Lemma sum_ints_bound (l : list Z) (B : Z) :
  0 <= B -> Forall (fun q => Z.abs q < B) l ->
  Z.abs (sum_ints l) <= len l * B.
Proof.
  intros HB H. induction H as [|q l Hq _ IH].
  - unfold sum_ints, len. simpl. lia.
  - rewrite sum_ints_cons. unfold len in *. cbn [List.length].
    rewrite Nat2Z.inj_succ. lia.
Qed.

Lemma Forall_skipn_of (A : Type) (P : A -> Prop) (n : nat) (l : list A) :
  Forall P l -> Forall P (skipn n l).
Proof.
  intros H. revert n. induction H as [|x l Hx Hl IH]; intros [|n]; simpl.
  - constructor.
  - constructor.
  - now constructor.
  - apply IH.
Qed.

Lemma Forall_firstn_of (A : Type) (P : A -> Prop) (n : nat) (l : list A) :
  Forall P l -> Forall P (firstn n l).
Proof.
  intros H. revert n. induction H as [|x l Hx Hl IH]; intros [|n]; simpl.
  - constructor.
  - constructor.
  - constructor.
  - constructor; [exact Hx|apply IH].
Qed.

Lemma last_entries_length (A : Type) (l : list A) :
  (List.length (last_entries 30 l) <= 30)%nat.
Proof. unfold last_entries. rewrite length_skipn. lia. Qed.

(** The sum of at most 30 small quantities is below [2 ^ 261]. *)
Lemma small_sum (l : list (Z * Z)) :
  Forall (fun sale => small (snd sale)) l -> (List.length l <= 30)%nat ->
  Z.abs (sum_ints (map snd l)) < 2 ^ 261.
Proof.
  intros H Hlen.
  assert (Hb : Z.abs (sum_ints (map snd l)) <= len (map snd l) * 2 ^ 256).
  { apply sum_ints_bound; [lia|]. apply Forall_map. exact H. }
  unfold len in Hb. rewrite length_map in Hb.
  change (2 ^ 261) with (32 * 2 ^ 256).
  assert (0 < 2 ^ 256) by (apply pow2_pos; lia). nia.
Qed.

Lemma fbound_f1_1 : fbound 1 PyFloat.f1_1.
Proof. unfold PyFloat.f1_1. simpl. lia. Qed.

Lemma fbound_f1_2 : fbound 1 PyFloat.f1_2.
Proof. unfold PyFloat.f1_2. simpl. lia. Qed.

(** The adjusted average of a window of small sales is a float below
    [2 ^ 525]. *)
Lemma average_sales_returns (recent : list (Z * Z)) :
  recent <> [] -> (List.length recent <= 30)%nat ->
  Forall (fun sale => small (snd sale)) recent ->
  exists a, average_sales recent = Ok (PFloat a) /\ fbound 525 a.
Proof.
  intros Hne Hlen Hsmall. unfold average_sales.
  assert (Hl : len recent <> 0).
  { unfold len. destruct recent; [congruence|]. cbn [List.length]. lia. }
  destruct (int_truediv_spec (sum_ints (map snd recent)) (len recent) 261)
    as (avg & Eavg & Bavg & _); [exact Hl|now apply small_sum|lia|].
  cbn [PyNum.truediv]. rewrite Eavg. cbn [bind].
  destruct (14 <=? len recent).
  2:{ exists avg. split; [reflexivity|]. eapply fbound_mono; [exact Bavg|lia]. }
  set (fh := sum_ints (map snd (slice_to (len recent / 2) recent))).
  set (sh := sum_ints (map snd (slice_from (len recent / 2) recent))).
  destruct (0 <? fh) eqn:Hfh.
  - apply Z.ltb_lt in Hfh.
    destruct (int_truediv_spec sh fh 261) as (tf & Etf & Btf & _);
      [lia| |lia|].
    { apply small_sum.
      - apply Forall_skipn_of. exact Hsmall.
      - unfold slice_from. rewrite length_skipn. lia. }
    rewrite Etf. cbn [bind PyNum.mul PyNum.as_float].
    eexists. split; [reflexivity|].
    apply fmul_fbound with (Kx := 262) (Ky := 262); auto; lia.
  - cbn [bind PyNum.mul PyNum.as_float].
    destruct (of_int_spec 1 1) as (one & Eone & Bone & _);
      [simpl; lia|lia|].
    rewrite Eone. cbn [bind].
    eexists. split; [reflexivity|].
    apply fmul_fbound with (Kx := 262) (Ky := 2); auto; lia.
Qed.

(** Scaling a bounded average by a small horizon and a buffer returns. *)
Lemma scaled_forecast_returns (a : PyFloat.float) (days : Z)
    (buffer : PyFloat.float) :
  fbound 525 a -> small days -> fbound 1 buffer ->
  exists n, scaled_forecast (PFloat a) days buffer = Ok n /\
            Z.abs n < 2 ^ 785.
Proof.
  intros Ba Hd Bb. unfold scaled_forecast.
  destruct (of_int_spec days 256) as (d & Ed & Bd & _); [exact Hd|lia|].
  cbn [PyNum.mul PyNum.as_float]. rewrite Ed. cbn [bind PyNum.to_int].
  apply to_int_bound; [|lia].
  apply fmul_fbound with (Kx := 783) (Ky := 1); auto; try lia.
  apply fmul_fbound with (Kx := 525) (Ky := 257); auto; lia.
Qed.

Lemma buffer_factor_fbound (self : Product) (days : Z) :
  fbound 1 (buffer_factor self days).
Proof.
  unfold buffer_factor.
  destruct (shelf_life_days self <? days);
    [apply fbound_f1_2|apply fbound_f1_1].
Qed.

Lemma forecast_no_weather_returns (self : Product) (days : Z) :
  small_sales self -> small days ->
  exists n, forecast_no_weather self days = Ok n /\ 0 <= n < 2 ^ 785.
Proof.
  intros Hs Hd. unfold forecast_no_weather.
  assert (P : 0 < 2 ^ 785) by (apply pow2_pos; lia).
  destruct (sales_history self) as [|x l] eqn:E.
  { exists 0. split; [reflexivity|lia]. }
  cbn [is_empty]. rewrite slice_from_last.
  rewrite recent_nonempty by discriminate.
  destruct (average_sales_returns (last_entries 30 (x :: l)))
    as (a & Ea & Ba).
  - intros Hnil. pose proof (recent_nonempty _ (x :: l) ltac:(discriminate)) as R.
    rewrite Hnil in R. discriminate.
  - apply last_entries_length.
  - unfold last_entries. apply Forall_skipn_of.
    unfold small_sales in Hs. now rewrite E in Hs.
  - rewrite Ea. cbn [bind].
    destruct (scaled_forecast_returns a days (buffer_factor self days) Ba Hd
                (buffer_factor_fbound self days)) as (n & -> & Hn).
    cbn [bind]. eexists. split; [reflexivity|]. lia.
Qed.

Lemma forecast_no_weather_zero_iff (self : Product) (days : Z) :
  forecast_no_weather self days = Ok 0 <-> sales_history self = [].
Proof.
  unfold forecast_no_weather.
  destruct (sales_history self) as [|x l] eqn:E.
  - split; reflexivity.
  - cbn [is_empty]. rewrite slice_from_last.
    rewrite recent_nonempty by discriminate.
    split; [|discriminate].
    destruct (average_sales _); cbn [bind]; [|discriminate].
    destruct (scaled_forecast _ _ _); cbn [bind]; [|discriminate].
    intros H. inversion H. lia.
Qed.

Lemma forecast_no_weather_ge_1 (self : Product) (days n : Z) :
  sales_history self <> [] -> forecast_no_weather self days = Ok n -> 1 <= n.
Proof.
  unfold forecast_no_weather.
  destruct (sales_history self) as [|x l] eqn:E; [congruence|]. intros _.
  cbn [is_empty]. rewrite slice_from_last.
  rewrite recent_nonempty by discriminate.
  destruct (average_sales _); cbn [bind]; [|discriminate].
  destruct (scaled_forecast _ _ _); cbn [bind]; [|discriminate].
  intros H. inversion H. lia.
Qed.

(** C2, as the code has it: without location the forecast is 0 exactly for
    an empty history; for a non-empty history a returned forecast is at
    least 1, and the call returns whenever the quantities sold and the
    horizon are below [2 ^ 256] in absolute value. *)
Theorem forecast_zero_or_at_least_one (self : Product) (days : Z) (w : net) :
  (fst (get_forecast self days None w) = Ok 0 <-> sales_history self = []) /\
  (sales_history self <> [] ->
   forall n, fst (get_forecast self days None w) = Ok n -> 1 <= n) /\
  (sales_history self <> [] -> small_sales self -> 1 <= days < 2 ^ 256 ->
   exists n, fst (get_forecast self days None w) = Ok n /\ 1 <= n).
Proof.
  rewrite get_forecast_no_location. cbn [fst].
  split; [apply forecast_no_weather_zero_iff|]. split.
  - intros Hne n. now apply forecast_no_weather_ge_1.
  - intros Hne Hs Hd.
    destruct (forecast_no_weather_returns self days Hs) as (n & Hn & _).
    { unfold small. lia. }
    exists n. split; [exact Hn|]. eapply forecast_no_weather_ge_1; eauto.
Qed.

Lemma forecast_zero_or_at_least_one_witness :
  sales_history apple <> [] /\ small_sales apple /\ 1 <= 7 < 2 ^ 256 /\
  exists n, fst (get_forecast apple 7 None net_down) = Ok n /\ 1 <= n.
Proof.
  assert (H1 : sales_history apple <> []) by (simpl; discriminate).
  assert (H2 : small_sales apple).
  { unfold small_sales, small, apple. simpl.
    repeat constructor; simpl; reflexivity. }
  assert (H3 : 1 <= 7 < 2 ^ 256) by (split; [lia|reflexivity]).
  repeat split; try assumption; try lia.
  exact (proj2 (proj2 (forecast_zero_or_at_least_one apple 7 net_down)) H1 H2 H3).
Defined.

(** C2, as stated, fails beyond the range of a double: the horizon
    [2 ^ 1024] has no float, and the call raises instead of returning. *)
Lemma forecast_overflow_counterexample :
  sales_history apple <> [] /\ 1 <= 2 ^ 1024 /\
  fst (get_forecast apple (2 ^ 1024) None net_down) = Raise OverflowError.
Proof.
  split; [simpl; discriminate|]. split; [discriminate|].
  vm_compute. reflexivity.
Qed.

(** ** The recommended order *)

Lemma forecast_no_weather_nonneg (self : Product) (days n : Z) :
  forecast_no_weather self days = Ok n -> 0 <= n.
Proof.
  destruct (sales_history self) as [|x l] eqn:E.
  - unfold forecast_no_weather. rewrite E. cbn [is_empty].
    intros H. injection H as <-. lia.
  - intros H. apply forecast_no_weather_ge_1 in H; [lia|].
    rewrite E. discriminate.
Qed.

(** [max_order] is a float that is not negative and not a NaN. *)
Lemma max_order_sign (self : Product) (forecast days : Z) (mo : pynum) :
  0 < days -> 0 <= shelf_life_days self -> 0 <= forecast ->
  max_order_of self forecast days = Ok mo ->
  exists m, mo = PFloat m /\ fsign m = Some false.
Proof.
  intros Hd Hs Hf. unfold max_order_of. cbn [PyNum.truediv].
  destruct (PyFloat.int_truediv (shelf_life_days self) days) as [r|] eqn:Er;
    cbn [bind]; [|discriminate].
  destruct (int_truediv_sign _ _ _ Er) as [Sr Fr].
  cbn [PyNum.mul PyNum.as_float].
  destruct (PyFloat.of_int forecast) as [ff|] eqn:Ef; cbn [bind];
    [|discriminate].
  destruct (of_int_sign _ _ Ef) as [Sf Ff].
  intros H. injection H as <-. eexists. split; [reflexivity|].
  rewrite (fmul_sign_finite ff r _ _ Ff Fr Sf Sr).
  destruct (Z.ltb_spec forecast 0), (Z.ltb_spec (shelf_life_days self) 0),
    (Z.ltb_spec days 0); try lia. reflexivity.
Qed.

Lemma num_leb_int_float (n : Z) (m : PyFloat.float) :
  PyFloat.compare_int m n = Some Eq \/ PyFloat.compare_int m n = Some Gt ->
  num_leb (PInt n) (PFloat m) = true.
Proof.
  unfold num_leb. cbn [PyNum.compare]. intros [->| ->]; reflexivity.
Qed.

Lemma compare_int_not_lt (m : PyFloat.float) (n : Z) :
  fsign m = Some false ->
  PyNum.lt (PFloat m) (PInt n) = false ->
  PyFloat.compare_int m n = Some Eq \/ PyFloat.compare_int m n = Some Gt.
Proof.
  unfold PyNum.lt. cbn [PyNum.compare]. intros Hs.
  destruct (PyFloat.compare_int m n) as [[| |]|] eqn:E; auto; try discriminate.
  destruct m; simpl in Hs, E; discriminate.
Qed.

(** The order is capped: a returned order is not negative and not above
    [max_order]. *)
Lemma recommended_order_capped (self : Product) (days n forecast : Z)
    (mo : pynum) (w : net) :
  0 < days -> 0 <= shelf_life_days self ->
  fst (get_recommended_order self days w) = Ok n ->
  fst (get_forecast self days None w) = Ok forecast ->
  max_order_of self forecast days = Ok mo ->
  0 <= n /\ num_leb (PInt n) mo = true.
Proof.
  intros Hd Hs Hn Hf Hmo.
  rewrite get_forecast_no_location in Hf. cbn [fst] in Hf.
  pose proof (forecast_no_weather_nonneg _ _ _ Hf) as Hf0.
  destruct (max_order_sign self forecast days mo Hd Hs Hf0 Hmo)
    as (m & -> & Sm).
  unfold get_recommended_order in Hn. unfold iobind at 1 in Hn.
  rewrite get_forecast_no_location, Hf in Hn.
  unfold iobind at 1 in Hn. unfold lift at 1 in Hn.
  destruct (if 0 <? forecast then _ else _) as [csd|]; [|discriminate].
  destruct (PyNum.ge csd (PInt days)).
  { cbn in Hn. injection Hn as <-. split; [lia|].
    apply num_leb_int_float, compare_int_nonneg, Sm. }
  unfold max_order_of in Hmo.
  unfold iobind at 1 in Hn. unfold lift at 1 in Hn.
  destruct (PyNum.truediv (PInt (shelf_life_days self)) (PInt days))
    as [ratio|]; cbn [bind] in Hmo; [|discriminate].
  unfold iobind at 1 in Hn. unfold lift at 1 in Hn. rewrite Hmo in Hn.
  unfold iobind, lift, ret in Hn. unfold PyNum.min in Hn.
  destruct (PyNum.lt (PFloat m) (PInt (forecast - inventory self))) eqn:Hlt.
  - cbn [PyNum.to_int] in Hn.
    destruct (PyFloat.to_int m) as [t|] eqn:Et; [|discriminate].
    cbn in Hn. injection Hn as <-.
    destruct (to_int_below m t Sm Et) as [Ht Hc].
    rewrite Z.max_r by lia. split; [lia|].
    now apply num_leb_int_float.
  - cbn in Hn. injection Hn as <-. split; [lia|].
    apply num_leb_int_float.
    destruct (Z.max_spec 0 (forecast - inventory self)) as [[_ ->]|[_ ->]].
    + now apply compare_int_not_lt.
    + now apply compare_int_nonneg.
Qed.

Lemma flow_not_zero (L : Z) (f : PyFloat.float) :
  flow L f -> PyFloat.is_zero f = false.
Proof. destruct f; simpl; try contradiction. reflexivity. Qed.

Lemma to_int_finite (f : PyFloat.float) :
  is_finite f = true -> exists t, PyFloat.to_int f = Ok t.
Proof. destruct f; try discriminate; intros _; eexists; reflexivity. Qed.

Lemma lt_int_finite (m : PyFloat.float) (n : Z) :
  fsign m = Some false -> PyNum.lt (PFloat m) (PInt n) = true ->
  is_finite m = true.
Proof.
  unfold PyNum.lt. cbn [PyNum.compare].
  destruct m as [s|s| |s mm e]; simpl; intros Hs; try reflexivity;
    try discriminate.
  injection Hs as ->. discriminate.
Qed.

(** On inputs of moderate size the order is computed without an error. *)
Lemma recommended_order_returns (self : Product) (days : Z) (w : net) :
  0 < days -> 0 <= shelf_life_days self ->
  small_sales self -> small days -> small (shelf_life_days self) ->
  small (inventory self) ->
  exists n forecast mo,
    fst (get_recommended_order self days w) = Ok n /\
    fst (get_forecast self days None w) = Ok forecast /\
    max_order_of self forecast days = Ok mo.
Proof.
  intros Hd Hs Hsales Hdays Hshelf Hinv.
  destruct (forecast_no_weather_returns self days Hsales Hdays)
    as (f & Ef & Hf).
  unfold get_recommended_order. unfold iobind at 1.
  rewrite get_forecast_no_location, Ef. cbn [fst].
  (* the stock-days quotient *)
  assert (Hcsd : exists csd,
            (if 0 <? f
             then rate <- PyNum.truediv (PInt f) (PInt days) ;;
                  PyNum.truediv (PInt (inventory self)) rate
             else Ok (PInt 0)) = Ok csd).
  { destruct (Z.ltb_spec 0 f) as [Hpos|_]; [|now eexists].
    destruct (int_truediv_spec f days 785) as (r & Er & _ & _ & Fr);
      [lia|lia|lia|].
    cbn [PyNum.truediv]. rewrite Er. cbn [bind PyNum.as_float].
    destruct (of_int_spec (inventory self) 256) as (i & Ei & _);
      [exact Hinv|lia|].
    rewrite Ei. cbn [bind]. unfold PyFloat.fdiv.
    assert (Dd : Zdigits2 (Z.abs days) <= 1074).
    { unfold small in Hdays.
      pose proof (Zdigits2_le (Z.abs days) 256 ltac:(lia) ltac:(lia) Hdays).
      lia. }
    rewrite (flow_not_zero _ r (Fr ltac:(lia) Dd)). cbn [bind]. now eexists. }
  destruct Hcsd as [csd ->].
  unfold iobind at 1. unfold lift at 1.
  (* the cap *)
  destruct (int_truediv_spec (shelf_life_days self) days 256)
    as (r & Er & _); [lia|exact Hshelf|lia|].
  destruct (of_int_spec f 785) as (ff & Eff & _); [lia|lia|].
  assert (Emo : max_order_of self f days = Ok (PFloat (PyFloat.fmul ff r))).
  { unfold max_order_of. cbn [PyNum.truediv]. rewrite Er. cbn [bind].
    cbn [PyNum.mul PyNum.as_float]. rewrite Eff. reflexivity. }
  destruct (max_order_sign self f days _ Hd Hs ltac:(lia) Emo)
    as (m & Em & Sm).
  injection Em as Em.
  destruct (PyNum.ge csd (PInt days)).
  { exists 0, f, (PFloat (PyFloat.fmul ff r)). repeat split; auto. }
  unfold iobind at 1. unfold lift at 1.
  cbn [PyNum.truediv]. rewrite Er. cbn [bind].
  unfold iobind at 1. unfold lift at 1.
  cbn [PyNum.mul PyNum.as_float]. rewrite Eff. cbn [bind].
  unfold iobind, lift, ret, PyNum.min. rewrite Em.
  destruct (PyNum.lt (PFloat m) (PInt (f - inventory self))) eqn:Hlt.
  - destruct (to_int_finite m (lt_int_finite m _ Sm Hlt)) as [t Et].
    cbn [PyNum.to_int]. rewrite Et.
    exists (Z.max 0 t), f, (PFloat m). repeat split; auto.
    now rewrite <- Em.
  - cbn [PyNum.to_int].
    exists (Z.max 0 (f - inventory self)), f, (PFloat m).
    repeat split; auto. now rewrite <- Em.
Qed.

(** C5, as the code has it: for a positive horizon and a shelf life that
    is not negative, a returned order is an integer that is not negative
    and not above [max_order], the float product
    [forecast * (shelf_life_days / days)], with [forecast] the forecast
    without location; and the order is returned whenever the quantities
    sold, the horizon, the shelf life and the inventory are below
    [2 ^ 256] in absolute value. *)
Theorem recommended_order_within_cap (self : Product) (days : Z) (w : net) :
  0 < days -> 0 <= shelf_life_days self ->
  (forall n forecast mo,
     fst (get_recommended_order self days w) = Ok n ->
     fst (get_forecast self days None w) = Ok forecast ->
     max_order_of self forecast days = Ok mo ->
     0 <= n /\ num_leb (PInt n) mo = true) /\
  (small_sales self -> small days -> small (shelf_life_days self) ->
   small (inventory self) ->
   exists n forecast mo,
     fst (get_recommended_order self days w) = Ok n /\
     fst (get_forecast self days None w) = Ok forecast /\
     max_order_of self forecast days = Ok mo /\
     0 <= n /\ num_leb (PInt n) mo = true).
Proof.
  intros Hd Hs. split.
  - intros n forecast mo. now apply recommended_order_capped.
  - intros Hsales Hdays Hshelf Hinv.
    destruct (recommended_order_returns self days w Hd Hs Hsales Hdays
                Hshelf Hinv) as (n & f & mo & Hn & Hf & Hmo).
    exists n, f, mo. repeat split; auto;
      eapply (recommended_order_capped self days n f mo w); eauto.
Qed.

Lemma recommended_order_within_cap_witness :
  0 < 7 /\ 0 <= shelf_life_days apple /\
  small_sales apple /\ small 7 /\ small (shelf_life_days apple) /\
  small (inventory apple) /\
  exists n forecast mo,
    fst (get_recommended_order apple 7 net_down) = Ok n /\
    fst (get_forecast apple 7 None net_down) = Ok forecast /\
    max_order_of apple forecast 7 = Ok mo /\
    0 <= n /\ num_leb (PInt n) mo = true.
Proof.
  assert (H1 : 0 < 7) by lia.
  assert (H2 : 0 <= shelf_life_days apple) by (simpl; lia).
  assert (H3 : small_sales apple).
  { unfold small_sales, small, apple. simpl.
    repeat constructor; simpl; reflexivity. }
  assert (H4 : small 7) by reflexivity.
  assert (H5 : small (shelf_life_days apple)) by reflexivity.
  assert (H6 : small (inventory apple)) by reflexivity.
  repeat (split; [assumption|]).
  exact (proj2 (recommended_order_within_cap apple 7 net_down H1 H2)
           H3 H4 H5 H6).
Defined.

(** C5, as stated, fails in two ways. For one sale of 8208096721331 units,
    shelf life 26 and horizon 47, the forecast is 462936655083068 and the
    order 256092617705527, above 462936655083068 * 26 / 47; the float
    [max_order] was rounded up to that integer. And for the horizon
    [2 ^ 1024] the call raises instead of returning. *)
Lemma recommended_order_counterexample :
  fst (get_forecast bulk_product 47 None net_down) = Ok 462936655083068 /\
  fst (get_recommended_order bulk_product 47 net_down) = Ok 256092617705527 /\
  462936655083068 * shelf_life_days bulk_product < 256092617705527 * 47 /\
  fst (get_recommended_order apple (2 ^ 1024) net_down) = Raise OverflowError.
Proof. repeat split; vm_compute; reflexivity. Qed.

(** ** The forecast grows with the horizon *)

Lemma sum_ints_nonneg (l : list Z) :
  Forall (fun q => 0 <= q) l -> 0 <= sum_ints l.
Proof.
  induction 1 as [|q l Hq _ IH].
  - unfold sum_ints. simpl. lia.
  - rewrite sum_ints_cons. lia.
Qed.

Lemma int_truediv_fgood (a b : Z) (f : PyFloat.float) :
  0 <= a -> 0 < b -> PyFloat.int_truediv a b = Ok f ->
  fgood f /\ is_finite f = true.
Proof.
  intros Ha Hb H. destruct (int_truediv_sign a b f H) as [Hs Hf].
  split; [|exact Hf].
  revert H. unfold PyFloat.int_truediv.
  destruct (Z.eqb_spec b 0) as [|Hb0]; [lia|].
  rewrite (exact_nonzero b Hb0).
  destruct (Z.eq_dec a 0) as [->|Hne].
  { cbn [PyFloat.exact SFdiv]. intros H. injection H as <-. exact I. }
  rewrite (exact_nonzero a Hne). cbn [SFdiv].
  destruct (SFdiv_core_bounds (Z.to_pos (Z.abs a)) (Z.to_pos (Z.abs b)) 0 0)
    as (q & e' & l & -> & Hq & _).
  pose proof (binary_round_aux_fgood (xorb (a <? 0) (b <? 0)) q e' l Hq) as G.
  destruct (binary_round_aux _ _ _ q e' l) as [s|s| |s m e];
    intros H; try discriminate; injection H as <-; try exact I.
  cbn [fgood]. destruct G as [-> He]. split; [|exact He].
  destruct (Z.ltb_spec a 0), (Z.ltb_spec b 0); try lia. reflexivity.
Qed.

Lemma fmul_fgood (x y : PyFloat.float) :
  fgood x -> fgood y -> fgood (PyFloat.fmul x y).
Proof.
  intros Gx Gy. unfold PyFloat.fmul.
  destruct x as [sx|sx| |sx mx ex], y as [sy|sy| |sy my ey];
    cbn [SFmul]; try exact I.
  destruct Gx as [-> _], Gy as [-> _].
  pose proof (binary_round_aux_fgood (xorb false false)
                (Zpos (mx * my)) (ex + ey) loc_Exact ltac:(lia)) as G.
  destruct (binary_round_aux _ _ _ _ _ _); try exact I. exact G.
Qed.

(** With no negative quantity the adjusted average is a float that is not
    negative. *)
Lemma average_sales_good (recent : list (Z * Z)) (v : pynum) :
  Forall (fun sale => 0 <= snd sale) recent -> recent <> [] ->
  average_sales recent = Ok v ->
  exists a, v = PFloat a /\ fgood a.
Proof.
  intros Hq Hne. unfold average_sales.
  assert (Hl : 0 < len recent).
  { unfold len. destruct recent; [congruence|]. cbn [List.length]. lia. }
  assert (Ht : 0 <= sum_ints (map snd recent)).
  { apply sum_ints_nonneg, Forall_map. exact Hq. }
  cbn [PyNum.truediv].
  destruct (PyFloat.int_truediv _ (len recent)) as [avg|] eqn:Ea;
    cbn [bind]; [|discriminate].
  destruct (int_truediv_fgood _ _ _ Ht Hl Ea) as [Ga Fa].
  destruct (14 <=? len recent).
  2:{ intros H. injection H as <-. now exists avg. }
  set (fh := sum_ints (map snd (slice_to (len recent / 2) recent))).
  set (sh := sum_ints (map snd (slice_from (len recent / 2) recent))).
  assert (Hsh : 0 <= sh).
  { apply sum_ints_nonneg, Forall_map. unfold slice_from.
    apply Forall_skipn_of. exact Hq. }
  destruct (Z.ltb_spec 0 fh) as [Hfh|Hfh].
  - destruct (PyFloat.int_truediv sh fh) as [tf|] eqn:Et; cbn [bind];
      [|discriminate].
    destruct (int_truediv_fgood _ _ _ Hsh Hfh Et) as [Gt Ft].
    cbn [PyNum.mul PyNum.as_float bind].
    intros H. injection H as <-. eexists. split; [reflexivity|].
    now apply fmul_fgood.
  - cbn [bind PyNum.mul PyNum.as_float].
    destruct (PyFloat.of_int 1) as [one|] eqn:E1; cbn [bind]; [|discriminate].
    destruct (of_int_units 1 one ltac:(lia) E1) as (_ & G1 & _).
    intros H. injection H as <-. eexists. split; [reflexivity|].
    now apply fmul_fgood.
Qed.

Lemma fmul_not_finite_l (x y : PyFloat.float) :
  is_finite x = false -> PyFloat.is_zero y = false ->
  is_finite (PyFloat.fmul x y) = false.
Proof.
  unfold PyFloat.fmul.
  destruct x as [sx|sx| |sx mx ex], y as [sy|sy| |sy my ey];
    simpl; try discriminate; reflexivity.
Qed.

Lemma to_int_is_finite (f : PyFloat.float) (n : Z) :
  PyFloat.to_int f = Ok n -> is_finite f = true.
Proof. destruct f; simpl; try discriminate; reflexivity. Qed.

Lemma fgood_buffer (self : Product) (days : Z) :
  fgood (buffer_factor self days) /\
  is_finite (buffer_factor self days) = true /\
  PyFloat.is_zero (buffer_factor self days) = false.
Proof.
  unfold buffer_factor. destruct (shelf_life_days self <? days);
    repeat split; cbn; lia.
Qed.

(** For one average and one buffer, a longer horizon does not give a
    smaller scaled forecast. *)
Lemma scaled_forecast_mono (a buffer : PyFloat.float) (h1 h2 n1 n2 : Z) :
  fgood a -> fgood buffer -> is_finite buffer = true ->
  PyFloat.is_zero buffer = false ->
  1 <= h1 <= h2 ->
  scaled_forecast (PFloat a) h1 buffer = Ok n1 ->
  scaled_forecast (PFloat a) h2 buffer = Ok n2 ->
  n1 <= n2.
Proof.
  intros Ga Gb Fb Zb Hh. unfold scaled_forecast.
  cbn [PyNum.mul PyNum.as_float bind].
  destruct (PyFloat.of_int h1) as [d1|] eqn:E1; cbn [bind]; [|discriminate].
  destruct (PyFloat.of_int h2) as [d2|] eqn:E2; cbn [bind]; [|discriminate].
  destruct (of_int_units h1 d1 ltac:(lia) E1) as (V1 & G1 & F1 & Z1).
  destruct (of_int_units h2 d2 ltac:(lia) E2) as (V2 & G2 & F2 & Z2).
  cbn [PyNum.to_int]. intros T1 T2.
  pose proof (to_int_is_finite _ _ T1) as Fy1.
  pose proof (to_int_is_finite _ _ T2) as Fy2.
  (* every intermediate float is finite, or the truncation had raised *)
  assert (Fx1 : is_finite (PyFloat.fmul a d1) = true).
  { destruct (is_finite (PyFloat.fmul a d1)) eqn:E; [reflexivity|].
    rewrite (fmul_not_finite_l _ buffer E Zb) in Fy1. discriminate. }
  assert (Fx2 : is_finite (PyFloat.fmul a d2) = true).
  { destruct (is_finite (PyFloat.fmul a d2)) eqn:E; [reflexivity|].
    rewrite (fmul_not_finite_l _ buffer E Zb) in Fy2. discriminate. }
  assert (Fa : is_finite a = true).
  { destruct (is_finite a) eqn:E; [reflexivity|].
    rewrite (fmul_not_finite_l a d1 E Z1) in Fx1. discriminate. }
  pose proof (fmul_fgood a d1 Ga G1) as Gx1.
  pose proof (fmul_fgood a d2 Ga G2) as Gx2.
  pose proof (fmul_fgood _ buffer Gx1 Gb) as Gy1.
  pose proof (fmul_fgood _ buffer Gx2 Gb) as Gy2.
  rewrite (to_int_units _ _ Gy1 T1), (to_int_units _ _ Gy2 T2).
  apply Z.div_le_mono; [apply pow2_pos; unfold scale; lia|].
  apply fmul_mono_l; auto.
  apply fmul_mono_r; auto.
  rewrite V1, V2. apply round_units_mono0.
  assert (0 < 2 ^ scale) by (apply pow2_pos; unfold scale; lia). nia.
Qed.

(** C7: for a product with a non-empty history of quantities that are not
    negative, and two horizons [1 <= h1 <= h2] on one side of the shelf
    life, the forecasts without location satisfy
    [get_forecast h1 <= get_forecast h2] whenever both calls return; and
    both return when the quantities and horizons are below [2 ^ 256]. *)
Theorem forecast_monotone_in_horizon (self : Product) (h1 h2 : Z) (w : net) :
  sales_history self <> [] ->
  Forall (fun sale => 0 <= snd sale) (sales_history self) ->
  1 <= h1 <= h2 ->
  h2 <= shelf_life_days self \/ shelf_life_days self < h1 ->
  (forall n1 n2,
     fst (get_forecast self h1 None w) = Ok n1 ->
     fst (get_forecast self h2 None w) = Ok n2 ->
     n1 <= n2) /\
  (small_sales self -> h2 < 2 ^ 256 ->
   exists n1 n2,
     fst (get_forecast self h1 None w) = Ok n1 /\
     fst (get_forecast self h2 None w) = Ok n2 /\
     n1 <= n2).
Proof.
  intros Hne Hq Hh Hside.
  assert (Hbuf : buffer_factor self h1 = buffer_factor self h2).
  { unfold buffer_factor.
    destruct (Z.ltb_spec (shelf_life_days self) h1),
             (Z.ltb_spec (shelf_life_days self) h2); try lia; reflexivity. }
  assert (Mono : forall n1 n2,
            fst (get_forecast self h1 None w) = Ok n1 ->
            fst (get_forecast self h2 None w) = Ok n2 -> n1 <= n2).
  { intros n1 n2. rewrite !get_forecast_no_location. cbn [fst].
    unfold forecast_no_weather.
    rewrite (is_empty_false _ _ Hne), slice_from_last.
    rewrite (recent_nonempty _ _ Hne). rewrite Hbuf.
    destruct (average_sales (last_entries 30 (sales_history self)))
      as [v|] eqn:Ev; cbn [bind]; [|discriminate].
    destruct (average_sales_good (last_entries 30 (sales_history self)) v)
      as (a & -> & Ga); auto.
    { unfold last_entries. apply Forall_skipn_of. exact Hq. }
    { intros Hnil. pose proof (recent_nonempty _ _ Hne) as R.
      rewrite Hnil in R. discriminate. }
    destruct (scaled_forecast (PFloat a) h1 _) as [f1|] eqn:S1; cbn [bind];
      [|discriminate].
    destruct (scaled_forecast (PFloat a) h2 _) as [f2|] eqn:S2; cbn [bind];
      [|discriminate].
    intros H1 H2. injection H1 as <-. injection H2 as <-.
    destruct (fgood_buffer self h2) as (Gb & Fb & Zb).
    pose proof (scaled_forecast_mono a _ h1 h2 f1 f2 Ga Gb Fb Zb Hh S1 S2).
    lia. }
  split; [exact Mono|].
  intros Hs H2.
  destruct (forecast_no_weather_returns self h1 Hs) as (n1 & E1 & _).
  { unfold small. lia. }
  destruct (forecast_no_weather_returns self h2 Hs) as (n2 & E2 & _).
  { unfold small. lia. }
  exists n1, n2. rewrite !get_forecast_no_location. cbn [fst].
  repeat split; auto. apply Mono; rewrite get_forecast_no_location; auto.
Qed.

Lemma forecast_monotone_in_horizon_witness :
  sales_history apple <> [] /\
  Forall (fun sale => 0 <= snd sale) (sales_history apple) /\
  1 <= 8 <= 30 /\
  (30 <= shelf_life_days apple \/ shelf_life_days apple < 8) /\
  small_sales apple /\ 30 < 2 ^ 256 /\
  exists n1 n2,
    fst (get_forecast apple 8 None net_down) = Ok n1 /\
    fst (get_forecast apple 30 None net_down) = Ok n2 /\
    n1 <= n2.
Proof.
  assert (H1 : sales_history apple <> []) by (simpl; discriminate).
  assert (H2 : Forall (fun sale => 0 <= snd sale) (sales_history apple)).
  { simpl. repeat constructor; simpl; lia. }
  assert (H3 : 1 <= 8 <= 30) by lia.
  assert (H4 : 30 <= shelf_life_days apple \/ shelf_life_days apple < 8)
    by (right; simpl; lia).
  assert (H5 : small_sales apple).
  { unfold small_sales, small, apple. simpl.
    repeat constructor; simpl; reflexivity. }
  assert (H6 : 30 < 2 ^ 256) by reflexivity.
  repeat (split; [assumption|]).
  exact (proj2 (forecast_monotone_in_horizon apple 8 30 net_down H1 H2 H3 H4)
           H5 H6).
Defined.

(** The apple example: 118 for 8 days, 444 for 30 days. *)
Example forecast_monotone_sample :
  fst (get_forecast apple 8 None net_down) = Ok 118 /\
  fst (get_forecast apple 30 None net_down) = Ok 444.
Proof. split; vm_compute; reflexivity. Qed.

(** * Further properties of the forecasting engine *)

(** ** Values that rounding keeps, and the error of a quotient *)

(** A mantissa of 53 bits at most, at an exponent a double can have, is
    kept by rounding. *)
Lemma round_units_exact (M E : Z) :
  0 < M < 2 ^ 53 -> 1074 <= E -> round_units (M * 2 ^ E) = M * 2 ^ E.
Proof.
  intros [HM0 HM] HE. unfold round_units. rewrite spacing_pow.
  rewrite Zdigits2_mul_pow2 by lia.
  pose proof (Zdigits2_le M 53 ltac:(lia) ltac:(lia) HM) as HD.
  set (c := Z.max (Zdigits2 M + E - 53) 1074).
  assert (Hc : 1074 <= c <= E) by (unfold c; lia).
  assert (Pc : 0 < 2 ^ c) by (apply pow2_pos; lia).
  assert (EV : M * 2 ^ E = M * 2 ^ (E - c) * 2 ^ c).
  { rewrite <- Z.mul_assoc, <- Z.pow_add_r by lia. do 2 f_equal. lia. }
  rewrite EV. clear EV.
  generalize dependent (2 ^ c). intros p Pp.
  generalize (M * 2 ^ (E - c)). intros x.
  rewrite rne_div_exact; [|exact Pp|apply Z.mod_mul; lia].
  rewrite Z.div_mul by lia. ring.
Qed.

(** The float of an int of 53 bits at most is that int. *)
Lemma of_int_exact_units (h : Z) (f : PyFloat.float) :
  1 <= h < 2 ^ 53 -> PyFloat.of_int h = Ok f ->
  sval f = h * 2 ^ scale /\ fgood f /\ is_finite f = true.
Proof.
  intros Hh H. destruct (of_int_units h f ltac:(lia) H) as (E & G & F & _).
  split; [|split; assumption].
  rewrite E. apply round_units_exact; unfold scale; lia.
Qed.

(** A float not below an int, in units. *)
Lemma compare_int_units (m : PyFloat.float) (n : Z) :
  fgood m -> is_finite m = true ->
  PyFloat.compare_int m n = Some Eq \/ PyFloat.compare_int m n = Some Gt ->
  n * 2 ^ scale <= sval m.
Proof.
  destruct m as [s|s| |s mm e]; cbn [fgood is_finite sval PyFloat.compare_int];
    intros G F H; try discriminate.
  - assert (Hn : n <= 0).
    { destruct (Z.compare_spec 0 n); destruct H as [H|H]; try discriminate;
        lia. }
    pose proof (pow2_pos scale ltac:(unfold scale; lia)) as PU.
    generalize dependent (2 ^ scale). intros U PU. nia.
  - destruct G as [-> He].
    destruct (Z.leb_spec 0 e) as [H0|H0].
    + assert (Hn : n <= Zpos mm * 2 ^ e).
      { destruct (Z.compare_spec (Zpos mm * 2 ^ e) n);
          destruct H as [H|H]; try discriminate; lia. }
      rewrite Z.pow_add_r by (unfold scale; lia).
      pose proof (pow2_pos scale ltac:(unfold scale; lia)) as PU.
      generalize dependent (2 ^ scale). intros U PU.
      generalize dependent (2 ^ e). intros pe _ Hn.
      rewrite Z.mul_assoc. apply Z.mul_le_mono_nonneg_r; lia.
    + assert (Hn : n * 2 ^ (- e) <= Zpos mm).
      { destruct (Z.compare_spec (Zpos mm) (n * 2 ^ (- e)));
          destruct H as [H|H]; try discriminate; lia. }
      assert (XU : 2 ^ scale = 2 ^ (- e) * 2 ^ (e + scale)).
      { rewrite <- Z.pow_add_r by (unfold scale; lia). f_equal. lia. }
      rewrite XU. clear XU.
      pose proof (pow2_pos (e + scale) ltac:(unfold scale; lia)) as Pg.
      generalize dependent (2 ^ (e + scale)). intros pg Pg.
      generalize dependent (2 ^ (- e)). intros pe _ Hn.
      rewrite Z.mul_assoc. apply Z.mul_le_mono_nonneg_r; lia.
Qed.

(** The quotient that [SFdiv] rounds is the integer quotient of the
    dividend, shifted to the working exponent, by the divisor. *)
Lemma SFdiv_core_quotient (m1 m2 : positive) (e1 e2 : Z) :
  let D := Zdigits2 (Zpos m1) + e1 - (Zdigits2 (Zpos m2) + e2) in
  let e' := Z.min (fexp PyFloat.prec PyFloat.emax D) (e1 - e2) in
  exists q l,
    SFdiv_core_binary PyFloat.prec PyFloat.emax (Zpos m1) e1 (Zpos m2) e2
    = (q, e', l) /\
    q * Zpos m2 <= Zpos m1 * 2 ^ (e1 - e2 - e').
Proof.
  intros D e'. unfold SFdiv_core_binary. fold D. fold e'.
  set (s := e1 - e2 - e').
  assert (Hs : 0 <= s) by (unfold s, e'; lia).
  set (m' := match s with
             | 0 => Z.pos m1
             | Z.pos _ => Z.shiftl (Z.pos m1) s
             | Z.neg _ => 0
             end).
  assert (Hm' : m' = Zpos m1 * 2 ^ s).
  { unfold m'. destruct s as [|p|p] eqn:Es.
    - change (2 ^ 0) with 1. lia.
    - apply Z.shiftl_mul_pow2. lia.
    - lia. }
  assert (Hq : Z.div_eucl m' (Zpos m2) = (m' / Zpos m2, m' mod Zpos m2)).
  { unfold Z.div, Z.modulo. now destruct (Z.div_eucl m' (Zpos m2)). }
  rewrite Hq.
  exists (m' / Zpos m2), (new_location (Zpos m2) (m' mod Zpos m2)).
  split; [reflexivity|]. rewrite <- Hm'.
  pose proof (Z.mul_div_le m' (Zpos m2) eq_refl). lia.
Qed.

(** In the normal range the exponent of a double is 53 below its
    magnitude. *)
Lemma fexp_normal (x : Z) :
  -1021 <= x -> fexp PyFloat.prec PyFloat.emax x = x - 53.
Proof. intros H. unfold_fexp. lia. Qed.

(** The chain of inequalities behind the error of one rounding. *)
Lemma round_chain (m1 m2 m3 q pa pb T : Z) :
  0 < T <= m1 -> 0 <= m3 -> 0 < pa -> 0 < pb ->
  m1 * pa <= q -> m3 * pb <= m2 -> m2 <= m1 + 1 ->
  m3 * (pb * pa) * T <= (T + 1) * q.
Proof.
  intros HT H3 Pa Pb Hm1q Hm3 Hm2.
  assert (S1 : m3 * pb * T <= (T + 1) * m1) by nia.
  assert (S2 : m3 * pb * T * pa <= (T + 1) * m1 * pa).
  { apply Z.mul_le_mono_nonneg_r; lia. }
  assert (S3 : (T + 1) * (m1 * pa) <= (T + 1) * q).
  { apply Z.mul_le_mono_nonneg_l; lia. }
  replace (m3 * (pb * pa) * T) with (m3 * pb * T * pa) by ring.
  replace ((T + 1) * m1 * pa) with ((T + 1) * (m1 * pa)) in S2 by ring.
  lia.
Qed.

(** Rounding a mantissa of 53 bits or more in the normal range raises it
    by one part in [2 ^ 52] at most. *)
Lemma binary_round_aux_upper (s : bool) (q e' : Z) (l : location) :
  0 < q -> 53 <= Zdigits2 q -> -1021 <= Zdigits2 q + e' -> - scale <= e' ->
  is_finite (binary_round_aux PyFloat.prec PyFloat.emax s q e' l) = true ->
  sval (binary_round_aux PyFloat.prec PyFloat.emax s q e' l) * 2 ^ 52
  <= (2 ^ 52 + 1) * (q * 2 ^ (e' + scale)).
Proof.
  intros Hq Hdq Hn He.
  destruct (binary_round_aux_cases s q e' l ltac:(lia))
    as (m1 & m2 & m3 & e1 & e3 & E1 & M1 & R & E3 & M3 & ->).
  rewrite (fexp_normal _ Hn) in E1.
  assert (E1' : e1 = Zdigits2 q + e' - 53) by (clear - E1 Hdq; lia).
  clear E1.
  assert (E31 : e1 <= e3) by (clear - E3; lia). clear E3.
  assert (Pa : 0 < 2 ^ (e1 - e')) by (apply pow2_pos; clear - E1' Hdq; lia).
  assert (Pb : 0 < 2 ^ (e3 - e1)) by (apply pow2_pos; clear - E31; lia).
  assert (Pg : 0 < 2 ^ (e' + scale)) by (apply pow2_pos; clear - He; lia).
  assert (H1 : 0 <= m1) by (subst m1; apply Z.div_pos; [lia|exact Pa]).
  assert (H3 : 0 <= m3).
  { subst m3. apply Z.div_pos; [|exact Pb]. clear - R H1. lia. }
  destruct (Z.eqb_spec m3 0) as [Z3|N3].
  { intros _. cbn [sval]. rewrite Z.mul_0_l.
    apply Z.mul_nonneg_nonneg; [lia|]. apply Z.mul_nonneg_nonneg; lia. }
  destruct (e3 <=? 971); [|discriminate].
  intros _. cbn [sval]. rewrite Z2Pos.id by (clear - H3 N3; lia).
  assert (D1 : Zdigits2 m1 = 53).
  { subst m1. rewrite Zdigits2_div_pow2 by (clear - Hq E1' Hdq; lia).
    clear - E1' Hdq. lia. }
  assert (P1 : 0 < m1).
  { destruct (Z.eq_dec m1 0) as [E0|N0]; [|clear - H1 N0; lia].
    rewrite E0 in D1. discriminate D1. }
  pose proof (Zdigits2_bounds m1 P1) as [B1 _]. rewrite D1 in B1.
  change (2 ^ (53 - 1)) with (2 ^ 52) in B1.
  assert (Hm1q : m1 * 2 ^ (e1 - e') <= q).
  { subst m1. pose proof (Z.mul_div_le q (2 ^ (e1 - e')) Pa) as X.
    clear - X. lia. }
  assert (Hm3 : m3 * 2 ^ (e3 - e1) <= m2).
  { subst m3. pose proof (Z.mul_div_le m2 (2 ^ (e3 - e1)) Pb) as X.
    clear - X. lia. }
  assert (X3 : 2 ^ (e3 + scale)
               = 2 ^ (e3 - e1) * 2 ^ (e1 - e') * 2 ^ (e' + scale)).
  { rewrite <- !Z.pow_add_r by (clear - E31 E1' Hdq He; lia).
    f_equal. clear. lia. }
  rewrite X3. clear X3.
  pose proof (round_chain m1 m2 m3 q (2 ^ (e1 - e')) (2 ^ (e3 - e1)) (2 ^ 52)
                ltac:(clear - B1; lia) H3 Pa Pb Hm1q Hm3
                ltac:(clear - R; lia)) as C.
  clear - C Pg.
  revert C Pg.
  generalize (2 ^ (e3 - e1)) (2 ^ (e1 - e')) (2 ^ (e' + scale)) (2 ^ 52).
  intros pb pa pg T C Pg.
  replace (m3 * (pb * pa * pg) * T) with (m3 * (pb * pa) * T * pg) by ring.
  replace ((T + 1) * (q * pg)) with ((T + 1) * q * pg) by ring.
  apply Z.mul_le_mono_nonneg_r; lia.
Qed.

(** The quotient [a / b] of two positive ints, when a normal double, is
    above the exact quotient by one part in [2 ^ 52] at most. *)
Lemma int_truediv_upper (a b : Z) (r : PyFloat.float) :
  0 < a -> 0 < b -> -1021 <= Zdigits2 a - Zdigits2 b ->
  PyFloat.int_truediv a b = Ok r ->
  sval r * b * 2 ^ 52 <= (2 ^ 52 + 1) * a * 2 ^ scale.
Proof.
  intros Ha Hb HD Hr.
  destruct (int_truediv_sign a b r Hr) as [_ Fr].
  revert Hr Fr. unfold PyFloat.int_truediv.
  destruct (Z.eqb_spec b 0) as [|Hb0]; [lia|].
  rewrite (exact_nonzero b Hb0), (exact_nonzero a) by lia.
  set (pa := Z.to_pos (Z.abs a)). set (pb := Z.to_pos (Z.abs b)).
  assert (Ea : Zpos pa = a) by (unfold pa; rewrite Z2Pos.id; lia).
  assert (Eb : Zpos pb = b) by (unfold pb; rewrite Z2Pos.id; lia).
  cbn [SFdiv].
  destruct (SFdiv_core_bounds pa pb 0 0)
    as (q & e' & l & Ecore & Hq & He & Hd & Hlow).
  destruct (SFdiv_core_quotient pa pb 0 0) as (q' & l' & Ecore' & Hqm).
  cbv zeta in Ecore', Hqm, He, Hlow.
  rewrite Ecore in Ecore'.
  assert (Eq' : q' = q) by congruence.
  assert (Ee : e' = Z.min (fexp PyFloat.prec PyFloat.emax
                             (Zdigits2 (Zpos pa) + 0 - (Zdigits2 (Zpos pb) + 0)))
                          (0 - 0)) by congruence.
  subst q'. clear Ecore'. rewrite Ecore. clear Ecore.
  rewrite <- Ee in Hqm.
  rewrite Ea, Eb in *.
  replace (Zdigits2 a + 0 - (Zdigits2 b + 0)) with (Zdigits2 a - Zdigits2 b)
    in * by lia.
  rewrite (fexp_normal _ HD) in He, Ee.
  destruct (Hlow ltac:(clear - HD; lia)) as [Hq1 HDq]. clear Hlow Hd.
  replace (0 - 0 - e') with (- e') in Hqm by (clear; lia).
  assert (Hd53 : 53 <= Zdigits2 q) by (clear - He HDq; lia).
  assert (Hn : -1021 <= Zdigits2 q + e') by (clear - HD HDq; lia).
  assert (He0 : e' <= 0) by (clear - Ee; lia).
  assert (He1 : -1074 <= e').
  { pose proof (Zdigits2_pos a Ha). clear - Ee HD H. lia. }
  intros Hr Fr.
  assert (Fq : is_finite (binary_round_aux PyFloat.prec PyFloat.emax
                            (xorb (a <? 0) (b <? 0)) q e' l) = true).
  { destruct (binary_round_aux _ _ _ q e' l); try discriminate;
      injection Hr as <-; exact Fr. }
  pose proof (binary_round_aux_upper (xorb (a <? 0) (b <? 0)) q e' l
                ltac:(clear - Hq1; lia) Hd53 Hn
                ltac:(unfold scale; clear - He1; lia) Fq) as U.
  assert (Er : r = binary_round_aux PyFloat.prec PyFloat.emax
                     (xorb (a <? 0) (b <? 0)) q e' l).
  { destruct (binary_round_aux _ _ _ q e' l); try discriminate;
      injection Hr as <-; reflexivity. }
  rewrite <- Er in U. clear Er Hr Fq Fr.
  assert (XU : 2 ^ scale = 2 ^ (- e') * 2 ^ (e' + scale)).
  { rewrite <- Z.pow_add_r by (unfold scale; clear - He0 He1; lia).
    f_equal. clear. lia. }
  rewrite XU. clear XU.
  assert (Pg : 0 < 2 ^ (e' + scale))
    by (apply pow2_pos; unfold scale; clear - He1; lia).
  clear - U Hqm Pg Hb Ha.
  revert U Hqm Pg.
  generalize (2 ^ (e' + scale)) (2 ^ (- e')) (sval r).
  intros pg pe v U Hqm Pg.
  assert (S1 : v * 2 ^ 52 * b <= (2 ^ 52 + 1) * (q * pg) * b).
  { apply Z.mul_le_mono_nonneg_r; lia. }
  assert (S2 : q * b * ((2 ^ 52 + 1) * pg) <= a * pe * ((2 ^ 52 + 1) * pg)).
  { apply Z.mul_le_mono_nonneg_r; [lia|exact Hqm]. }
  replace (v * b * 2 ^ 52) with (v * 2 ^ 52 * b) by ring.
  replace ((2 ^ 52 + 1) * a * (pe * pg))
    with (a * pe * ((2 ^ 52 + 1) * pg)) by ring.
  replace ((2 ^ 52 + 1) * (q * pg) * b)
    with (q * b * ((2 ^ 52 + 1) * pg)) in S1 by ring.
  lia.
Qed.

(** ** The order against the exact shelf-life share *)

(** An order is 0, or capped by a [max_order] that was computed. *)
Lemma recommended_order_cases (self : Product) (days n forecast : Z)
    (w : net) :
  0 < days -> 0 <= shelf_life_days self ->
  fst (get_recommended_order self days w) = Ok n ->
  fst (get_forecast self days None w) = Ok forecast ->
  n = 0 \/
  exists mo, max_order_of self forecast days = Ok mo /\
             0 <= n /\ num_leb (PInt n) mo = true.
Proof.
  intros Hd Hs Hn Hf.
  destruct (max_order_of self forecast days) as [mo|e] eqn:Hmo.
  { right. exists mo. split; [reflexivity|].
    now apply (recommended_order_capped self days n forecast mo w). }
  left.
  rewrite get_forecast_no_location in Hf. cbn [fst] in Hf.
  unfold get_recommended_order in Hn. unfold iobind at 1 in Hn.
  rewrite get_forecast_no_location, Hf in Hn.
  unfold iobind at 1 in Hn. unfold lift at 1 in Hn.
  destruct (if 0 <? forecast then _ else _) as [csd|]; [|discriminate].
  destruct (PyNum.ge csd (PInt days)).
  { cbn in Hn. now injection Hn as <-. }
  exfalso. unfold max_order_of in Hmo.
  unfold iobind at 1 in Hn. unfold lift at 1 in Hn.
  destruct (PyNum.truediv (PInt (shelf_life_days self)) (PInt days))
    as [ratio|]; cbn [bind] in Hmo; [|discriminate].
  unfold iobind at 1 in Hn. unfold lift at 1 in Hn. rewrite Hmo in Hn.
  discriminate.
Qed.

Lemma num_leb_int_float_inv (n : Z) (m : PyFloat.float) :
  num_leb (PInt n) (PFloat m) = true ->
  PyFloat.compare_int m n = Some Eq \/ PyFloat.compare_int m n = Some Gt.
Proof.
  unfold num_leb. cbn [PyNum.compare].
  destruct (PyFloat.compare_int m n) as [[| |]|]; simpl; auto; discriminate.
Qed.

(** An int that a zero is not below is not positive. *)
Lemma compare_int_zero (m : PyFloat.float) (n : Z) :
  PyFloat.is_zero m = true ->
  PyFloat.compare_int m n = Some Eq \/ PyFloat.compare_int m n = Some Gt ->
  n <= 0.
Proof.
  destruct m; try discriminate. intros _. cbn [PyFloat.compare_int].
  destruct (Z.compare_spec 0 n); intros [H'|H']; try discriminate; lia.
Qed.

Lemma fmul_zero_l (x y : PyFloat.float) :
  PyFloat.is_zero x = true -> is_finite y = true ->
  PyFloat.is_zero (PyFloat.fmul x y) = true.
Proof. destruct x, y; try discriminate; reflexivity. Qed.

Lemma fmul_zero_r (x y : PyFloat.float) :
  is_finite x = true -> PyFloat.is_zero y = true ->
  PyFloat.is_zero (PyFloat.fmul x y) = true.
Proof. destruct x, y; try discriminate; reflexivity. Qed.

Lemma int_truediv_zero (b : Z) (r : PyFloat.float) :
  PyFloat.int_truediv 0 b = Ok r -> PyFloat.is_zero r = true.
Proof.
  unfold PyFloat.int_truediv.
  destruct (Z.eqb_spec b 0) as [|Hb]; [discriminate|].
  rewrite (exact_nonzero b Hb). cbn [PyFloat.exact SFdiv].
  intros H. injection H as <-. reflexivity.
Qed.

Lemma fbound_finite (K : Z) (f : PyFloat.float) :
  fbound K f -> is_finite f = true.
Proof. destruct f; simpl; try contradiction; reflexivity. Qed.

(** With the quotient [R] at most one part in [T] above [s / d], the
    product [f * R] stays below the double just under [k], the first
    integer above [f * s / d]; [P] is the gap to that double. *)
Lemma cap_arith (f s d R U T k P : Z) :
  0 < d -> 0 <= f -> 0 < U -> 0 < T ->
  R * d * T <= (T + 1) * s * U ->
  f * s + 1 <= k * d ->
  2 * (k * d) <= T + 1 ->
  P * T <= k * U ->
  f * R <= k * U - P.
Proof.
  intros Hd Hf HU HT HR Hk Hsmall HP.
  assert (A1 : f * (R * d * T) <= f * ((T + 1) * s * U)).
  { apply Z.mul_le_mono_nonneg_l; assumption. }
  assert (A2 : (f * s) * ((T + 1) * U) <= (k * d - 1) * ((T + 1) * U)).
  { apply Z.mul_le_mono_nonneg_r; [|lia].
    apply Z.mul_nonneg_nonneg; lia. }
  assert (A3 : (P * T) * d <= (k * U) * d).
  { apply Z.mul_le_mono_nonneg_r; lia. }
  assert (A4 : U * (2 * (k * d)) <= U * (T + 1)).
  { apply Z.mul_le_mono_nonneg_l; lia. }
  apply (Z.mul_le_mono_pos_r _ _ (d * T)); [apply Z.mul_pos_pos; lia|].
  replace (f * R * (d * T)) with (f * (R * d * T)) by ring.
  replace ((k * U - P) * (d * T)) with (k * U * d * T - P * T * d) by ring.
  replace (f * ((T + 1) * s * U)) with (f * s * ((T + 1) * U)) in A1 by ring.
  replace ((k * d - 1) * ((T + 1) * U))
    with (k * U * d * T + U * (k * d) - U * (T + 1)) in A2 by ring.
  replace (U * (2 * (k * d))) with (2 * (U * (k * d))) in A4 by ring.
  replace (k * U * d) with (U * (k * d)) in A3 by ring.
  lia.
Qed.

(** From a float value between [n] and the double under [k] to the bound
    on the int [n]. *)
Lemma cap_conclude (n k f s d U P Y v : Z) :
  0 < d -> 0 < U -> 0 < P ->
  n * U <= v -> v <= Y -> Y = k * U - P -> k = f * s / d + 1 ->
  n * d <= f * s.
Proof.
  intros Hd HU HP Hn Hv -> ->.
  assert (Hlt : n * U < (f * s / d + 1) * U) by lia.
  apply Z.mul_lt_mono_pos_r in Hlt; [|exact HU].
  pose proof (Z.mul_div_le (f * s) d Hd) as X.
  assert (n * d <= (f * s / d) * d).
  { apply Z.mul_le_mono_nonneg_r; lia. }
  lia.
Qed.

(** The double under an integer [k] of 53 bits at most: rounding keeps it,
    and it is [k] less a gap of [k / 2 ^ 52] at most. *)
Lemma double_under (k : Z) :
  1 <= k < 2 ^ 53 ->
  exists Y P,
    round_units Y = Y /\ Y = k * 2 ^ scale - P /\ 0 < P /\
    P * 2 ^ 52 <= k * 2 ^ scale.
Proof.
  intros [Hk1 Hk].
  pose proof (Zdigits2_bounds k ltac:(lia)) as [Dlo Dhi].
  pose proof (Zdigits2_pos k ltac:(lia)) as Dpos.
  pose proof (Zdigits2_le k 53 ltac:(lia) ltac:(lia) Hk) as D53.
  set (dk := Zdigits2 k) in *.
  exists ((k * 2 ^ (53 - dk) - 1) * 2 ^ (dk + 2095)), (2 ^ (dk + 2095)).
  assert (EA : 2 ^ (dk - 1) * 2 ^ (53 - dk) = 2 ^ 52).
  { rewrite <- Z.pow_add_r by lia. f_equal. lia. }
  assert (ED : 2 ^ dk = 2 * 2 ^ (dk - 1)).
  { replace dk with (dk - 1 + 1) at 1 by lia. apply pow2_succ. lia. }
  assert (EU : 2 ^ (53 - dk) * 2 ^ (dk + 2095) = 2 ^ scale).
  { rewrite <- Z.pow_add_r by lia. unfold scale. f_equal. lia. }
  assert (EP : 2 ^ (dk + 2095) * 2 ^ 52 = 2 ^ (dk - 1) * 2 ^ scale).
  { rewrite <- !Z.pow_add_r by (unfold scale; lia). unfold scale.
    f_equal. lia. }
  assert (PB : 0 < 2 ^ (53 - dk)) by (apply pow2_pos; lia).
  assert (PA : 0 < 2 ^ (dk - 1)) by (apply pow2_pos; lia).
  assert (PP : 0 < 2 ^ (dk + 2095)) by (apply pow2_pos; lia).
  assert (PU : 0 < 2 ^ scale) by (apply pow2_pos; unfold scale; lia).
  split; [|split; [|split]].
  - apply round_units_exact; [|lia].
    clear - Dlo Dhi EA ED PB PA. revert Dlo Dhi EA ED PB PA.
    generalize (2 ^ (dk - 1)) (2 ^ (53 - dk)) (2 ^ dk).
    intros A B D Dlo Dhi EA ED PB PA.
    change (2 ^ 53) with (2 * 2 ^ 52). rewrite <- EA. nia.
  - rewrite Z.mul_sub_distr_r, <- Z.mul_assoc, EU. ring.
  - exact PP.
  - rewrite EP. apply Z.mul_le_mono_nonneg_r; lia.
Qed.

(** Below [2 ^ 50] the rounding of [max_order] cannot lift an order above
    the exact share [forecast * shelf_life_days / days]: a returned order
    [n] has [n * days <= forecast * shelf_life_days]. *)
Theorem recommended_order_exact_cap (self : Product) (days n forecast : Z)
    (w : net) :
  0 < days < 2 ^ 50 -> 0 <= shelf_life_days self ->
  fst (get_recommended_order self days w) = Ok n ->
  fst (get_forecast self days None w) = Ok forecast ->
  forecast * shelf_life_days self < 2 ^ 50 ->
  0 <= n /\ n * days <= forecast * shelf_life_days self.
Proof.
  intros [Hd Hd50] Hs Hn Hf Hfs.
  assert (Hf0 : 0 <= forecast).
  { rewrite get_forecast_no_location in Hf. cbn [fst] in Hf.
    eapply forecast_no_weather_nonneg; eauto. }
  destruct (recommended_order_cases self days n forecast w Hd Hs Hn Hf)
    as [->|(mo & Hmo & Hn0 & Hle)].
  { split; [lia|]. rewrite Z.mul_0_l. apply Z.mul_nonneg_nonneg; lia. }
  split; [exact Hn0|]. clear Hn Hf.
  unfold max_order_of in Hmo. cbn [PyNum.truediv] in Hmo.
  set (s := shelf_life_days self) in *.
  destruct (PyFloat.int_truediv s days) as [r|] eqn:Er;
    cbn [bind] in Hmo; [|discriminate].
  cbn [PyNum.mul PyNum.as_float] in Hmo.
  destruct (PyFloat.of_int forecast) as [ff|] eqn:Ef; cbn [bind] in Hmo;
    [|discriminate].
  injection Hmo as <-. apply num_leb_int_float_inv in Hle.
  destruct (int_truediv_fgood s days r Hs Hd Er) as [Gr Fr].
  destruct (of_int_sign _ _ Ef) as [_ Fff].
  (* a zero forecast or shelf life: [max_order] is a zero *)
  destruct (Z.eq_dec forecast 0) as [E0|Hfne].
  { subst forecast. change (PyFloat.of_int 0) with (Ok (S754_zero false)) in Ef.
    injection Ef as <-.
    pose proof (compare_int_zero _ n
                  (fmul_zero_l (S754_zero false) r eq_refl Fr) Hle).
    assert (n = 0) by lia. subst n. lia. }
  destruct (Z.eq_dec s 0) as [E0|Hsne].
  { rewrite E0 in Er.
    pose proof (compare_int_zero _ n
                  (fmul_zero_r ff r Fff (int_truediv_zero days r Er)) Hle).
    assert (n = 0) by lia. subst n. rewrite E0. lia. }
  (* both are positive and below [2 ^ 50] *)
  assert (Hf50 : forecast < 2 ^ 50) by nia.
  assert (Hs50 : s < 2 ^ 50) by nia.
  destruct (of_int_exact_units forecast ff ltac:(lia) Ef) as (Vff & Gff & _).
  assert (Bff : fbound 51 ff).
  { destruct (of_int_spec forecast 50 ltac:(lia) ltac:(lia))
      as (f0 & E0 & B0 & _).
    rewrite Ef in E0. injection E0 as <-. exact B0. }
  assert (Br : fbound 51 r).
  { destruct (int_truediv_spec s days 50 ltac:(lia) ltac:(lia) ltac:(lia))
      as (r0 & E0 & B0 & _).
    rewrite Er in E0. injection E0 as <-. exact B0. }
  pose proof (fmul_fbound ff r 51 51 103 Bff Br ltac:(lia) ltac:(lia)) as Bm.
  pose proof (fbound_finite _ _ Bm) as Fm.
  destruct (fmul_units ff r Gff Gr Fff Fr Fm) as [Vm Gm].
  pose proof (compare_int_units _ n Gm Fm Hle) as Hnm.
  assert (HDd : -1021 <= Zdigits2 s - Zdigits2 days).
  { pose proof (Zdigits2_le days 50 ltac:(lia) ltac:(lia) Hd50).
    pose proof (Zdigits2_pos s ltac:(lia)). lia. }
  pose proof (int_truediv_upper s days r ltac:(lia) Hd HDd Er) as HR.
  pose proof (sval_nonneg r Gr) as HR0.
  (* the first integer above the exact share *)
  set (k := forecast * s / days + 1).
  assert (Hkd : forecast * s + 1 <= k * days).
  { unfold k. pose proof (Z.mul_succ_div_gt (forecast * s) days Hd). lia. }
  assert (Hkd' : k * days <= forecast * s + days).
  { unfold k. pose proof (Z.mul_div_le (forecast * s) days Hd). lia. }
  assert (Hk1 : 1 <= k).
  { unfold k. assert (0 <= forecast * s / days)
      by (apply Z.div_pos; [apply Z.mul_nonneg_nonneg|]; lia). lia. }
  assert (Hk53 : k < 2 ^ 53) by nia.
  destruct (double_under k (conj Hk1 Hk53)) as (Y & P & EY & HY & HP & HPk).
  assert (PU : 0 < 2 ^ scale) by (apply pow2_pos; unfold scale; lia).
  (* the exact product, in units *)
  assert (Vmul : mul_units (sval ff) (sval r) = forecast * sval r).
  { rewrite Vff. unfold mul_units.
    replace (forecast * 2 ^ scale * sval r)
      with (forecast * sval r * 2 ^ scale) by ring.
    apply Z.div_mul. lia. }
  rewrite Vmul in Vm.
  assert (HfR : forecast * sval r <= k * 2 ^ scale - P).
  { apply cap_arith with (s := s) (d := days) (T := 2 ^ 52); lia. }
  assert (Hround : round_units (forecast * sval r) <= Y).
  { rewrite <- EY. apply round_units_mono0. split; [|lia].
    apply Z.mul_nonneg_nonneg; lia. }
  apply (cap_conclude n k forecast s days (2 ^ scale) P Y
           (sval (PyFloat.fmul ff r))); try assumption; try reflexivity.
  rewrite Vm. exact Hround.
Qed.

Lemma recommended_order_exact_cap_witness :
  0 <= 94 /\ 94 * 7 <= 94 * shelf_life_days apple.
Proof.
  apply (recommended_order_exact_cap apple 7 94 94 net_down).
  - split; reflexivity.
  - discriminate.
  - vm_compute. reflexivity.
  - vm_compute. reflexivity.
  - reflexivity.
Defined.

(** ** The order against the shortfall *)

(** The truncation of a float below an int [a] is at most [a], or not
    positive. *)
Lemma to_int_lt (m : PyFloat.float) (a t : Z) :
  PyFloat.compare_int m a = Some Lt -> PyFloat.to_int m = Ok t ->
  t <= Z.max 0 a.
Proof.
  destruct m as [s|s| |s mm e];
    cbn [PyFloat.compare_int PyFloat.to_int]; intros Hc Ht;
    try discriminate.
  - injection Ht as <-. lia.
  - assert (Et : t = if s
                     then - (if 0 <=? e then Z.pos mm * 2 ^ e
                             else Z.pos mm / 2 ^ (- e))
                     else (if 0 <=? e then Z.pos mm * 2 ^ e
                           else Z.pos mm / 2 ^ (- e))) by congruence.
    clear Ht.
    assert (Hc' : (if 0 <=? e
                   then (if s then Z.neg mm else Z.pos mm) * 2 ^ e ?= a
                   else (if s then Z.neg mm else Z.pos mm) ?= a * 2 ^ (- e))
                  = Lt) by congruence.
    clear Hc. revert Et Hc'.
    destruct (Z.leb_spec 0 e) as [He|He]; intros Et Hc'.
    + pose proof (pow2_pos e He) as Pe.
      assert (H0 : 0 <= Z.pos mm * 2 ^ e) by nia.
      destruct s; cbv iota in Et, Hc'; [clear Hc'; nia|].
      change (Z.pos mm * 2 ^ e < a) in Hc'. lia.
    + pose proof (pow2_pos (- e) ltac:(lia)) as Pe.
      pose proof (Z.mul_div_le (Z.pos mm) (2 ^ (- e)) Pe) as Hd.
      assert (H0 : 0 <= Z.pos mm / 2 ^ (- e)) by (apply Z.div_pos; lia).
      destruct s; cbv iota in Et, Hc'; [clear Hc'; nia|].
      change (Z.pos mm < a * 2 ^ (- e)) in Hc'.
      assert (Z.pos mm / 2 ^ (- e) < a) by nia. lia.
Qed.

(** The order never exceeds what is missing to reach the forecast: a
    returned order lies between 0 and [forecast - inventory], whatever the
    horizon and the shelf life. *)
Theorem order_within_shortfall (self : Product) (days n forecast : Z)
    (w : net) :
  fst (get_recommended_order self days w) = Ok n ->
  fst (get_forecast self days None w) = Ok forecast ->
  0 <= n <= Z.max 0 (forecast - inventory self).
Proof.
  intros Hn Hf.
  rewrite get_forecast_no_location in Hf. cbn [fst] in Hf.
  unfold get_recommended_order in Hn. unfold iobind at 1 in Hn.
  rewrite get_forecast_no_location, Hf in Hn.
  unfold iobind at 1 in Hn. unfold lift at 1 in Hn.
  destruct (if 0 <? forecast then _ else _) as [csd|]; [|discriminate].
  destruct (PyNum.ge csd (PInt days)).
  { cbn in Hn. injection Hn as <-. lia. }
  unfold iobind at 1 in Hn. unfold lift at 1 in Hn.
  cbn [PyNum.truediv] in Hn.
  destruct (PyFloat.int_truediv (shelf_life_days self) days) as [r|];
    cbn [bind] in Hn; [|discriminate].
  unfold iobind at 1 in Hn. unfold lift at 1 in Hn.
  cbn [PyNum.mul PyNum.as_float] in Hn.
  destruct (PyFloat.of_int forecast) as [ff|]; cbn [bind] in Hn;
    [|discriminate].
  unfold iobind, lift, ret, PyNum.min in Hn.
  set (m := PyFloat.fmul ff r) in *.
  unfold PyNum.lt in Hn. cbn [PyNum.compare] in Hn.
  destruct (PyFloat.compare_int m (forecast - inventory self))
    as [[| |]|] eqn:Hc; cbn [PyNum.to_int] in Hn;
    try (injection Hn as <-; lia).
  destruct (PyFloat.to_int m) as [t|] eqn:Et; [|discriminate].
  injection Hn as <-.
  pose proof (to_int_lt m _ t Hc Et). lia.
Qed.

Lemma order_within_shortfall_witness :
  0 <= 94 <= Z.max 0 (94 - inventory apple).
Proof.
  apply (order_within_shortfall apple 7 94 94 net_down);
    vm_compute; reflexivity.
Defined.

(** ** Use of the network *)

Lemma offline_ret {A : Type} (a : A) : offline (ret a).
Proof. exists (Ok a). reflexivity. Qed.

Lemma offline_lift {A : Type} (r : result A) : offline (lift r).
Proof. exists r. reflexivity. Qed.

Lemma offline_iobind {A B : Type} (m : io A) (k : A -> io B) :
  offline m -> (forall a, offline (k a)) -> offline (iobind m k).
Proof.
  intros [r Hm] Hk. unfold iobind. destruct r as [a|e].
  - destruct (Hk a) as [r' Hr']. exists r'. intros w. rewrite Hm. apply Hr'.
  - exists (Raise e). intros w. now rewrite Hm.
Qed.

Lemma offline_snd {A : Type} (m : io A) (w : net) : offline m -> snd (m w) = w.
Proof. intros [r H]. now rewrite H. Qed.

Ltac offline_steps :=
  repeat (apply offline_iobind; [apply offline_lift|intros ?]);
  try apply offline_ret; try apply offline_lift.

(** A weather lookup makes one request, whatever comes of it. *)
Lemma get_weather_forecast_net (location : string) (w : net) :
  snd (get_weather_forecast location w) = logged (weather_url location) w.
Proof.
  unfold get_weather_forecast. unfold iobind at 1. unfold requests_get.
  fold (logged (weather_url location) w).
  destruct (net_reply w (weather_url location)) as [resp|e]; [|reflexivity].
  apply offline_snd.
  apply offline_iobind; [apply offline_lift|intros data].
  destruct (negb (status_code resp =? 200)); offline_steps.
Qed.

Lemma weather_adjust_net (self : Product) (forecast : Z) (loc : string)
    (w : net) :
  snd (weather_adjust self forecast loc w) = logged (weather_url loc) w.
Proof.
  unfold weather_adjust. unfold iobind at 1.
  pose proof (get_weather_forecast_net loc w) as H.
  destruct (get_weather_forecast loc w) as [[weather|e] w']; cbn [snd] in H;
    subst w'; [|reflexivity].
  destruct (dict_has "temperature" weather); [|reflexivity].
  apply offline_snd.
  apply offline_iobind; [apply offline_lift|intros temp].
  apply offline_iobind; [apply offline_lift|intros hot].
  destruct (hot && _); offline_steps.
Qed.

Lemma history_recent_nonempty (A : Type) (x : A) (l : list A) :
  is_empty (slice_from (-30) (x :: l)) = false.
Proof. rewrite slice_from_last. apply recent_nonempty. discriminate. Qed.

Lemma get_forecast_net (self : Product) (days : Z)
    (location : option string) (w : net) :
  snd (get_forecast self days location w)
  = net_after_forecast self days location w.
Proof.
  unfold get_forecast, net_after_forecast, forecast_no_weather.
  destruct (sales_history self) as [|x l] eqn:Eh; cbn [is_empty].
  { destruct (location_truthy location); reflexivity. }
  rewrite history_recent_nonempty.
  unfold iobind at 1. unfold lift at 1.
  destruct (average_sales _) as [avg|e]; cbn [bind];
    [|destruct (location_truthy location); reflexivity].
  unfold iobind at 1. unfold lift at 1.
  destruct (scaled_forecast avg days (buffer_factor self days)) as [f|e];
    cbn [bind]; [|destruct (location_truthy location); reflexivity].
  unfold iobind.
  destruct (location_truthy location) as [loc|]; [|reflexivity].
  pose proof (weather_adjust_net self f loc w) as H.
  destruct (weather_adjust self f loc w) as [[a|e] w']; cbn [snd] in H;
    subst w'; reflexivity.
Qed.

(** [get_forecast] makes one request, to the weather URL of the location,
    when a non-empty location is given, the product has sales and the
    forecast is computed up to the weather step; in every other case,
    none. The replies of the network are not changed. *)
Theorem forecast_network_use (self : Product) (days : Z)
    (location : option string) (w : net) :
  let w' := snd (get_forecast self days location w) in
  w' = net_after_forecast self days location w /\
  net_reply w' = net_reply w /\
  (sales_history self = [] -> w' = w) /\
  (location = None \/ location = Some ""%string -> w' = w) /\
  (net_log w' = net_log w \/
   exists loc, location = Some loc /\ loc <> ""%string /\
               net_log w' = net_log w ++ [weather_url loc]).
Proof.
  cbv zeta. rewrite get_forecast_net. split; [reflexivity|].
  unfold net_after_forecast.
  split; [|split; [|split]].
  - destruct (location_truthy location), (sales_history self),
      (forecast_no_weather self days); reflexivity.
  - intros ->. destruct (location_truthy location); reflexivity.
  - intros [->| ->]; reflexivity.
  - destruct (location_truthy location) as [loc|] eqn:El; [|now left].
    destruct (sales_history self); [now left|].
    destruct (forecast_no_weather self days); [|now left].
    right. exists loc. destruct location as [[|c l']|]; try discriminate.
    injection El as <-. repeat split. discriminate.
Qed.

Lemma get_recommended_order_offline (self : Product) (days : Z) :
  offline (get_recommended_order self days).
Proof.
  unfold get_recommended_order.
  apply offline_iobind.
  { exists (forecast_no_weather self days). intros w.
    apply get_forecast_no_location. }
  intros forecast.
  apply offline_iobind; [apply offline_lift|intros csd].
  destruct (PyNum.ge csd (PInt days)); offline_steps.
Qed.

(** [get_recommended_order] makes no request, and what it returns or
    raises is the same on every network. *)
Theorem recommended_order_offline (self : Product) (days : Z) (w w' : net) :
  get_recommended_order self days w
  = (fst (get_recommended_order self days w'), w).
Proof.
  destruct (get_recommended_order_offline self days) as [r H].
  now rewrite (H w), (H w').
Qed.

(** ** What a weather lookup returns *)

(** A returned weather dict comes from a reply whose body parsed. With
    status 200 it holds the four readings, taken from [main] and from the
    first entry of [weather]; with any other status it holds one entry,
    [error], with the message of the body or the default text. So the
    key [temperature] is present exactly for status 200. *)
Theorem weather_lookup_result (location : string) (w : net) (d : dict) :
  fst (get_weather_forecast location w) = Ok d ->
  exists resp data,
    net_reply w (weather_url location) = Ok resp /\
    response_json resp = Ok data /\
    dict_has "temperature" d = (status_code resp =? 200) /\
    if status_code resp =? 200
    then
      exists main first t h m ds,
        subscript_str data "main" = Ok main /\
        subscript_str main "temp" = Ok t /\
        subscript_str main "humidity" = Ok h /\
        (first <- subscript_str data "weather" ;; subscript_zero first)
        = Ok first /\
        subscript_str first "main" = Ok m /\
        subscript_str first "description" = Ok ds /\
        d = [("temperature", t); ("humidity", h); ("weather", m);
             ("description", ds)]%string
    else
      exists msg,
        get_method data "message" (JStr "Failed to fetch weather") = Ok msg /\
        d = [("error"%string, msg)].
Proof.
  unfold get_weather_forecast, iobind, requests_get, lift, ret.
  destruct (net_reply w (weather_url location)) as [resp|e];
    [|discriminate].
  destruct (response_json resp) as [data|e] eqn:Ed; [|discriminate].
  intros H. exists resp, data. split; [reflexivity|]. split; [exact Ed|].
  destruct (status_code resp =? 200); cbn [negb] in H.
  - destruct (subscript_str data "main") as [main|] eqn:E1; [|discriminate].
    destruct (subscript_str main "temp") as [t|] eqn:E2; [|discriminate].
    destruct (subscript_str main "humidity") as [h|] eqn:E3; [|discriminate].
    destruct (subscript_str data "weather") as [ws|] eqn:E4; [|discriminate].
    destruct (subscript_zero ws) as [first|] eqn:E5; [|discriminate].
    destruct (subscript_str first "main") as [m|] eqn:E6; [|discriminate].
    destruct (subscript_str first "description") as [ds|] eqn:E7;
      [|discriminate].
    cbn [fst] in H. injection H as <-. split; [reflexivity|].
    exists main, first, t, h, m, ds.
    repeat split; cbn [bind]; try reflexivity; assumption.
  - destruct (get_method data "message" _) as [msg|] eqn:E1; [|discriminate].
    cbn [fst] in H. injection H as <-. split; [reflexivity|].
    exists msg. split; reflexivity.
Qed.

Lemma weather_lookup_result_witness :
  exists resp data,
    net_reply net_unauthorized (weather_url "London") = Ok resp /\
    response_json resp = Ok data /\
    dict_has "temperature" [("error"%string, JStr "Invalid API key")]
    = (status_code resp =? 200) /\
    if status_code resp =? 200
    then
      exists main first t h m ds,
        subscript_str data "main" = Ok main /\
        subscript_str main "temp" = Ok t /\
        subscript_str main "humidity" = Ok h /\
        (first <- subscript_str data "weather" ;; subscript_zero first)
        = Ok first /\
        subscript_str first "main" = Ok m /\
        subscript_str first "description" = Ok ds /\
        [("error"%string, JStr "Invalid API key")]
        = [("temperature", t); ("humidity", h); ("weather", m);
           ("description", ds)]%string
    else
      exists msg,
        get_method data "message" (JStr "Failed to fetch weather") = Ok msg /\
        [("error"%string, JStr "Invalid API key")] = [("error"%string, msg)].
Proof.
  apply (weather_lookup_result "London" net_unauthorized). reflexivity.
Defined.

(** ** The window of the forecast *)

Lemma len_map {A B : Type} (f : A -> B) (l : list A) : len (map f l) = len l.
Proof. unfold len. now rewrite length_map. Qed.

Lemma slice_to_map {A B : Type} (f : A -> B) (k : Z) (l : list A) :
  map f (slice_to k l) = slice_to k (map f l).
Proof.
  unfold slice_to, slice_index. rewrite len_map. symmetry. apply firstn_map.
Qed.

Lemma slice_from_map {A B : Type} (f : A -> B) (k : Z) (l : list A) :
  map f (slice_from k l) = slice_from k (map f l).
Proof.
  unfold slice_from, slice_index. rewrite len_map. symmetry. apply skipn_map.
Qed.

(** The average looks at the quantities only. *)
Lemma average_sales_quantities (r1 r2 : list (Z * Z)) :
  map snd r1 = map snd r2 -> average_sales r1 = average_sales r2.
Proof.
  intros H. unfold average_sales.
  assert (Hl : len r1 = len r2)
    by (rewrite <- (len_map snd r1), <- (len_map snd r2); now rewrite H).
  rewrite !slice_to_map, !slice_from_map, H, Hl. reflexivity.
Qed.

Lemma slice_from_last_30 {A : Type} (older recent : list A) :
  List.length recent = 30%nat -> slice_from (-30) (older ++ recent) = recent.
Proof.
  intros H. rewrite slice_from_last. unfold last_entries.
  rewrite length_app, H.
  replace (List.length older + 30 - Nat.min 30 (List.length older + 30))%nat
    with (List.length older + 0)%nat by lia.
  rewrite skipn_app, Nat.add_0_r, skipn_all.
  replace (List.length older - List.length older)%nat with 0%nat by lia.
  reflexivity.
Qed.

(** The forecast is a function of the name, the shelf life and the
    quantities of the last 30 sales records: older records and the time
    stamps of all records do not enter. *)
Theorem forecast_uses_last_30 (self : Product)
    (older recent recent' : list (Z * Z)) (days : Z)
    (location : option string) (w : net) :
  sales_history self = older ++ recent ->
  List.length recent = 30%nat ->
  map snd recent' = map snd recent ->
  get_forecast self days location w
  = get_forecast (with_sales_history self recent') days location w.
Proof.
  intros Hh Hlen Hq.
  assert (Hlen' : List.length recent' = 30%nat).
  { rewrite <- (length_map snd recent'), Hq, length_map. exact Hlen. }
  unfold get_forecast. cbn [with_sales_history sales_history]. rewrite Hh.
  rewrite (slice_from_last_30 older recent Hlen).
  rewrite (slice_from_last_30 [] recent' Hlen' : slice_from (-30) recent' = _).
  rewrite (average_sales_quantities recent' recent Hq).
  assert (E1 : is_empty (older ++ recent) = false).
  { destruct recent; [discriminate|]. now destruct older. }
  assert (E2 : is_empty recent' = false) by (now destruct recent').
  assert (E3 : is_empty recent = false) by (now destruct recent).
  rewrite E1, E2, E3. reflexivity.
Qed.

Lemma forecast_uses_last_30_witness :
  get_forecast (product_with_sales (1000 :: repeat 2 30)) 7 None net_down
  = get_forecast
      (with_sales_history (product_with_sales (1000 :: repeat 2 30))
         (repeat (0, 2) 30)) 7 None net_down.
Proof.
  apply (forecast_uses_last_30 _ [(0, 1000)]
           (map (fun i => (Z.of_nat i, 2)) (seq 1 30)));
    reflexivity.
Defined.

(** ** Horizon 0 *)

Lemma to_int_zero (z : PyFloat.float) :
  PyFloat.is_zero z = true -> PyFloat.to_int z = Ok 0.
Proof. destruct z; try discriminate; reflexivity. Qed.

Lemma is_zero_finite (z : PyFloat.float) :
  PyFloat.is_zero z = true -> is_finite z = true.
Proof. destruct z; try discriminate; reflexivity. Qed.

(** A forecast scaled from a zero is 0, before the floor of 1. *)
Lemma scaled_forecast_zero (z d b : PyFloat.float) (days : Z) :
  PyFloat.is_zero z = true -> PyFloat.of_int days = Ok d ->
  is_finite b = true ->
  scaled_forecast (PFloat z) days b = Ok 0.
Proof.
  intros Hz Hd Hb. unfold scaled_forecast.
  cbn [PyNum.mul PyNum.as_float bind]. rewrite Hd. cbn [bind PyNum.to_int].
  destruct (of_int_sign _ _ Hd) as [_ Fd].
  apply to_int_zero, fmul_zero_l; [|exact Hb].
  apply fmul_zero_l; assumption.
Qed.

Lemma scaled_forecast_days_zero (a b : PyFloat.float) :
  is_finite a = true -> is_finite b = true ->
  scaled_forecast (PFloat a) 0 b = Ok 0.
Proof.
  intros Ha Hb. unfold scaled_forecast.
  cbn [PyNum.mul PyNum.as_float bind].
  change (PyFloat.of_int 0) with (Ok (S754_zero false)).
  cbn [bind PyNum.to_int].
  apply to_int_zero, fmul_zero_l; [|exact Hb].
  apply fmul_zero_r; [exact Ha|reflexivity].
Qed.

(** For the horizon 0 a product without sales gets the forecast 0 and the
    order 0; a product with sales gets the forecast 1, and asking for the
    order raises [ZeroDivisionError]. *)
Theorem horizon_zero (self : Product) (w : net) :
  small_sales self ->
  (sales_history self = [] ->
   fst (get_forecast self 0 None w) = Ok 0 /\
   fst (get_recommended_order self 0 w) = Ok 0) /\
  (sales_history self <> [] ->
   fst (get_forecast self 0 None w) = Ok 1 /\
   fst (get_recommended_order self 0 w) = Raise ZeroDivisionError).
Proof.
  intros Hsmall. split; intros Hh.
  - assert (E : forecast_no_weather self 0 = Ok 0)
      by (unfold forecast_no_weather; now rewrite Hh).
    split; [now rewrite get_forecast_no_location|].
    unfold get_recommended_order. unfold iobind at 1.
    rewrite get_forecast_no_location, E. reflexivity.
  - assert (E : forecast_no_weather self 0 = Ok 1).
    { unfold forecast_no_weather.
      rewrite (is_empty_false _ _ Hh), slice_from_last,
        (recent_nonempty _ _ Hh).
      destruct (average_sales_returns (last_entries 30 (sales_history self)))
        as (a & -> & Ba).
      - intros E0. pose proof (recent_nonempty _ _ Hh) as N.
        rewrite E0 in N. discriminate.
      - apply last_entries_length.
      - unfold last_entries. apply Forall_skipn_of. exact Hsmall.
      - cbn [bind]. rewrite scaled_forecast_days_zero; [reflexivity| |].
        + eapply fbound_finite; eauto.
        + apply fgood_buffer. }
    split; [now rewrite get_forecast_no_location|].
    unfold get_recommended_order. unfold iobind at 1.
    rewrite get_forecast_no_location, E. reflexivity.
Qed.

Lemma horizon_zero_witness :
  (sales_history apple = [] ->
   fst (get_forecast apple 0 None net_down) = Ok 0 /\
   fst (get_recommended_order apple 0 net_down) = Ok 0) /\
  (sales_history apple <> [] ->
   fst (get_forecast apple 0 None net_down) = Ok 1 /\
   fst (get_recommended_order apple 0 net_down) = Raise ZeroDivisionError).
Proof.
  apply (horizon_zero apple net_down).
  unfold small_sales, small, apple. simpl.
  repeat constructor; simpl; reflexivity.
Defined.

(** ** A trend of zero *)

(** With two weeks of records in the window, a first half that sold
    something and a second half that sold nothing in total, the forecast
    is the floor, 1, for every horizon. *)
Theorem trend_collapse (self : Product) (days : Z) (w : net) :
  small_sales self -> small days ->
  14 <= len (slice_from (-30) (sales_history self)) ->
  0 < sum_ints (map snd (slice_to
                           (len (slice_from (-30) (sales_history self)) / 2)
                           (slice_from (-30) (sales_history self)))) ->
  sum_ints (map snd (slice_from
                       (len (slice_from (-30) (sales_history self)) / 2)
                       (slice_from (-30) (sales_history self)))) = 0 ->
  fst (get_forecast self days None w) = Ok 1.
Proof.
  intros Hsmall Hdays Hlen Hfh Hsh.
  rewrite get_forecast_no_location. cbn [fst]. unfold forecast_no_weather.
  set (recent := slice_from (-30) (sales_history self)) in *.
  assert (Hne : recent <> []).
  { intros E. rewrite E in Hlen. unfold len in Hlen. simpl in Hlen. lia. }
  assert (Hh : sales_history self <> []).
  { intros E. apply Hne. unfold recent. now rewrite E. }
  rewrite (is_empty_false _ _ Hh), (is_empty_false _ _ Hne).
  assert (Hrs : Forall (fun sale => small (snd sale)) recent).
  { unfold recent, slice_from. apply Forall_skipn_of. exact Hsmall. }
  assert (Hrl : (List.length recent <= 30)%nat).
  { unfold recent. rewrite slice_from_last. apply last_entries_length. }
  assert (Hl : len recent <> 0) by lia.
  unfold average_sales.
  destruct (int_truediv_spec (sum_ints (map snd recent)) (len recent) 261)
    as (avg & Eavg & Bavg & _); [exact Hl|now apply small_sum|lia|].
  cbn [PyNum.truediv]. rewrite Eavg. cbn [bind].
  destruct (Z.leb_spec 14 (len recent)) as [_|]; [|lia].
  destruct (Z.ltb_spec 0
              (sum_ints (map snd (slice_to (len recent / 2) recent))))
    as [_|]; [|lia].
  rewrite Hsh.
  destruct (int_truediv_spec 0
              (sum_ints (map snd (slice_to (len recent / 2) recent))) 1)
    as (tf & Etf & _); [lia|simpl; lia|lia|].
  rewrite Etf. cbn [bind PyNum.mul PyNum.as_float].
  destruct (of_int_spec days 256 Hdays ltac:(lia)) as (d & Ed & _).
  rewrite (scaled_forecast_zero _ d _ days); [reflexivity| |exact Ed|].
  - apply fmul_zero_r; [eapply fbound_finite; eauto|].
    eapply int_truediv_zero; eauto.
  - apply fgood_buffer.
Qed.

Lemma trend_collapse_witness :
  fst (get_forecast
         (product_with_sales (repeat 5 7 ++ repeat 0 7)) 10 None net_down)
  = Ok 1.
Proof.
  apply (trend_collapse (product_with_sales (repeat 5 7 ++ repeat 0 7)) 10
           net_down).
  - unfold small_sales, small. simpl.
    repeat constructor; simpl; reflexivity.
  - reflexivity.
  - vm_compute. discriminate.
  - vm_compute. reflexivity.
  - vm_compute. reflexivity.
Defined.

(** ** The weather adjustment *)

(** A mantissa of 53 bits, [2 ^ 53] included, is kept by rounding. *)
Lemma round_units_exact_le (M E : Z) :
  0 < M <= 2 ^ 53 -> 1074 <= E -> round_units (M * 2 ^ E) = M * 2 ^ E.
Proof.
  intros [HM0 HM] HE.
  destruct (Z.eq_dec M (2 ^ 53)) as [->|Hne].
  - replace (2 ^ 53 * 2 ^ E) with (2 ^ 52 * 2 ^ (E + 1)).
    + apply round_units_exact; lia.
    + rewrite (pow2_succ E) by lia. change (2 ^ 53) with (2 ^ 52 * 2). ring.
  - apply round_units_exact; lia.
Qed.

(** Multiplying the double nearest to a value of at least 1 by the double
    1.2 gives a double that is not below the value. *)
Lemma round_mul_ge (V : Z) :
  2 ^ scale <= V ->
  V <= round_units (mul_units (round_units V) (sval PyFloat.f1_2)).
Proof.
  intros HV.
  assert (PU : 0 < 2 ^ scale) by (apply pow2_pos; unfold scale; lia).
  assert (HD : scale < Zdigits2 V)
    by (apply Zdigits2_ge; [unfold scale; lia|exact HV]).
  pose proof (Zdigits2_bounds V ltac:(lia)) as [Dlo Dhi].
  unfold round_units at 2. rewrite spacing_pow.
  set (dV := Zdigits2 V) in *.
  replace (Z.max (dV - 53) 1074) with (dV - 53) by (unfold scale in HD; lia).
  assert (HE : 1074 <= dV - 53) by (unfold scale in HD; lia).
  assert (Elo : 2 ^ (dV - 1) = 2 ^ 52 * 2 ^ (dV - 53)).
  { rewrite <- Z.pow_add_r by lia. f_equal. lia. }
  assert (Ehi : 2 ^ dV = 2 ^ 53 * 2 ^ (dV - 53)).
  { rewrite <- Z.pow_add_r by lia. f_equal. lia. }
  assert (Ps : 0 < 2 ^ (dV - 53)) by (apply pow2_pos; lia).
  rewrite Elo in Dlo. rewrite Ehi in Dhi. clear Elo Ehi.
  pose proof (rne_div_range V (2 ^ (dV - 53)) Ps) as Hk.
  pose proof (Z.mul_succ_div_gt V (2 ^ (dV - 53)) Ps) as Hgt.
  assert (Hq : 2 ^ 52 <= V / 2 ^ (dV - 53) < 2 ^ 53).
  { split; [apply Z.div_le_lower_bound; lia|].
    apply Z.div_lt_upper_bound; lia. }
  (* the double above the value *)
  assert (EY : round_units ((V / 2 ^ (dV - 53) + 1) * 2 ^ (dV - 53))
               = (V / 2 ^ (dV - 53) + 1) * 2 ^ (dV - 53)).
  { apply round_units_exact_le; lia. }
  (* the exact product is not below it *)
  assert (HW : (V / 2 ^ (dV - 53) + 1) * 2 ^ (dV - 53)
               <= mul_units (2 ^ (dV - 53) * rne_div V (2 ^ (dV - 53)))
                    (sval PyFloat.f1_2)).
  { unfold mul_units. cbn [sval PyFloat.f1_2].
    change (-52 + scale) with 2096.
    assert (EU : 2 ^ scale = 2 ^ 52 * 2 ^ 2096).
    { unfold scale. rewrite <- Z.pow_add_r by lia. reflexivity. }
    rewrite EU.
    assert (PG : 0 < 2 ^ 2096) by (apply pow2_pos; lia).
    clear EU PU HV HD Dlo Dhi EY Hgt.
    revert Hk Hq Ps PG.
    generalize (2 ^ 2096). generalize (rne_div V (2 ^ (dV - 53))).
    generalize (V / 2 ^ (dV - 53)). generalize (2 ^ (dV - 53)).
    intros s q k G Hk Hq Ps PG.
    apply Z.div_le_lower_bound; [lia|].
    assert (A : 2 ^ 52 * (q + 1) <= k * 5404319552844595) by lia.
    assert (B : 2 ^ 52 * (q + 1) * (s * G)
                <= k * 5404319552844595 * (s * G)).
    { apply Z.mul_le_mono_nonneg_r; [|exact A].
      apply Z.mul_nonneg_nonneg; lia. }
    replace (2 ^ 52 * G * ((q + 1) * s))
      with (2 ^ 52 * (q + 1) * (s * G)) by ring.
    replace (s * k * (5404319552844595 * G))
      with (k * 5404319552844595 * (s * G)) by ring.
    exact B. }
  assert (HY : 0 <= (V / 2 ^ (dV - 53) + 1) * 2 ^ (dV - 53)).
  { apply Z.mul_nonneg_nonneg; lia. }
  pose proof (round_units_mono0 _ _ (conj HY HW)) as Hmono.
  rewrite EY in Hmono.
  assert (V < (V / 2 ^ (dV - 53) + 1) * 2 ^ (dV - 53))
    by (clear - Hgt; lia).
  clear - Hmono H. lia.
Qed.

(** The adjusted forecast [int(forecast * 1.2)] is not below a forecast of
    1 at least. *)
Lemma adjust_ge (f a : Z) (x : PyFloat.float) :
  1 <= f -> PyFloat.of_int f = Ok x ->
  PyFloat.to_int (PyFloat.fmul x PyFloat.f1_2) = Ok a -> f <= a.
Proof.
  intros Hf Hx Ha.
  destruct (of_int_units f x Hf Hx) as (Vx & Gx & Fx & _).
  pose proof (to_int_is_finite _ _ Ha) as Fy.
  assert (G12 : fgood PyFloat.f1_2) by (cbn; lia).
  destruct (fmul_units x PyFloat.f1_2 Gx G12 Fx eq_refl Fy) as [Vy Gy].
  pose proof (to_int_units _ _ Gy Ha) as Ea.
  assert (PU : 0 < 2 ^ scale) by (apply pow2_pos; unfold scale; lia).
  assert (HV : 2 ^ scale <= f * 2 ^ scale).
  { clear - Hf PU. revert PU. generalize (2 ^ scale). intros U PU. nia. }
  pose proof (round_mul_ge (f * 2 ^ scale) HV) as Hge.
  rewrite <- Vx, <- Vy in Hge.
  subst a. apply Z.div_le_lower_bound; [exact PU|].
  rewrite Z.mul_comm. exact Hge.
Qed.

(** What the weather step returns: the forecast as it was, or, for a
    product it applies to, [int(forecast * 1.2)]. *)
Lemma weather_adjust_result (self : Product) (forecast a : Z) (loc : string)
    (w : net) :
  fst (weather_adjust self forecast loc w) = Ok a ->
  a = forecast \/
  (weather_sensitive self = true /\
   exists x, PyFloat.of_int forecast = Ok x /\
             PyFloat.to_int (PyFloat.fmul x PyFloat.f1_2) = Ok a).
Proof.
  unfold weather_adjust. unfold iobind at 1.
  destruct (get_weather_forecast loc w) as [[weather|e] w'];
    [|discriminate].
  destruct (dict_has "temperature" weather);
    [|cbn; intros H; injection H as <-; now left].
  unfold iobind, lift, ret.
  destruct (subscript_str _ _) as [temp|e]; [|discriminate].
  destruct (json_gt_int temp 30) as [hot|e]; [|discriminate].
  fold (weather_sensitive self).
  destruct hot, (weather_sensitive self); cbn [andb];
    try (cbn; intros H; injection H as <-; now left).
  cbn [PyNum.mul PyNum.as_float].
  destruct (PyFloat.of_int forecast) as [x|e]; cbn [bind]; [|discriminate].
  cbn [PyNum.to_int fst]. intros H. right. split; [reflexivity|].
  exists x. split; [reflexivity|].
  destruct (PyFloat.to_int _); [exact H|discriminate].
Qed.

(** A weather lookup never lowers a forecast, and changes it only for a
    product named "ice cream" or "juice", in any letter case. *)
Theorem weather_never_lowers (self : Product) (days n : Z) (loc : string)
    (w : net) :
  fst (get_forecast self days (Some loc) w) = Ok n ->
  exists m,
    fst (get_forecast self days None w) = Ok m /\ m <= n /\
    (weather_sensitive self = false -> n = m).
Proof.
  rewrite get_forecast_no_location. cbn [fst].
  unfold get_forecast, forecast_no_weather.
  destruct (is_empty (sales_history self)).
  { cbn. intros H. injection H as <-. exists 0. auto with zarith. }
  destruct (is_empty (slice_from (-30) (sales_history self))).
  { cbn. intros H. injection H as <-. exists 0. auto with zarith. }
  unfold iobind at 1. unfold lift at 1.
  destruct (average_sales _) as [avg|e]; cbn [bind]; [|discriminate].
  unfold iobind at 1. unfold lift at 1.
  destruct (scaled_forecast avg days (buffer_factor self days)) as [f|e];
    cbn [bind]; [|discriminate].
  destruct (location_truthy (Some loc)) as [loc'|].
  2:{ cbn. intros H. injection H as <-. exists (Z.max 1 f). auto with zarith. }
  unfold iobind.
  destruct (weather_adjust self f loc' w) as [[a|e] w'] eqn:Ew;
    [|discriminate].
  cbn [ret fst]. intros H. injection H as <-.
  exists (Z.max 1 f). split; [reflexivity|].
  assert (Ew' : fst (weather_adjust self f loc' w) = Ok a) by now rewrite Ew.
  destruct (weather_adjust_result self f a loc' w Ew')
    as [->|(Hs & x & Hx & Ha)].
  - split; [lia|reflexivity].
  - split; [|rewrite Hs; discriminate].
    destruct (Z_le_gt_dec 1 f) as [H1|H1]; [|lia].
    pose proof (adjust_ge f a x H1 Hx Ha). lia.
Qed.

Lemma weather_never_lowers_witness :
  exists m,
    fst (get_forecast ice_cream 7 None net_hot) = Ok m /\ m <= 112 /\
    (weather_sensitive ice_cream = false -> 112 = m).
Proof.
  apply (weather_never_lowers ice_cream 7 112 "London" net_hot).
  vm_compute. reflexivity.
Defined.

(** At 35 degrees the forecast of 94 for ice cream becomes 112; for the
    apple it stays 94. *)
Example weather_sample :
  fst (get_forecast ice_cream 7 (Some "London"%string) net_hot) = Ok 112 /\
  fst (get_forecast ice_cream 7 None net_hot) = Ok 94 /\
  fst (get_forecast apple 7 (Some "London"%string) net_hot) = Ok 94.
Proof. repeat split; vm_compute; reflexivity. Qed.

(** * Further properties of the supplier ranker *)

(** [record_delivery] keeps the three record lists at one length. *)
Lemma reachable_aligned (s : Supplier) : supplier_reachable s -> aligned s.
Proof.
  induction 1 as [i n|s d c q _ [IH1 IH2]]; unfold aligned.
  - split; reflexivity.
  - cbn [record_delivery delivery_timelines costs quality_ratings].
    rewrite !length_app. cbn [List.length]. split; lia.
Qed.

Lemma aligned_empty (s : Supplier) :
  aligned s ->
  (delivery_timelines s = [] <-> costs s = []) /\
  (costs s = [] <-> quality_ratings s = []).
Proof.
  intros [H1 H2].
  destruct (delivery_timelines s), (costs s), (quality_ratings s);
    cbn [List.length] in H1, H2; try discriminate;
    split; split; intros; congruence.
Qed.

Section RankerFacts.
Variable builtin_sum : list pynum -> result pynum.

(** A supplier made by the constructor and [record_delivery] has as many
    delivery times as costs as ratings, so that its three averages are
    [None] together or not at all. *)
Theorem supplier_records_aligned (s : Supplier) :
  supplier_reachable s ->
  aligned s /\
  (average_delivery_time builtin_sum s = Ok None
   <-> average_cost builtin_sum s = Ok None) /\
  (average_cost builtin_sum s = Ok None
   <-> average_quality builtin_sum s = Ok None).
Proof.
  intros H. pose proof (reachable_aligned s H) as Ha.
  split; [exact Ha|].
  destruct (aligned_empty s Ha) as [E1 E2].
  unfold average_delivery_time, average_cost, average_quality.
  rewrite !average_none_iff. split; assumption.
Qed.

(** The keys of a sort are computed in list order, and the first that
    fails ends it. *)
Lemma decorate_raise {A : Type} (key : A -> result pynum) (l : list A)
    (e : exn) :
  decorate key l = Raise e <->
  exists before a after,
    l = before ++ a :: after /\
    Forall (fun x => exists k, key x = Ok k) before /\ key a = Raise e.
Proof.
  induction l as [|x l IH]; cbn [decorate].
  - split; [discriminate|].
    intros (before & a & after & E & _). now destruct before.
  - destruct (key x) as [k|e'] eqn:Hk; cbn [bind].
    + destruct (decorate key l) as [d|e'] eqn:Hd; cbn [bind].
      * split; [discriminate|].
        intros (before & a & after & E & Hb & Ha).
        destruct before as [|b before]; cbn [app] in E; inversion E; subst.
        { congruence. }
        assert (Raise e = Ok d :> result (list (pynum * A))); [|discriminate].
        symmetry. apply IH. exists before, a, after.
        inversion Hb; subst. auto.
      * split.
        -- intros H. inversion H; subst e'.
           destruct (proj1 IH eq_refl) as (before & a & after & E & Hb & Ha).
           exists (x :: before), a, after. subst l.
           repeat split; auto. constructor; eauto.
        -- intros (before & a & after & E & Hb & Ha).
           destruct before as [|b before]; cbn [app] in E; inversion E; subst.
           { congruence. }
           f_equal. symmetry.
           assert (X : Raise e' = Raise e :> result (list (pynum * A))).
           { apply IH. exists before, a, after. inversion Hb; subst. auto. }
           now inversion X.
    + split.
      * intros H. inversion H; subst e'. exists [], x, l. auto.
      * intros (before & a & after & E & Hb & Ha).
        destruct before as [|b before]; cbn [app] in E; inversion E; subst.
        -- congruence.
        -- inversion Hb; subst. destruct H1 as [k Hk']. congruence.
Qed.

(** The ranking fails exactly when the score of some supplier cannot be
    computed, and then with the error of the first such supplier of the
    input; otherwise it returns. *)
Theorem ranking_first_error (suppliers : list Supplier) (e : exn) :
  recommend_best_suppliers builtin_sum suppliers = Raise e <->
  exists before s after,
    suppliers = before ++ s :: after /\
    Forall (fun x => exists k, score builtin_sum x = Ok k) before /\
    score builtin_sum s = Raise e.
Proof.
  rewrite <- decorate_raise.
  unfold recommend_best_suppliers, sorted.
  destruct (decorate (score builtin_sum) suppliers) as [d|e']; cbn [bind].
  - split; discriminate.
  - split; intros H; inversion H; reflexivity.
Qed.
End RankerFacts.

Lemma supplier_records_aligned_witness :
  aligned supplier_A /\
  (average_delivery_time sum_left supplier_A = Ok None
   <-> average_cost sum_left supplier_A = Ok None) /\
  (average_cost sum_left supplier_A = Ok None
   <-> average_quality sum_left supplier_A = Ok None).
Proof.
  apply (supplier_records_aligned sum_left supplier_A).
  unfold supplier_A. repeat constructor.
Defined.

(** A cost too large for a double makes the score, and with it the ranking
    of every list that holds the supplier, raise [OverflowError]. *)
Example ranking_error_sample :
  recommend_best_suppliers sum_left
    [supplier_A;
     record_delivery (Supplier_init "S9" "Z") (PInt 1) (PInt (2 ^ 1024))
       (PInt 5);
     supplier_B]
  = Raise OverflowError.
Proof. vm_compute. reflexivity. Qed.

(** * Properties of the application *)

(** ** Dicts *)

Section DictFacts.
Context {V : Type}.
Implicit Types (d : App.pydict V) (k : string) (v : V).

Lemma lookup_setitem_same k v d : App.lookup k (App.setitem k v d) = Some v.
Proof.
  induction d as [|[k' v'] d IH]; cbn [App.setitem App.lookup].
  - now rewrite String.eqb_refl.
  - destruct (String.eqb k k') eqn:E; cbn [App.lookup]; rewrite E; auto.
Qed.

Lemma lookup_setitem_other k k' v d :
  k' <> k -> App.lookup k' (App.setitem k v d) = App.lookup k' d.
Proof.
  intros Hne. induction d as [|[k0 v0] d IH]; cbn [App.setitem App.lookup].
  - apply String.eqb_neq in Hne. now rewrite Hne.
  - destruct (String.eqb k k0) eqn:E; cbn [App.lookup].
    + apply String.eqb_eq in E. subst k0.
      apply String.eqb_neq in Hne. now rewrite Hne.
    + now rewrite IH.
Qed.

Lemma lookup_in_keys k d :
  In k (App.keys d) <-> exists v, App.lookup k d = Some v.
Proof.
  induction d as [|[k' v'] d IH]; cbn [App.keys App.lookup map fst In].
  - split; [contradiction|intros [v H]; discriminate].
  - destruct (String.eqb_spec k k') as [->|Hne].
    + split; eauto.
    + rewrite IH. split; [intros [H|H]; [congruence|exact H]|auto].
Qed.

Lemma contains_in_keys k d : App.contains k d = true <-> In k (App.keys d).
Proof.
  rewrite lookup_in_keys. unfold App.contains.
  destruct (App.lookup k d); split; eauto; try discriminate.
  intros [v H]; discriminate.
Qed.

(** Assigning to a new key puts the entry last. *)
Lemma setitem_new k v d :
  App.contains k d = false -> App.setitem k v d = d ++ [(k, v)].
Proof.
  unfold App.contains.
  induction d as [|[k' v'] d IH]; cbn [App.setitem App.lookup app];
    [reflexivity|].
  destruct (String.eqb k k'); [discriminate|].
  intros H. now rewrite IH.
Qed.

(** Assigning to a key of the dict keeps the keys and their order. *)
Lemma keys_setitem_old k v d :
  App.contains k d = true -> App.keys (App.setitem k v d) = App.keys d.
Proof.
  unfold App.contains, App.keys.
  induction d as [|[k' v'] d IH]; cbn [App.setitem App.lookup map fst];
    [discriminate|].
  destruct (String.eqb k k'); cbn [map fst]; [reflexivity|].
  intros H. now rewrite IH.
Qed.

Lemma keys_setitem_new k v d :
  App.contains k d = false -> App.keys (App.setitem k v d) = App.keys d ++ [k].
Proof.
  intros H. rewrite (setitem_new k v d H). unfold App.keys.
  now rewrite map_app.
Qed.

Lemma NoDup_keys_setitem k v d :
  NoDup (App.keys d) -> NoDup (App.keys (App.setitem k v d)).
Proof.
  intros H. destruct (App.contains k d) eqn:E.
  - now rewrite keys_setitem_old.
  - rewrite keys_setitem_new by exact E.
    apply NoDup_app; [exact H|repeat constructor; intros []|].
    intros x Hx [<-|[]]. apply contains_in_keys in Hx. congruence.
Qed.
End DictFacts.

(** ** Adding products and recording sales *)

(** [add_product] never replaces a product: under an ID already in use
    the products stay as they are and the call returns [False]. Under a
    new ID the product goes last, with stock 0 and no sales. Either way
    one message is shown and nothing else changes. *)
Theorem add_product_keeps_existing (product_id name : string)
    (shelf_life : Z) (category : string) (st : App.streamlit) :
  let r := App.add_product product_id name shelf_life category st in
  App.suppliers (snd r) = App.suppliers st /\
  (exists m, App.shown (snd r) = App.shown st ++ [m]) /\
  (forall k, k <> product_id ->
     App.lookup k (App.products (snd r)) = App.lookup k (App.products st)) /\
  if App.contains product_id (App.products st)
  then fst r = false /\ App.products (snd r) = App.products st
  else
    fst r = true /\
    App.products (snd r)
    = App.products st
        ++ [(product_id,
             Product_init product_id name shelf_life (Some category))] /\
    App.lookup product_id (App.products (snd r))
    = Some (Product_init product_id name shelf_life (Some category)).
Proof.
  unfold App.add_product.
  destruct (App.contains product_id (App.products st)) eqn:E;
    cbn [fst snd App.show App.set_products App.products App.suppliers
         App.shown].
  - repeat split; eauto.
  - split; [reflexivity|]. split; [eauto|]. split.
    + intros k Hk. now apply lookup_setitem_other.
    + split; [reflexivity|]. split.
      * now apply setitem_new.
      * apply lookup_setitem_same.
Qed.

(** [record_sale] on a product of the session lowers its stock by the
    quantity and puts the sale last in its history; the IDs, their order
    and every other product stay as they are. On an unknown ID it returns
    [False] and changes no product. *)
Theorem record_sale_updates_one (now : Z) (product_id : string)
    (quantity : Z) (st : App.streamlit) :
  let r := App.record_sale now product_id quantity st in
  App.suppliers (snd r) = App.suppliers st /\
  App.keys (App.products (snd r)) = App.keys (App.products st) /\
  (forall k, k <> product_id ->
     App.lookup k (App.products (snd r)) = App.lookup k (App.products st)) /\
  match App.lookup product_id (App.products st) with
  | None => fst r = false /\ App.products (snd r) = App.products st
  | Some p =>
      fst r = true /\
      exists p',
        App.lookup product_id (App.products (snd r)) = Some p' /\
        inventory p' = inventory p - quantity /\
        sales_history p' = sales_history p ++ [(now, quantity)] /\
        App.get_sales_history product_id (snd r)
        = App.get_sales_history product_id st ++ [(now, quantity)] /\
        id p' = id p /\ name p' = name p /\
        shelf_life_days p' = shelf_life_days p /\ category p' = category p
  end.
Proof.
  unfold App.record_sale, App.get_sales_history.
  destruct (App.lookup product_id (App.products st)) as [p|] eqn:E;
    cbn [fst snd App.show App.set_products App.products App.suppliers
         App.shown].
  - split; [reflexivity|]. split.
    + apply keys_setitem_old. unfold App.contains. now rewrite E.
    + split; [intros k Hk; now apply lookup_setitem_other|].
      split; [reflexivity|].
      exists (add_sale now p quantity).
      rewrite lookup_setitem_same. repeat split; reflexivity.
  - repeat split; reflexivity.
Qed.

(** ** Adding suppliers and recording deliveries *)

(** [add_supplier] never replaces a supplier: under an ID already in use
    it returns [False] and the suppliers stay as they are, under a new ID
    the supplier goes last, without records. [record_supplier_performance]
    on a supplier of the session puts the three figures last in its three
    lists and keeps the IDs and their order; on an unknown ID it returns
    [False] and changes no supplier. Neither touches a product or another
    supplier. *)
Theorem supplier_helpers_update_one (sid name : string)
    (delivery_days cost quality_rating : pynum) (st : App.streamlit) :
  let a := App.add_supplier sid name st in
  let r := App.record_supplier_performance sid delivery_days cost
             quality_rating st in
  (App.products (snd a) = App.products st /\
   App.products (snd r) = App.products st) /\
  (forall k, k <> sid ->
     App.lookup k (App.suppliers (snd a)) = App.lookup k (App.suppliers st) /\
     App.lookup k (App.suppliers (snd r)) = App.lookup k (App.suppliers st)) /\
  App.keys (App.suppliers (snd r)) = App.keys (App.suppliers st) /\
  match App.lookup sid (App.suppliers st) with
  | None =>
      fst a = true /\
      App.suppliers (snd a)
      = App.suppliers st ++ [(sid, Supplier_init sid name)] /\
      fst r = false /\ App.suppliers (snd r) = App.suppliers st
  | Some s =>
      fst a = false /\ App.suppliers (snd a) = App.suppliers st /\
      fst r = true /\
      exists s',
        App.lookup sid (App.suppliers (snd r)) = Some s' /\
        delivery_timelines s' = delivery_timelines s ++ [delivery_days] /\
        costs s' = costs s ++ [cost] /\
        quality_ratings s' = quality_ratings s ++ [quality_rating] /\
        supplier_id s' = supplier_id s /\
        supplier_name s' = supplier_name s
  end.
Proof.
  cbv zeta.
  unfold App.add_supplier, App.record_supplier_performance, App.contains.
  destruct (App.lookup sid (App.suppliers st)) as [s|] eqn:E;
    cbn [fst snd App.show App.set_suppliers App.products App.suppliers
         App.shown].
  - split; [split; reflexivity|]. split.
    + intros k Hk. split; [reflexivity|now apply lookup_setitem_other].
    + split.
      * apply keys_setitem_old. unfold App.contains. now rewrite E.
      * repeat split.
        exists (record_delivery s delivery_days cost quality_rating).
        rewrite lookup_setitem_same. repeat split; reflexivity.
  - split; [split; reflexivity|]. split.
    + intros k Hk. split; [now apply lookup_setitem_other|reflexivity].
    + repeat split. apply setitem_new. unfold App.contains. now rewrite E.
Qed.

(** ** Sessions *)

Lemma sum_ints_ge_len (h : list (Z * Z)) :
  Forall (fun sale => 1 <= snd sale) h -> len h <= sum_ints (map snd h).
Proof.
  unfold len. induction 1 as [|x h Hx _ IH]; cbn [map List.length].
  - reflexivity.
  - rewrite sum_ints_cons. lia.
Qed.

(** The invariants hold at the first run and are kept by each helper. *)
Lemma session_invariant (st : App.streamlit) :
  session_reachable st ->
  products_ok (App.products st) /\ suppliers_ok (App.suppliers st).
Proof.
  induction 1 as [|st pid nm sl cat _ [[Np IHp] IHs]
                  |st now pid q _ [[Np IHp] IHs] Hq
                  |st sid nm _ [IHp [Ns IHs]]
                  |st sid d c q _ [IHp [Ns IHs]]].
  - split; (split; [apply NoDup_nil|intros k x H; discriminate]).
  - unfold App.add_product.
    destruct (App.contains pid (App.products st)) eqn:E;
      cbn [snd App.show App.set_products App.products App.suppliers];
      [split; [split|]; assumption|].
    split; [|exact IHs]. split; [now apply NoDup_keys_setitem|].
    intros k p. destruct (String.eqb_spec k pid) as [->|Hne].
    + rewrite lookup_setitem_same. intros H. injection H as <-.
      repeat split. constructor.
    + rewrite lookup_setitem_other by exact Hne. apply IHp.
  - unfold App.record_sale.
    destruct (App.lookup pid (App.products st)) as [p0|] eqn:E;
      cbn [snd App.show App.set_products App.products App.suppliers];
      [|split; [split|]; assumption].
    split; [|exact IHs]. split; [now apply NoDup_keys_setitem|].
    intros k p. destruct (String.eqb_spec k pid) as [->|Hne].
    + rewrite lookup_setitem_same. intros H. injection H as <-.
      destruct (IHp pid p0 E) as (Hid & Hinv & Hall).
      cbn [add_sale id inventory sales_history]. split; [exact Hid|]. split.
      * rewrite map_app, sum_ints_app. cbn [map snd].
        rewrite sum_ints_cons. change (sum_ints []) with 0. lia.
      * apply Forall_app. split; [exact Hall|]. now constructor.
    + rewrite lookup_setitem_other by exact Hne. apply IHp.
  - unfold App.add_supplier.
    destruct (App.contains sid (App.suppliers st)) eqn:E;
      cbn [snd App.show App.set_suppliers App.products App.suppliers];
      [split; [|split]; assumption|].
    split; [exact IHp|]. split; [now apply NoDup_keys_setitem|].
    intros k s. destruct (String.eqb_spec k sid) as [->|Hne].
    + rewrite lookup_setitem_same. intros H. injection H as <-.
      split; [reflexivity|constructor].
    + rewrite lookup_setitem_other by exact Hne. apply IHs.
  - unfold App.record_supplier_performance.
    destruct (App.lookup sid (App.suppliers st)) as [s0|] eqn:E;
      cbn [snd App.show App.set_suppliers App.products App.suppliers];
      [|split; [|split]; assumption].
    split; [exact IHp|]. split; [now apply NoDup_keys_setitem|].
    intros k s. destruct (String.eqb_spec k sid) as [->|Hne].
    + rewrite lookup_setitem_same. intros H. injection H as <-.
      destruct (IHs sid s0 E) as (Hid & Hr).
      split; [exact Hid|now constructor].
    + rewrite lookup_setitem_other by exact Hne. apply IHs.
Qed.

(** In every session the product IDs are distinct, each product is kept
    under its own ID, and its stock is the negated sum of the quantities
    sold: the application has no way to add stock, so the stock it shows
    is never positive, and below 0 as soon as there is a sale. *)
Theorem session_stock_never_positive (st : App.streamlit) :
  session_reachable st ->
  NoDup (App.keys (App.products st)) /\
  forall k p, App.lookup k (App.products st) = Some p ->
    id p = k /\
    inventory p = - sum_ints (map snd (sales_history p)) /\
    inventory p <= - len (sales_history p) /\
    App.get_sales_history k st = sales_history p.
Proof.
  intros H. destruct (session_invariant st H) as [[Np Hp] _].
  split; [exact Np|]. intros k p E.
  destruct (Hp k p E) as (Hid & Hinv & Hall).
  pose proof (sum_ints_ge_len _ Hall).
  repeat split; try assumption; try lia.
  unfold App.get_sales_history. now rewrite E.
Qed.

Lemma session_stock_never_positive_witness :
  NoDup (App.keys (App.products sample_session)) /\
  forall k p, App.lookup k (App.products sample_session) = Some p ->
    id p = k /\
    inventory p = - sum_ints (map snd (sales_history p)) /\
    inventory p <= - len (sales_history p) /\
    App.get_sales_history k sample_session = sales_history p.
Proof.
  apply (session_stock_never_positive sample_session).
  unfold sample_session.
  apply session_record_performance, session_add_supplier.
  apply session_record_sale; [|lia].
  apply session_add_product, session_start.
Defined.

(** In every session the supplier IDs are distinct, each supplier is kept
    under its own ID, and its three record lists have one length. *)
Theorem session_suppliers_aligned (st : App.streamlit) :
  session_reachable st ->
  NoDup (App.keys (App.suppliers st)) /\
  forall k s, App.lookup k (App.suppliers st) = Some s ->
    supplier_id s = k /\ aligned s.
Proof.
  intros H. destruct (session_invariant st H) as [_ [Ns Hs]].
  split; [exact Ns|]. intros k s E.
  destruct (Hs k s E) as [Hid Hr].
  split; [exact Hid|now apply reachable_aligned].
Qed.

Lemma session_suppliers_aligned_witness :
  NoDup (App.keys (App.suppliers sample_session)) /\
  forall k s, App.lookup k (App.suppliers sample_session) = Some s ->
    supplier_id s = k /\ aligned s.
Proof.
  apply (session_suppliers_aligned sample_session).
  unfold sample_session.
  apply session_record_performance, session_add_supplier.
  apply session_record_sale; [|lia].
  apply session_add_product, session_start.
Defined.

(** ** The forecast page *)

(** For an unknown ID the application's [get_forecast] returns [None],
    shows an error and makes no request. For a product of the session it
    leaves the session as it is and makes the requests of the product's
    [get_forecast]; a returned dict holds that forecast, the stock, the
    shelf life, and the order of [get_recommended_order], which is the
    same for every location and every weather. *)
Theorem app_forecast_result (product_id : string) (days : Z)
    (location : option string) (st : App.streamlit) (w : net) :
  let r := App.get_forecast product_id days location st w in
  match App.lookup product_id (App.products st) with
  | None =>
      r = (Ok None,
           App.show (App.st_error ("Product " ++ product_id ++ " not found!"))
             st, w)
  | Some p =>
      snd (fst r) = st /\
      snd r = net_after_forecast p days location w /\
      fst (fst r) <> Ok None /\
      forall info, fst (fst r) = Ok (Some info) ->
        exists f n,
          fst (get_forecast p days location w) = Ok f /\
          (forall w0, fst (get_recommended_order p days w0) = Ok n) /\
          info = [("forecast", f); ("recommended_order", n);
                  ("current_inventory", inventory p);
                  ("shelf_life", shelf_life_days p)]%string
  end.
Proof.
  cbv zeta. unfold App.get_forecast.
  destruct (App.lookup product_id (App.products st)) as [p|];
    [|reflexivity].
  pose proof (get_forecast_net p days location w) as Hnet.
  destruct (get_forecast p days location w) as [[f|e] w1] eqn:Ef;
    cbn [snd] in Hnet; subst w1.
  2:{ cbn [fst snd]. repeat split; try discriminate. }
  destruct (get_recommended_order_offline p days) as [r Hr].
  rewrite Hr. destruct r as [n|e]; cbn [fst snd].
  2:{ repeat split; try discriminate. }
  repeat split; try discriminate.
  intros info H. injection H as <-.
  exists f, n. split; [reflexivity|]. split; [|reflexivity].
  intros w0. now rewrite Hr.
Qed.

(** At 35 degrees the page shows the forecast 27 for ice cream that sold
    3 units, and the order 23 of the forecast without weather. *)
Example app_forecast_sample :
  fst (fst (App.get_forecast "P1" 7 (Some "London"%string) sample_session
              net_hot))
  = Ok (Some [("forecast", 27); ("recommended_order", 23);
              ("current_inventory", -3); ("shelf_life", 7)]%string) /\
  fst (fst (App.get_forecast "P1" 7 None sample_session net_hot))
  = Ok (Some [("forecast", 23); ("recommended_order", 23);
              ("current_inventory", -3); ("shelf_life", 7)]%string).
Proof. split; vm_compute; reflexivity. Qed.
